(** * Kafka event bridge, HTTP relay and queue payload model

    A shallow embedding of the four Python modules of the repository

      - [deliverer/deliverer/__init__.py]      (module [Deliverer])
      - [http_kafka_relay/relay/__init__.py]   (module [Relay])
      - [kafka_queue/__init__.py]              (module [KafkaQueue])
      - [kafka_queue/events/__init__.py]       (module [Events])

    together with the parts of the Python runtime they call: [str] and
    [bytes] operations, the [base64] and [json] codecs, [string.Template]
    and the two regular expressions of [_derive_category].

    Modelling conventions.
      - A Python [str] is a [string]; each character stands for the code
        point of the same number, so the model covers code points below
        256.  A Python [bytes] is a [list byte].
      - Python exceptions are values of [pyexc]; a computation that may
        raise returns a [result].
      - Asynchronous handlers are run to completion one after the other;
        the broker, the event bus, the logger and the object store are
        fields of an explicit [World].
      - JSON numbers are integers; floating point is outside the model. *)

From Stdlib Require Import String Ascii List ZArith NArith Lia Bool Arith.
From Stdlib Require Decimal DecimalString DecimalN DecimalFacts.
From Stdlib.Strings Require Import Byte.
Import ListNotations.

Open Scope list_scope.
Open Scope string_scope.

(** ** Exceptions and results *)

(** The exception classes the modelled code can raise.  [BrokerError]
    stands for any exception raised by the Kafka client. *)
Inductive pyexc : Type :=
| ValueError (msg : string)
| JSONDecodeError
| UnicodeDecodeError
| UnicodeEncodeError
| BinasciiError
| KeyError (key : string)
| IndexError
| TypeError
| AttributeError
| AssertionError
| ValidationError (field : string)
| InjectionError
| BrokerError (detail : string).

(** [isinstance(e, ValueError)]: the JSON, Unicode and binascii errors are
    subclasses of [ValueError] (and so is pydantic's [ValidationError]);
    lookup and type errors are not. *)
Definition is_ValueError (e : pyexc) : bool :=
  match e with
  | ValueError _ | JSONDecodeError | UnicodeDecodeError
  | UnicodeEncodeError | BinasciiError | ValidationError _ => true
  | _ => false
  end.

Inductive result (A : Type) : Type :=
| Ok (a : A)
| Raise (e : pyexc).
Arguments Ok {A} a.
Arguments Raise {A} e.

Definition rbind {A B} (r : result A) (k : A -> result B) : result B :=
  match r with
  | Ok a => k a
  | Raise e => Raise e
  end.

Definition is_ok {A} (r : result A) : bool :=
  match r with Ok _ => true | Raise _ => false end.

Declare Scope result_scope.
Delimit Scope result_scope with result.
Notation "x <- r ;; k" := (rbind r (fun x => k))
  (at level 61, r at next level, right associativity) : result_scope.

Fixpoint rmap {A B} (f : A -> result B) (l : list A) : result (list B) :=
  match l with
  | [] => Ok []
  | a :: l' =>
      match f a with
      | Ok b => match rmap f l' with
                | Ok bs => Ok (b :: bs)
                | Raise e => Raise e
                end
      | Raise e => Raise e
      end
  end.

(** ** Characters, [str] and [bytes] *)

Definition bytes := list byte.

Definition dquote : ascii := "034"%char.
Definition backslash : ascii := "092"%char.
Definition LF : ascii := "010"%char.
Definition CR : ascii := "013"%char.
Definition TAB : ascii := "009"%char.
Definition BS : ascii := "008"%char.
Definition FF : ascii := "012"%char.

Definition ord (c : ascii) : N := N_of_ascii c.
Definition chr (n : N) : ascii := ascii_of_N n.

Definition byte_of_N (n : N) : byte :=
  match Byte.of_N n with
  | Some b => b
  | None => x00
  end.

Definition str1 (c : ascii) : string := String c EmptyString.

Fixpoint string_of_list (l : list ascii) : string :=
  match l with
  | [] => EmptyString
  | c :: l' => String c (string_of_list l')
  end.

(** Readable JSON literals: [q "{'a': 1}"] is the text with every
    apostrophe turned into a double quote. *)
Fixpoint q (s : string) : string :=
  match s with
  | EmptyString => EmptyString
  | String c s' => String (if Ascii.eqb c "'" then dquote else c) (q s')
  end.

(** [s.encode("utf8")] for code points below 256. *)
Definition utf8_char (c : ascii) : bytes :=
  let n := ord c in
  if (n <? 128)%N then [byte_of_N n]
  else [byte_of_N (192 + n / 64); byte_of_N (128 + n mod 64)].

Fixpoint encode_utf8 (s : string) : bytes :=
  match s with
  | EmptyString => []
  | String c s' => (utf8_char c ++ encode_utf8 s')%list
  end.

(** [b.decode("utf8")].  One-byte sequences and the two-byte sequences of
    the code points 128..255 are decoded; every other input is either
    malformed or denotes a code point the model does not cover. *)
Fixpoint decode_utf8 (b : bytes) : option string :=
  match b with
  | [] => Some EmptyString
  | b0 :: rest =>
      let n0 := Byte.to_N b0 in
      if (n0 <? 128)%N then
        option_map (String (chr n0)) (decode_utf8 rest)
      else if ((n0 =? 194) || (n0 =? 195))%N then
        match rest with
        | b1 :: rest' =>
            let n1 := Byte.to_N b1 in
            if ((128 <=? n1) && (n1 <? 192))%N then
              option_map (String (chr ((n0 - 192) * 64 + (n1 - 128))))
                         (decode_utf8 rest')
            else None
        | [] => None
        end
      else None
  end.

(** [s.encode("ascii")] *)
Fixpoint encode_ascii (s : string) : result bytes :=
  match s with
  | EmptyString => Ok []
  | String c s' =>
      if (ord c <? 128)%N then
        match encode_ascii s' with
        | Ok b => Ok (byte_of_N (ord c) :: b)
        | Raise e => Raise e
        end
      else Raise UnicodeEncodeError
  end.

(** [b.decode("ascii")] *)
Fixpoint decode_ascii (b : bytes) : result string :=
  match b with
  | [] => Ok EmptyString
  | b0 :: rest =>
      if (Byte.to_N b0 <? 128)%N then
        match decode_ascii rest with
        | Ok s => Ok (String (chr (Byte.to_N b0)) s)
        | Raise e => Raise e
        end
      else Raise UnicodeDecodeError
  end.

(** [s.startswith(p)] *)
Fixpoint startswith (p s : string) : bool :=
  match p with
  | EmptyString => true
  | String a p' =>
      match s with
      | EmptyString => false
      | String b s' => Ascii.eqb a b && startswith p' s'
      end
  end.

(** [sep.join(parts)] *)
Definition str_join (sep : string) (parts : list string) : string :=
  String.concat sep parts.

(** [s.replace(old, new)]: the occurrences of [old] are found from left to
    right and do not overlap.  [skip] counts the characters of a match
    that are still to be dropped. *)
Fixpoint replace_from (old new : string) (skip : nat) (s : string) : string :=
  match s with
  | EmptyString => EmptyString
  | String c rest =>
      match skip with
      | S k => replace_from old new k rest
      | O =>
          if startswith old s
          then new ++ replace_from old new (String.length old - 1) rest
          else String c (replace_from old new 0 rest)
      end
  end.

Fixpoint intersperse (new s : string) : string :=
  match s with
  | EmptyString => new
  | String c rest => new ++ String c (intersperse new rest)
  end.

Definition str_replace (old new s : string) : string :=
  match old with
  | EmptyString => intersperse new s
  | _ => replace_from old new 0 s
  end.

(** [needle in s] *)
Fixpoint str_contains (needle s : string) : bool :=
  startswith needle s ||
  match s with
  | EmptyString => false
  | String _ rest => str_contains needle rest
  end.

(** ** Python values that come from JSON *)

(** The values [json.loads] produces and [json.dumps] accepts: [None],
    [bool], [int], [str], [list] and [dict].  A [dict] keeps its keys in
    insertion order, so it is an association list without duplicate keys. *)
#[warnings="-register-all"]
Inductive json : Type :=
| JNull
| JBool (b : bool)
| JNum (n : Z)
| JStr (s : string)
| JArr (items : list json)
| JObj (members : list (string * json)).

Definition dict := list (string * json).

(** [d.get(k)] on the association list *)
Fixpoint dict_get (k : string) (d : dict) : option json :=
  match d with
  | [] => None
  | (k', v) :: d' => if String.eqb k k' then Some v else dict_get k d'
  end.

(** [d[k] = v]: an existing key keeps its position, a new key goes last. *)
Fixpoint dict_set (k : string) (v : json) (d : dict) : dict :=
  match d with
  | [] => [(k, v)]
  | (k', v') :: d' =>
      if String.eqb k k' then (k', v) :: d' else (k', v') :: dict_set k v d'
  end.

(** [dict(pairs)] *)
Definition dict_of_pairs (pairs : list (string * json)) : dict :=
  fold_left (fun d kv => dict_set (fst kv) (snd kv) d) pairs [].

(** [v[k]] with a string subscript *)
Definition py_getitem (v : json) (k : string) : result json :=
  match v with
  | JObj d =>
      match dict_get k d with
      | Some x => Ok x
      | None => Raise (KeyError k)
      end
  | _ => Raise TypeError
  end.

(** [v[k] = x] with a string subscript *)
Definition py_setitem (v : json) (k : string) (x : json) : result json :=
  match v with
  | JObj d => Ok (JObj (dict_set k x d))
  | _ => Raise TypeError
  end.

(** [v.get(k)]: only a [dict] has the method. *)
Definition py_get (v : json) (k : string) : result json :=
  match v with
  | JObj d =>
      match dict_get k d with
      | Some x => Ok x
      | None => Ok JNull
      end
  | _ => Raise AttributeError
  end.

Fixpoint chars_of (s : string) : list json :=
  match s with
  | EmptyString => []
  | String c s' => JStr (str1 c) :: chars_of s'
  end.

(** [iter(v)]: a list yields its items, a dict its keys, a str its
    characters; the other values are not iterable. *)
Definition py_iter (v : json) : result (list json) :=
  match v with
  | JArr l => Ok l
  | JObj d => Ok (map (fun kv => JStr (fst kv)) d)
  | JStr s => Ok (chars_of s)
  | _ => Raise TypeError
  end.

(** The argument of [str.join] has to hold [str] items only. *)
Definition as_str (v : json) : result string :=
  match v with
  | JStr s => Ok s
  | _ => Raise TypeError
  end.

(** ** Decimal numerals *)

Definition str_of_N (n : N) : string :=
  DecimalString.NilEmpty.string_of_uint (N.to_uint n).

(** [str(n)] for an [int] *)
Definition str_of_Z (z : Z) : string :=
  match z with
  | Z0 => "0"
  | Zpos p => str_of_N (Npos p)
  | Zneg p => String "-" (str_of_N (Npos p))
  end.

Definition is_digit (c : ascii) : bool :=
  ((48 <=? ord c) && (ord c <=? 57))%N.

Definition digit_cons (c : ascii) (d : Decimal.uint) : Decimal.uint :=
  match (ord c - 48)%N with
  | 0 => Decimal.D0 d | 1 => Decimal.D1 d | 2 => Decimal.D2 d
  | 3 => Decimal.D3 d | 4 => Decimal.D4 d | 5 => Decimal.D5 d
  | 6 => Decimal.D6 d | 7 => Decimal.D7 d | 8 => Decimal.D8 d
  | _ => Decimal.D9 d
  end%N.

(** The longest run of digits at the head of [s], and what follows it. *)
Fixpoint read_digits (s : string) : Decimal.uint * string :=
  match s with
  | EmptyString => (Decimal.Nil, EmptyString)
  | String c r =>
      if is_digit c
      then let '(d, r') := read_digits r in (digit_cons c d, r')
      else (Decimal.Nil, s)
  end.

(** ** [json.dumps] *)

Definition hex_digit (n : N) : ascii :=
  if (n <? 10)%N then chr (48 + n) else chr (87 + n).

(** One character of a string literal, with [ensure_ascii] on: the quote,
    the backslash and the five short escapes, [\u00xx] for every other
    character outside the printable ASCII range. *)
Definition escape_char (c : ascii) : string :=
  if Ascii.eqb c dquote then String backslash (str1 dquote)
  else if Ascii.eqb c backslash then String backslash (str1 backslash)
  else if Ascii.eqb c LF then String backslash "n"
  else if Ascii.eqb c CR then String backslash "r"
  else if Ascii.eqb c TAB then String backslash "t"
  else if Ascii.eqb c BS then String backslash "b"
  else if Ascii.eqb c FF then String backslash "f"
  else if ((ord c <? 32) || (126 <? ord c))%N then
    String backslash
      (String "u" (String "0" (String "0"
         (String (hex_digit (ord c / 16)) (str1 (hex_digit (ord c mod 16)))))))
  else str1 c.

Fixpoint escape_str (s : string) : string :=
  match s with
  | EmptyString => EmptyString
  | String c s' => escape_char c ++ escape_str s'
  end.

Definition dumps_str (s : string) : string :=
  String dquote (escape_str s ++ str1 dquote).

(** [json.dumps(v)] with the default separators [", "] and [": "]. *)
Fixpoint json_dumps (v : json) : string :=
  match v with
  | JNull => "null"
  | JBool true => "true"
  | JBool false => "false"
  | JNum n => str_of_Z n
  | JStr s => dumps_str s
  | JArr l =>
      "[" ++
      (fix items (l : list json) : string :=
         match l with
         | [] => EmptyString
         | x :: r =>
             json_dumps x ++
             match r with [] => EmptyString | _ => ", " ++ items r end
         end) l ++ "]"
  | JObj d =>
      "{" ++
      (fix members (d : list (string * json)) : string :=
         match d with
         | [] => EmptyString
         | (k, x) :: r =>
             dumps_str k ++ ": " ++ json_dumps x ++
             match r with [] => EmptyString | _ => ", " ++ members r end
         end) d ++ "}"
  end.

(** ** [json.loads] *)

Definition is_ws (c : ascii) : bool :=
  Ascii.eqb c " " || Ascii.eqb c TAB || Ascii.eqb c LF || Ascii.eqb c CR.

Fixpoint skip_ws (s : string) : string :=
  match s with
  | EmptyString => EmptyString
  | String c r => if is_ws c then skip_ws r else s
  end.

Definition hex_val (c : ascii) : option N :=
  let n := ord c in
  if ((48 <=? n) && (n <=? 57))%N then Some (n - 48)%N
  else if ((97 <=? n) && (n <=? 102))%N then Some (n - 87)%N
  else if ((65 <=? n) && (n <=? 70))%N then Some (n - 55)%N
  else None.

Definition hex4 (a b c d : ascii) : option N :=
  match hex_val a, hex_val b, hex_val c, hex_val d with
  | Some x, Some y, Some z, Some w =>
      Some (((x * 16 + y) * 16 + z) * 16 + w)%N
  | _, _, _, _ => None
  end.

Definition unescape (c : ascii) : option ascii :=
  if Ascii.eqb c dquote then Some dquote
  else if Ascii.eqb c backslash then Some backslash
  else if Ascii.eqb c "/" then Some "/"%char
  else if Ascii.eqb c "n" then Some LF
  else if Ascii.eqb c "r" then Some CR
  else if Ascii.eqb c "t" then Some TAB
  else if Ascii.eqb c "b" then Some BS
  else if Ascii.eqb c "f" then Some FF
  else None.

Definition cons_char (c : ascii) (r : option (string * string))
  : option (string * string) :=
  match r with
  | Some (x, rest) => Some (String c x, rest)
  | None => None
  end.

(** The body of a string literal, read after its opening quote: the
    decoded text and the input after the closing quote.  Raw control
    characters are refused (strict mode); a [\u] escape of a code point
    above 255 is outside the model. *)
Fixpoint scan_string (s : string) : option (string * string) :=
  match s with
  | EmptyString => None
  | String c r =>
      if Ascii.eqb c dquote then Some (EmptyString, r)
      else if Ascii.eqb c backslash then
        match r with
        | EmptyString => None
        | String e r' =>
            if Ascii.eqb e "u" then
              match r' with
              | String h1 (String h2 (String h3 (String h4 r''))) =>
                  match hex4 h1 h2 h3 h4 with
                  | Some n =>
                      if (n <? 256)%N then cons_char (chr n) (scan_string r'')
                      else None
                  | None => None
                  end
              | _ => None
              end
            else
              match unescape e with
              | Some x => cons_char x (scan_string r')
              | None => None
              end
        end
      else if (ord c <? 32)%N then None
      else cons_char c (scan_string r)
  end.

Definition starts_with (c : ascii) (s : string) : option string :=
  match s with
  | String c' r => if Ascii.eqb c c' then Some r else None
  | EmptyString => None
  end.

Definition starts_float (s : string) : bool :=
  match s with
  | String c _ => Ascii.eqb c "." || Ascii.eqb c "e" || Ascii.eqb c "E"
  | EmptyString => false
  end.

(** An unsigned integer literal: a lone [0], or a digit run that does not
    start with [0]. *)
Definition scan_nat (s : string) : option (N * string) :=
  match s with
  | String c r =>
      if Ascii.eqb c "0" then Some (0%N, r)
      else if is_digit c then
        let '(d, r') := read_digits s in Some (N.of_uint d, r')
      else None
  | EmptyString => None
  end.

(** A number.  A fraction or an exponent would make it a [float]. *)
Definition scan_number (s : string) : option (json * string) :=
  let '(neg, s') :=
    match starts_with "-" s with
    | Some r => (true, r)
    | None => (false, s)
    end in
  match scan_nat s' with
  | Some (n, rest) =>
      if starts_float rest then None
      else Some (JNum (if neg then (- Z.of_N n)%Z else Z.of_N n), rest)
  | None => None
  end.

Fixpoint drop (n : nat) (s : string) : string :=
  match n, s with
  | S n', String _ r => drop n' r
  | _, _ => s
  end.

(** The scanner.  As in the decoder of the library, a value starts at the
    first character of the input: white space is skipped by the array and
    object loops and by [json_loads], not by the value scanner. *)
Fixpoint scan_once (fuel : nat) (s : string) : option (json * string) :=
  match fuel with
  | O => None
  | S f =>
      match s with
      | EmptyString => None
      | String c r =>
          if Ascii.eqb c dquote then
            match scan_string r with
            | Some (x, rest) => Some (JStr x, rest)
            | None => None
            end
          else if Ascii.eqb c "[" then
            match starts_with "]" (skip_ws r) with
            | Some rest => Some (JArr [], rest)
            | None => scan_items f (skip_ws r) []
            end
          else if Ascii.eqb c "{" then
            match starts_with "}" (skip_ws r) with
            | Some rest => Some (JObj [], rest)
            | None => scan_members f (skip_ws r) []
            end
          else if startswith "null" s then Some (JNull, drop 4 s)
          else if startswith "true" s then Some (JBool true, drop 4 s)
          else if startswith "false" s then Some (JBool false, drop 5 s)
          else scan_number s
      end
  end

with scan_items (fuel : nat) (s : string) (acc : list json)
  : option (json * string) :=
  match fuel with
  | O => None
  | S f =>
      match scan_once f s with
      | Some (v, rest) =>
          match starts_with "]" (skip_ws rest) with
          | Some rest' => Some (JArr (List.rev (v :: acc)), rest')
          | None =>
              match starts_with "," (skip_ws rest) with
              | Some rest' => scan_items f (skip_ws rest') (v :: acc)
              | None => None
              end
          end
      | None => None
      end
  end

with scan_members (fuel : nat) (s : string) (acc : list (string * json))
  : option (json * string) :=
  match fuel with
  | O => None
  | S f =>
      match starts_with dquote s with
      | Some r =>
          match scan_string r with
          | Some (k, rest) =>
              match starts_with ":" (skip_ws rest) with
              | Some rest1 =>
                  match scan_once f (skip_ws rest1) with
                  | Some (v, rest2) =>
                      match starts_with "}" (skip_ws rest2) with
                      | Some rest3 =>
                          Some (JObj (dict_of_pairs (List.rev ((k, v) :: acc))),
                                rest3)
                      | None =>
                          match starts_with "," (skip_ws rest2) with
                          | Some rest3 =>
                              scan_members f (skip_ws rest3) ((k, v) :: acc)
                          | None => None
                          end
                      end
                  | None => None
                  end
              | None => None
              end
          | None => None
          end
      | None => None
      end
  end.

(** [json.loads(s)] for a [str]: one value, white space around it, and
    nothing else.  [None] stands for [JSONDecodeError]. *)
Definition json_loads (s : string) : option json :=
  match scan_once (2 * String.length s + 1) (skip_ws s) with
  | Some (v, rest) =>
      match skip_ws rest with
      | EmptyString => Some v
      | _ => None
      end
  | None => None
  end.

(** [json.loads(b)] for a [bytes]: the text is UTF-8. *)
Definition json_loads_bytes (b : bytes) : option json :=
  match decode_utf8 b with
  | Some s => json_loads s
  | None => None
  end.

(** ** [base64] *)

Definition PAD : byte := byte_of_N 61.

(** The standard alphabet: [A-Z], [a-z], [0-9], [+] and [/]. *)
Definition b64_char (n : N) : byte :=
  if (n <? 26)%N then byte_of_N (65 + n)
  else if (n <? 52)%N then byte_of_N (71 + n)
  else if (n <? 62)%N then byte_of_N (n - 4)
  else if (n =? 62)%N then byte_of_N 43
  else byte_of_N 47.

(** The decoding table of [binascii]: the value of an alphabet
    character, [None] for every other byte. *)
Definition b64_value (ch : byte) : option N :=
  let n := Byte.to_N ch in
  if ((65 <=? n) && (n <=? 90))%N then Some (n - 65)%N
  else if ((97 <=? n) && (n <=? 122))%N then Some (n - 71)%N
  else if ((48 <=? n) && (n <=? 57))%N then Some (n + 4)%N
  else if (n =? 43)%N then Some 62%N
  else if (n =? 47)%N then Some 63%N
  else None.

(** [binascii.b2a_base64(b, newline=False)] *)
Fixpoint b64encode (b : bytes) : bytes :=
  match b with
  | [] => []
  | [x] =>
      let x := Byte.to_N x in
      [b64_char (x / 4); b64_char (x mod 4 * 16); PAD; PAD]
  | [x; y] =>
      let x := Byte.to_N x in
      let y := Byte.to_N y in
      [b64_char (x / 4); b64_char (x mod 4 * 16 + y / 16);
       b64_char (y mod 16 * 4); PAD]
  | x :: y :: z :: rest =>
      let x := Byte.to_N x in
      let y := Byte.to_N y in
      let z := Byte.to_N z in
      b64_char (x / 4) :: b64_char (x mod 4 * 16 + y / 16)
      :: b64_char (y mod 16 * 4 + z / 64) :: b64_char (z mod 64)
      :: b64encode rest
  end%N.

Definition rcons {A} (a : A) (r : result (list A)) : result (list A) :=
  match r with
  | Ok l => Ok (a :: l)
  | Raise e => Raise e
  end.

(** [binascii.a2b_base64(b)] in its default, lenient mode.  A byte outside
    the alphabet is skipped; a pad character ends the input once it
    completes a group; data that stops inside a group is an error.
    [quad_pos] is the position in the current group of four characters,
    [leftchar] the bits that are left over from the previous character,
    [pads] the number of pad characters seen since the last data
    character. *)
Fixpoint a2b_base64 (input : bytes) (quad_pos leftchar pads : N)
  : result bytes :=
  match input with
  | [] => if (quad_pos =? 0)%N then Ok [] else Raise BinasciiError
  | ch :: rest =>
      if Byte.eqb ch PAD then
        if (2 <=? quad_pos)%N then
          if (4 <=? quad_pos + (pads + 1))%N then Ok []
          else a2b_base64 rest quad_pos leftchar (pads + 1)%N
        else a2b_base64 rest quad_pos leftchar pads
      else
        match b64_value ch with
        | None => a2b_base64 rest quad_pos leftchar pads
        | Some v =>
            if (quad_pos =? 0)%N then a2b_base64 rest 1 v 0
            else if (quad_pos =? 1)%N then
              rcons (byte_of_N (leftchar * 4 + v / 16))
                    (a2b_base64 rest 2 (v mod 16) 0)
            else if (quad_pos =? 2)%N then
              rcons (byte_of_N (leftchar * 16 + v / 4))
                    (a2b_base64 rest 3 (v mod 4) 0)
            else
              rcons (byte_of_N (leftchar * 64 + v))
                    (a2b_base64 rest 0 0 0)
        end
  end%N.

Definition b64decode (b : bytes) : result bytes := a2b_base64 b 0 0 0.

(** The two translation tables of the URL-safe variant. *)
Definition urlsafe_encode_translation (ch : byte) : byte :=
  if (Byte.to_N ch =? 43)%N then byte_of_N 45
  else if (Byte.to_N ch =? 47)%N then byte_of_N 95
  else ch.

Definition urlsafe_decode_translation (ch : byte) : byte :=
  if (Byte.to_N ch =? 45)%N then byte_of_N 43
  else if (Byte.to_N ch =? 95)%N then byte_of_N 47
  else ch.

(** [base64.urlsafe_b64encode(b)] *)
Definition urlsafe_b64encode (b : bytes) : bytes :=
  map urlsafe_encode_translation (b64encode b).

(** [base64.urlsafe_b64decode(b)] for a [bytes] argument *)
Definition urlsafe_b64decode (b : bytes) : result bytes :=
  b64decode (map urlsafe_decode_translation b).

(** [base64.urlsafe_b64decode(s)] for a [str] argument, which has to be
    ASCII. *)
Definition urlsafe_b64decode_str (s : string) : result bytes :=
  match encode_ascii s with
  | Ok b => urlsafe_b64decode b
  | Raise _ =>
      Raise (ValueError "string argument should contain only ASCII characters")
  end.

(** [b.decode()] *)
Definition bytes_decode (b : bytes) : result string :=
  match decode_utf8 b with
  | Some s => Ok s
  | None => Raise UnicodeDecodeError
  end.

(** ** Well-formed values

    A [dict] has no two equal keys.  [wf_json] says so for every
    dictionary inside a value; the values [json_loads] returns and the
    ones the handlers build are of this kind. *)

Fixpoint has_key (k : string) (d : dict) : bool :=
  match d with
  | [] => false
  | (k', _) :: d' => String.eqb k k' || has_key k d'
  end.

Fixpoint unique_keys (d : dict) : bool :=
  match d with
  | [] => true
  | (k, _) :: d' => negb (has_key k d') && unique_keys d'
  end.

Fixpoint wf_json (v : json) : bool :=
  match v with
  | JArr l => forallb wf_json l
  | JObj d => unique_keys d && forallb (fun kv => wf_json (snd kv)) d
  | _ => true
  end.

(** The two loops of [json_dumps] as functions of their own. *)
Fixpoint dumps_items (l : list json) : string :=
  match l with
  | [] => EmptyString
  | x :: r =>
      json_dumps x ++
      match r with [] => EmptyString | _ => ", " ++ dumps_items r end
  end.

Fixpoint dumps_members (d : dict) : string :=
  match d with
  | [] => EmptyString
  | (k, x) :: r =>
      dumps_str k ++ ": " ++ json_dumps x ++
      match r with [] => EmptyString | _ => ", " ++ dumps_members r end
  end.

(** A bound on the fuel the scanner needs for the text of a value. *)
Fixpoint jsize (v : json) : nat :=
  match v with
  | JArr l => S (fold_right (fun x n => S (jsize x + n)) 0 l)
  | JObj d => S (fold_right (fun kv n => S (jsize (snd kv) + n)) 0 d)
  | _ => 1
  end.

(** What may follow a number: anything but a digit, a fraction or an
    exponent. *)
Definition number_end (s : string) : bool :=
  match s with
  | EmptyString => true
  | String c _ => negb (is_digit c) && negb (starts_float s)
  end.

(** The first character of the text of a value. *)
Definition value_start (c : ascii) : bool :=
  Ascii.eqb c dquote || Ascii.eqb c "[" || Ascii.eqb c "{" ||
  Ascii.eqb c "n" || Ascii.eqb c "t" || Ascii.eqb c "f" ||
  Ascii.eqb c "-" || is_digit c.

(** * [deliverer]: the queue payload model *)

Module Deliverer.

(** [class Service(BaseModel)] *)
Record Service : Type := { url : string }.

(** [class OutboundPayload(KafkaQueuePayload)].  [_endpoint_scheme] is the
    private attribute; it is not a field of the model, so it is neither
    validated nor written by [json()]. *)
Record OutboundPayload : Type := {
  service : Service;
  payload : bytes;
  retries : Z;
  _endpoint_scheme : string
}.

(** [endpoint_scheme], the read-only property *)
Definition endpoint_scheme (p : OutboundPayload) : string :=
  _endpoint_scheme p.

(** The scheme rule of [urllib.parse.urlsplit], for samples: the text
    before the first colon, in lower case, when it starts with a letter
    and holds letters, digits, [+], [-] and [.] only; no scheme
    otherwise. *)
Definition is_alpha (c : ascii) : bool :=
  (((65 <=? ord c) && (ord c <=? 90)) || ((97 <=? ord c) && (ord c <=? 122)))%N.

Definition scheme_char (c : ascii) : bool :=
  is_alpha c || is_digit c
  || Ascii.eqb c "+" || Ascii.eqb c "-" || Ascii.eqb c ".".

Definition lower_char (c : ascii) : ascii :=
  if ((65 <=? ord c) && (ord c <=? 90))%N then chr (ord c + 32) else c.

Fixpoint scheme_prefix (s : string) : option string :=
  match s with
  | EmptyString => None
  | String c r =>
      if Ascii.eqb c ":" then Some EmptyString
      else if scheme_char c then
        match scheme_prefix r with
        | Some p => Some (String (lower_char c) p)
        | None => None
        end
      else None
  end.

Definition urlsplit_scheme (u : string) : result string :=
  match u with
  | String c _ =>
      if is_alpha c then
        match scheme_prefix u with
        | Some p => Ok p
        | None => Ok EmptyString
        end
      else Ok EmptyString
  | EmptyString => Ok EmptyString
  end.

Section Model.

(** [urlparse(url).scheme].  The standard library function is a parameter
    of the model: it returns a scheme or raises. *)
Variable urlparse_scheme : string -> result string.

(** pydantic's check of a [str] field and of an [int] field.  pydantic
    also converts some values of another type (a number given for a
    [str], a numeral string given for an [int]); those conversions are
    outside the model, which refuses such a value. *)
Definition validate_str (v : json) : result string :=
  match v with
  | JStr s => Ok s
  | _ => Raise TypeError
  end.

Definition validate_int (v : json) : result Z :=
  match v with
  | JNum n => Ok n
  | _ => Raise TypeError
  end.

(** The constructor of [Service], called with the keys of [d] *)
Definition Service_init (d : dict) : result Service :=
  match dict_get "url" d with
  | Some v =>
      match validate_str v with
      | Ok u => Ok {| url := u |}
      | Raise _ => Raise (ValidationError "url")
      end
  | None => Raise (ValidationError "url")
  end.

Definition validate_service (v : json) : result Service :=
  match v with
  | JObj d => Service_init d
  | _ => Raise TypeError
  end.

(** The [pre] validator of [payload]:
    [assert isinstance(v, str); return base64.urlsafe_b64decode(v)] *)
Definition decode_payload_to_bytes (v : json) : result bytes :=
  match v with
  | JStr s => urlsafe_b64decode_str s
  | _ => Raise AssertionError
  end.

(** One required field: the validator runs on the value that was given,
    and any failure is recorded under the name of the field. *)
Definition required {A} (name : string) (check : json -> result A) (d : dict)
  : result A :=
  match dict_get name d with
  | Some v =>
      match check v with
      | Ok a => Ok a
      | Raise _ => Raise (ValidationError name)
      end
  | None => Raise (ValidationError name)
  end.

(** A field with a default *)
Definition optional {A} (name : string) (check : json -> result A) (default : A)
  (d : dict) : result A :=
  match dict_get name d with
  | Some v =>
      match check v with
      | Ok a => Ok a
      | Raise _ => Raise (ValidationError name)
      end
  | None => Ok default
  end.

(** The constructor of [OutboundPayload], called with the keys of
    [data]: the fields are validated in the order of
    their declaration (keys that name no field are ignored), then
    [__init__] derives the scheme from [service.url]. *)
Definition OutboundPayload_init (data : dict) : result OutboundPayload :=
  match required "service" validate_service data,
        required "payload" decode_payload_to_bytes data,
        optional "retries" validate_int 0%Z data with
  | Ok s, Ok p, Ok r =>
      match urlparse_scheme (url s) with
      | Ok scheme =>
          Ok {| service := s; payload := p; retries := r;
                _endpoint_scheme := scheme |}
      | Raise e => Raise e
      end
  | Raise e, _, _ => Raise e
  | _, Raise e, _ => Raise e
  | _, _, Raise e => Raise e
  end.

(** [KafkaQueuePayload.from_bytes]:
    [payload = json.loads(value.decode("utf8"))], then the constructor
    with the keys of [payload] *)
Definition from_bytes (value : bytes) : result OutboundPayload :=
  match bytes_decode value with
  | Ok text =>
      match json_loads text with
      | Some (JObj data) => OutboundPayload_init data
      | Some _ => Raise TypeError
      | None => Raise JSONDecodeError
      end
  | Raise e => Raise e
  end.

(** The encoder of [Config.json_encoders] for [bytes]:
    [lambda v: base64.urlsafe_b64encode(v).decode()] *)
Definition encode_bytes_field (v : bytes) : result string :=
  bytes_decode (urlsafe_b64encode v).

(** [self.json()]: the fields in the order of their declaration, the
    nested model as an object, the [bytes] field through its encoder. *)
Definition to_json (p : OutboundPayload) : result json :=
  match encode_bytes_field (payload p) with
  | Ok b64 =>
      Ok (JObj [("service", JObj [("url", JStr (url (service p)))]);
                ("payload", JStr b64);
                ("retries", JNum (retries p))])
  | Raise e => Raise e
  end.

(** [KafkaQueuePayload.to_bytes]:
    [return str.encode(self.json(), encoding="utf8")] *)
Definition to_bytes (p : OutboundPayload) : result bytes :=
  match to_json p with
  | Ok v => Ok (encode_utf8 (json_dumps v))
  | Raise e => Raise e
  end.

End Model.

End Deliverer.

(** The text of an ASCII byte string *)
Fixpoint ascii_text (b : bytes) : string :=
  match b with
  | [] => EmptyString
  | x :: b' => String (chr (Byte.to_N x)) (ascii_text b')
  end.

Definition is_ascii_bytes (b : bytes) : bool :=
  forallb (fun x => (Byte.to_N x <? 128)%N) b.

(** * The runtime around the handlers *)

(** ** [str()] and [repr()] of a value *)

Definition hex2 (n : N) : string :=
  String (hex_digit (n / 16)) (str1 (hex_digit (n mod 16))).

(** [c.isprintable()] for a code point below 256 *)
Definition is_printable (c : ascii) : bool :=
  let n := ord c in
  (((32 <=? n) && (n <? 127)) || ((161 <=? n) && negb (n =? 173)))%N.

Definition repr_char (quote c : ascii) : string :=
  if Ascii.eqb c quote || Ascii.eqb c backslash then String backslash (str1 c)
  else if Ascii.eqb c LF then String backslash "n"
  else if Ascii.eqb c CR then String backslash "r"
  else if Ascii.eqb c TAB then String backslash "t"
  else if is_printable c then str1 c
  else String backslash (String "x" (hex2 (ord c))).

Fixpoint repr_chars (quote : ascii) (s : string) : string :=
  match s with
  | EmptyString => EmptyString
  | String c s' => repr_char quote c ++ repr_chars quote s'
  end.

(** [repr(s)] for a [str]: single quotes, unless the text has a single
    quote and no double quote. *)
Definition repr_str (s : string) : string :=
  let quote :=
    if str_contains "'" s && negb (str_contains (str1 dquote) s)
    then dquote else "'"%char in
  String quote (repr_chars quote s ++ str1 quote).

(** [repr(v)] *)
Fixpoint py_repr (v : json) : string :=
  match v with
  | JNull => "None"
  | JBool true => "True"
  | JBool false => "False"
  | JNum n => str_of_Z n
  | JStr s => repr_str s
  | JArr l =>
      "[" ++
      (fix items (l : list json) : string :=
         match l with
         | [] => EmptyString
         | x :: r =>
             py_repr x ++
             match r with [] => EmptyString | _ => ", " ++ items r end
         end) l ++ "]"
  | JObj d =>
      "{" ++
      (fix members (d : list (string * json)) : string :=
         match d with
         | [] => EmptyString
         | (k, x) :: r =>
             repr_str k ++ ": " ++ py_repr x ++
             match r with [] => EmptyString | _ => ", " ++ members r end
         end) d ++ "}"
  end.

(** [str(v)]: a [str] is itself, every other value is its [repr]. *)
Definition py_str (v : json) : string :=
  match v with
  | JStr s => s
  | _ => py_repr v
  end.

(** ** [string.Template] *)

Definition id_start (c : ascii) : bool :=
  Ascii.eqb c "_" || Deliverer.is_alpha c.

Definition id_char (c : ascii) : bool := id_start c || is_digit c.

(** Where the scan of a template stands: in plain text, right after a
    [$], inside a [$name], or inside a [${name}].  The name read so far is
    kept in reverse. *)
Inductive tstate : Type :=
| Plain
| Dollar
| Named (acc : list ascii)
| Braced (acc : list ascii).

Definition name_of (acc : list ascii) : string :=
  string_of_list (List.rev acc).

(** [str(mapping[name])] *)
Definition lookup_str (mapping : dict) (name : string) : result string :=
  match dict_get name mapping with
  | Some v => Ok (py_str v)
  | None => Raise (KeyError name)
  end.

Definition invalid_placeholder : pyexc :=
  ValueError "Invalid placeholder in string".

Definition radd (p : string) (r : result string) : result string :=
  match r with
  | Ok s => Ok (p ++ s)
  | Raise e => Raise e
  end.

(** [Template(template).substitute(mapping)].  The delimiter is [$]: [$$]
    is a dollar sign, [$name] and [${name}] are replaced by the value of
    [name], with [KeyError] when the mapping has no such key; any other
    use of [$] raises [ValueError]. *)
Fixpoint substitute_from (mapping : dict) (st : tstate) (s : string)
  : result string :=
  match s with
  | EmptyString =>
      match st with
      | Plain => Ok EmptyString
      | Named acc => lookup_str mapping (name_of acc)
      | Dollar | Braced _ => Raise invalid_placeholder
      end
  | String c r =>
      match st with
      | Plain =>
          if Ascii.eqb c "$" then substitute_from mapping Dollar r
          else radd (str1 c) (substitute_from mapping Plain r)
      | Dollar =>
          if Ascii.eqb c "$" then radd "$" (substitute_from mapping Plain r)
          else if id_start c then substitute_from mapping (Named [c]) r
          else if Ascii.eqb c "{" then substitute_from mapping (Braced []) r
          else Raise invalid_placeholder
      | Named acc =>
          if id_char c then substitute_from mapping (Named (c :: acc)) r
          else
            match lookup_str mapping (name_of acc) with
            | Ok v =>
                if Ascii.eqb c "$"
                then radd v (substitute_from mapping Dollar r)
                else radd (v ++ str1 c) (substitute_from mapping Plain r)
            | Raise e => Raise e
            end
      | Braced acc =>
          if Ascii.eqb c "}" then
            match acc with
            | [] => Raise invalid_placeholder
            | _ =>
                match lookup_str mapping (name_of acc) with
                | Ok v => radd v (substitute_from mapping Plain r)
                | Raise e => Raise e
                end
            end
          else if match acc with [] => id_start c | _ => id_char c end
          then substitute_from mapping (Braced (c :: acc)) r
          else Raise invalid_placeholder
      end
  end.

Definition Template_substitute (template : string) (mapping : dict)
  : result string :=
  substitute_from mapping Plain template.

(** ** The broker, the bus, the log and the object store *)

(** What a producer is asked to send: topic, value and optional key. *)
Record KafkaRecord : Type := {
  rec_topic : string;
  rec_value : bytes;
  rec_key : option bytes
}.

(** What a consumer delivers. *)
Record ConsumerRecord : Type := {
  msg_topic : string;
  msg_value : bytes
}.

Inductive loglevel : Type := DEBUG | INFO | ERROR.

(** The arguments a log line is formatted from. *)
Inductive logarg : Type :=
| LStr (s : string)
| LBytes (b : bytes)
| LInt (n : Z)
| LObj (v : json)
| LExc (e : pyexc).

Record LogEntry : Type := {
  log_level : loglevel;
  log_text : string;
  log_args : list logarg
}.

(** The state the handlers act on.  [heap] is the object store: an event
    holds a reference to its payload mapping, so that a handler which
    writes into the mapping is seen by every holder of the reference.
    [send_calls] records every call of [send_and_wait], [delivered] the
    records the broker has acknowledged, [bus] the notifications given to
    the event bus. *)
Record World : Type := {
  heap : nat -> json;
  send_calls : list KafkaRecord;
  delivered : list KafkaRecord;
  log : list LogEntry;
  bus : list (string * json)
}.

(** The behaviour of the broker, which the handlers do not control: for
    each operation of the client, the exception it raises, if any.  The
    answer may depend on the calls of [send_and_wait] made so far. *)
Record Broker : Type := {
  new_fault : dict -> option pyexc;
  start_fault : list KafkaRecord -> option pyexc;
  send_fault : list KafkaRecord -> KafkaRecord -> option pyexc;
  stop_fault : list KafkaRecord -> option pyexc
}.

(** A broker that acknowledges everything. *)
Definition healthy_broker : Broker :=
  {| new_fault := fun _ => None;
     start_fault := fun _ => None;
     send_fault := fun _ _ => None;
     stop_fault := fun _ => None |}.

(** A broker that refuses every record. *)
Definition failing_broker : Broker :=
  {| new_fault := fun _ => None;
     start_fault := fun _ => None;
     send_fault := fun _ _ => Some (BrokerError "KafkaTimeoutError");
     stop_fault := fun _ => None |}.

Definition empty_world : World :=
  {| heap := fun _ => JNull; send_calls := []; delivered := [];
     log := []; bus := [] |}.

(** Computations that read and write the world and may raise. *)
Definition M (A : Type) : Type := World -> result A * World.

Definition ret {A} (a : A) : M A := fun w => (Ok a, w).

Definition raise {A} (e : pyexc) : M A := fun w => (Raise e, w).

Definition bind {A B} (m : M A) (k : A -> M B) : M B :=
  fun w =>
    match m w with
    | (Ok a, w') => k a w'
    | (Raise e, w') => (Raise e, w')
    end.

Definition lift {A} (r : result A) : M A := fun w => (r, w).

(** [try: m except Exception as e: h(e)] *)
Definition try_except {A} (m : M A) (h : pyexc -> M A) : M A :=
  fun w =>
    match m w with
    | (Ok a, w') => (Ok a, w')
    | (Raise e, w') => h e w'
    end.

Declare Scope monad_scope.
Delimit Scope monad_scope with monad.
Notation "x <- m ;; k" := (bind m (fun x => k))
  (at level 61, m at next level, right associativity) : monad_scope.
Notation "m ;; k" := (bind m (fun _ => k))
  (at level 61, right associativity) : monad_scope.

Definition logger (lvl : loglevel) (text : string) (args : list logarg)
  : M unit :=
  fun w =>
    (Ok tt,
     {| heap := heap w; send_calls := send_calls w; delivered := delivered w;
        log := (log w ++ [{| log_level := lvl; log_text := text;
                             log_args := args |}])%list;
        bus := bus w |}).

(** [obj = heap[ref]] and [heap[ref] = obj] *)
Definition load (ref : nat) : M json := fun w => (Ok (heap w ref), w).

Definition store (ref : nat) (v : json) : M unit :=
  fun w =>
    (Ok tt,
     {| heap := fun r => if Nat.eqb r ref then v else heap w r;
        send_calls := send_calls w; delivered := delivered w;
        log := log w; bus := bus w |}).

(** [await producer.send_and_wait(topic, value, key=key)]: the call is
    recorded; the broker acknowledges the record or the call raises. *)
Definition send_and_wait (br : Broker) (r : KafkaRecord) : M unit :=
  fun w =>
    let called :=
      {| heap := heap w; send_calls := (send_calls w ++ [r])%list;
         delivered := delivered w; log := log w; bus := bus w |} in
    match send_fault br (send_calls w) r with
    | Some e => (Raise e, called)
    | None =>
        (Ok tt,
         {| heap := heap w; send_calls := send_calls called;
            delivered := (delivered w ++ [r])%list;
            log := log w; bus := bus w |})
    end.

(** [await bus.notify(topic, payload)] *)
Definition notify (topic : string) (payload : json) : M unit :=
  fun w =>
    (Ok tt,
     {| heap := heap w; send_calls := send_calls w; delivered := delivered w;
        log := log w; bus := (bus w ++ [(topic, payload)])%list |}).

(** [b[0]] *)
Definition bytes_first (b : bytes) : result Z :=
  match b with
  | x :: _ => Ok (Z.of_N (Byte.to_N x))
  | [] => Raise IndexError
  end.

(** The [wallet.id] setting and the plugin configuration of a profile,
    and whether a producer is bound in its injector. *)
Record EventsConfig : Type := {
  topic_maps : list (string * string);
  producer_conf : dict
}.

Record Settings : Type := {
  wallet_id : option string;
  events_config : option EventsConfig
}.

Record Profile : Type := {
  settings : Settings;
  producer_bound : bool
}.

(** * [http_kafka_relay.relay]: the HTTP to Kafka relay *)

Module Relay.

Definition DEFAULT_INBOUND_TOPIC : string := "acapy-inbound-message".

(** [INBOUND_TOPIC = os.environ.get("INBOUND_TOPIC", DEFAULT_INBOUND_TOPIC)];
    [env] is the value of the variable in the environment, if it is set. *)
Definition INBOUND_TOPIC (env : option string) : string :=
  match env with
  | Some t => t
  | None => DEFAULT_INBOUND_TOPIC
  end.

(** [Response(status_code=...)], with its empty body *)
Record Response : Type := {
  status_code : Z;
  body : bytes
}.

(** [b64_to_bytes(val, urlsafe)].  A [str] is encoded as ASCII; in the
    URL-safe case the bytes are padded with [=] to a multiple of four and
    decoded with the URL-safe alphabet.  Of the values an envelope can
    hold only a [str] can be encoded, measured and decoded: every other
    JSON value ends in a [TypeError]. *)
Definition b64_to_bytes (val : json) (urlsafe : bool) : result bytes :=
  match val with
  | JStr s =>
      match encode_ascii s with
      | Ok b =>
          if urlsafe then
            let missing_padding := Nat.modulo (List.length b) 4 in
            let b' :=
              if Nat.eqb missing_padding 0 then b
              else (b ++ repeat PAD (4 - missing_padding))%list in
            urlsafe_b64decode b'
          else b64decode b
      | Raise e => Raise e
      end
  | _ => Raise TypeError
  end.

(** [recip["header"]["kid"]] *)
Definition recipient_kid (recip : json) : result json :=
  match py_getitem recip "header" with
  | Ok header => py_getitem header "kid"
  | Raise e => Raise e
  end.

(** [_recipients_from_packed_message(packed_message)] *)
Definition _recipients_from_packed_message (packed_message : bytes)
  : result (list json) :=
  match json_loads_bytes packed_message with
  | None => Raise (ValueError "Invalid packed message")
  | Some wrapper =>
      match py_getitem wrapper "protected" with
      | Raise e => Raise e
      | Ok protected =>
          match b64_to_bytes protected true with
          | Raise e => Raise e
          | Ok raw =>
              match decode_ascii raw with
              | Raise e => Raise e
              | Ok recips_json =>
                  match json_loads recips_json with
                  | None => Raise (ValueError "Invalid packed message recipients")
                  | Some recips_outer =>
                      match py_getitem recips_outer "recipients" with
                      | Raise e => Raise e
                      | Ok recipients =>
                          match py_iter recipients with
                          | Raise e => Raise e
                          | Ok items => rmap recipient_kid items
                          end
                      end
                  end
              end
          end
      end
  end.

(** [",".join(kids).encode("utf8")]: every item has to be a [str]. *)
Definition join_recipients (kids : list json) : result bytes :=
  match rmap as_str kids with
  | Ok names => Ok (encode_utf8 (str_join "," names))
  | Raise e => Raise e
  end.

(** [receive_message(request, producer)], on the raw body of the request.
    The info line is an f-string, so [recips[0]] is evaluated before the
    logger is called and before anything is sent. *)
Definition receive_message (env : option string) (br : Broker)
  (message : bytes) : M Response :=
  (logger DEBUG "Received message, pushing to Kafka: %s" [LBytes message] ;;
   kids <- lift (_recipients_from_packed_message message) ;;
   recips <- lift (join_recipients kids) ;;
   first <- lift (bytes_first recips) ;;
   logger INFO "Sending Kafka event with topic: {}, message: {}, key: {}"
          [LStr (INBOUND_TOPIC env); LBytes message; LInt first] ;;
   send_and_wait br {| rec_topic := INBOUND_TOPIC env;
                       rec_value := message;
                       rec_key := Some recips |} ;;
   ret {| status_code := 200; body := [] |})%monad.

(** What the HTTP client sees: the response of the handler, or the
    server error the framework answers with when the handler raises. *)
Definition http_status (r : result Response) : Z :=
  match r with
  | Ok resp => status_code resp
  | Raise _ => 500%Z
  end.

End Relay.

(** [profile.inject(AIOKafkaProducer)] *)
Definition inject_producer (profile : Profile) : M unit :=
  if producer_bound profile then ret tt else raise InjectionError.

(** [profile.settings.get("wallet.id")] as a value: the identifier, or
    [None] when the setting is absent. *)
Definition wallet_setting (profile : Profile) : json :=
  match wallet_id (settings profile) with
  | Some w => JStr w
  | None => JNull
  end.

(** * [kafka_queue]: the fixed-pattern bridge *)

Module KafkaQueue.

(** An event of the bus: its topic and a reference to its payload. *)
Record Event : Type := {
  topic : string;
  payload : nat
}.

(** [INBOUND_PATTERN], the prefix [acapy-inbound-] followed by any
    characters, as the consumer applies it to a topic name: the pattern
    is matched at the start of the name, and what follows the prefix may
    be empty. *)
Definition INBOUND_PATTERN (t : string) : bool :=
  startswith "acapy-inbound-" t.

(** The records a consumer subscribed to [INBOUND_PATTERN] delivers, out
    of what the broker holds, in the order of delivery. *)
Definition subscribed (incoming : list ConsumerRecord) : list ConsumerRecord :=
  filter (fun msg => INBOUND_PATTERN (msg_topic msg)) incoming.

(** [json.loads(msg.value)] *)
Definition loads_value (value : bytes) : result json :=
  match json_loads_bytes value with
  | Some v => Ok v
  | None => Raise JSONDecodeError
  end.

(** The loop of [consume], on the records the consumer delivers:
[[
      async for msg in consumer:
        topic = str(msg.topic).replace("-", "::")
        await bus.notify(topic, json.loads(msg.value))
]] *)
Fixpoint consume (msgs : list ConsumerRecord) : M unit :=
  match msgs with
  | [] => ret tt
  | msg :: rest =>
      let topic := str_replace "-" "::" (msg_topic msg) in
      (value <- lift (loads_value (msg_value msg)) ;;
       notify topic value ;;
       consume rest)%monad
  end.

(** [handle_event(profile, event)] *)
Definition handle_event (br : Broker) (profile : Profile) (event : Event)
  : M unit :=
  (inject_producer profile ;;
   logger INFO "Handling Kafka producer event: %s" [LStr (topic event)] ;;
   let topic := str_replace "::" "-" (topic event) in
   obj <- load (payload event) ;;
   obj' <- lift (py_setitem obj "wallet_id" (wallet_setting profile)) ;;
   store (payload event) obj' ;;
   try_except
     (logger INFO "Sending message {} with Kafka topic {}"
             [LObj obj'; LStr topic] ;;
      send_and_wait br {| rec_topic := topic;
                          rec_value := encode_utf8 (json_dumps obj');
                          rec_key := None |})
     (fun exc =>
        logger ERROR "Kafka producer failed sending a message due to: {}"
               [LExc exc]))%monad.

End KafkaQueue.

(** * [kafka_queue.events]: the configurable bridge *)

Module Events.

(** An event with the metadata of the subscription that matched:
    [pattern] is [event.metadata.pattern.pattern], the source text of the
    regular expression. *)
Record EventWithMetadata : Type := {
  topic : string;
  payload : nat;
  pattern : string
}.

(** Modelled from the spec: [EventsConfig.default()] of the [config]
    module, which is not part of the sources; an empty topic map and a
    baseline producer configuration. *)
Definition EventsConfig_default : EventsConfig :=
  {| topic_maps := [];
     producer_conf := [("bootstrap_servers", JStr "kafka")] |}.

(** Modelled from the spec: [get_config(settings).events] of the [config]
    module; the events section of the plugin settings, when there is
    one. *)
Definition get_config_events (s : Settings) : option EventsConfig :=
  events_config s.

(** The longest prefix without a colon: what [[^:]*] matches. *)
Fixpoint no_colon_prefix (s : string) : string :=
  match s with
  | EmptyString => EmptyString
  | String c r =>
      if Ascii.eqb c ":" then EmptyString else String c (no_colon_prefix r)
  end.

(** [RECORD_RE.match(topic)].  The expression is the prefix
    [acapy::record::], then group 1, the longest run of characters other
    than a colon, then an optional group: [::] and the rest of the line.
    The match is at the start of the topic and nothing anchors its end,
    so it succeeds as soon as the prefix is there; the result is
    group 1. *)
Definition RECORD_RE (t : string) : option string :=
  if startswith "acapy::record::" t
  then Some (no_colon_prefix (drop 15 t))
  else None.

(** Whether a closing brace comes before the end of the line: what [.*}]
    can match. *)
Fixpoint brace_on_line (s : string) : bool :=
  match s with
  | EmptyString => false
  | String c r =>
      if Ascii.eqb c "}" then true
      else if Ascii.eqb c LF then false
      else brace_on_line r
  end.

(** [WEBHOOK_RE.match(topic)].  The expression is the prefix
    [acapy::webhook::{], any characters of the line, and a closing
    brace. *)
Definition WEBHOOK_RE (t : string) : bool :=
  startswith "acapy::webhook::{" t && brace_on_line (drop 17 t).

(** [_derive_category(topic)]; the function returns [None] when neither
    expression matches. *)
Definition _derive_category (t : string) : json :=
  match RECORD_RE t with
  | Some name => JStr name
  | None => if WEBHOOK_RE t then JStr "webhook" else JNull
  end.

(** [wallet_id or "base"] *)
Definition wallet_or_base (w : option string) : string :=
  match w with
  | Some EmptyString | None => "base"
  | Some w => w
  end.

(** [wallet_id.encode() if wallet_id else None] *)
Definition wallet_key (w : option string) : option bytes :=
  match w with
  | Some EmptyString | None => None
  | Some w => Some (encode_utf8 w)
  end.

(** The payload object of [handle_event] *)
Definition build_payload (w : option string) (t : string) (state obj : json)
  : dict :=
  [("wallet_id", JStr (wallet_or_base w));
   ("state", state);
   ("topic", JStr t);
   ("category", _derive_category t);
   ("payload", obj)].

(** [config.topic_maps[key]] *)
Fixpoint topic_maps_get (key : string) (m : list (string * string))
  : result string :=
  match m with
  | [] => Raise (KeyError key)
  | (k, v) :: m' => if String.eqb key k then Ok v else topic_maps_get key m'
  end.

(** [async with AIOKafkaProducer(...) as producer: body], the producer
    being built from the settings [conf]: the producer
    is built and started, the body runs, and the producer is stopped
    whether the body raised or not. *)
Definition with_producer {A} (br : Broker) (conf : dict) (body : M A) : M A :=
  fun w =>
    match new_fault br conf with
    | Some e => (Raise e, w)
    | None =>
        match start_fault br (send_calls w) with
        | Some e => (Raise e, w)
        | None =>
            let '(r, w') := body w in
            match stop_fault br (send_calls w') with
            | Some e => (Raise e, w')
            | None => (r, w')
            end
        end
    end.

(** [handle_event(profile, event)] *)
Definition handle_event (br : Broker) (profile : Profile)
  (event : EventWithMetadata) : M unit :=
  (logger INFO "Handling Kafka producer event: %s" [LStr (topic event)] ;;
   let wallet := wallet_id (settings profile) in
   obj <- load (payload event) ;;
   state <- lift (py_get obj "state") ;;
   let payload := build_payload wallet (topic event) state obj in
   let config :=
     match get_config_events (settings profile) with
     | Some c => c
     | None => EventsConfig_default
     end in
   try_except
     (template <- lift (topic_maps_get (pattern event) (topic_maps config)) ;;
      kafka_topic <- lift (Template_substitute template payload) ;;
      logger INFO "Sending message {} with Kafka topic {}"
             [LObj (JObj payload); LStr kafka_topic] ;;
      with_producer br (producer_conf config)
        (send_and_wait br {| rec_topic := kafka_topic;
                             rec_value := encode_utf8 (json_dumps (JObj payload));
                             rec_key := wallet_key wallet |}))
     (fun exc =>
        logger ERROR "Kafka producer failed to send message" [LExc exc]))%monad.

End Events.

(** * Auxiliary definitions and samples *)

Definition scans_back (v : json) : Prop :=
  wf_json v = true ->
  forall fuel rest,
    jsize v <= fuel -> number_end rest = true ->
    scan_once fuel (json_dumps v ++ rest) = Some (v, rest).

Definition sample_outbound : dict :=
  [("service", JObj [("url", JStr "https://example.org/ep")]);
   ("payload", JStr "aGVsbG8_Pz4-");
   ("retries", JNum 2)].

(** The payload the fixed-pattern handler publishes for a mapping [d]. *)
Definition fixed_payload (profile : Profile) (d : dict) : json :=
  JObj (dict_set "wallet_id" (wallet_setting profile) d).

(** The record it asks the producer to send. *)
Definition fixed_record (profile : Profile) (event : KafkaQueue.Event)
  (d : dict) : KafkaRecord :=
  {| rec_topic := str_replace "::" "-" (KafkaQueue.topic event);
     rec_value := encode_utf8 (json_dumps (fixed_payload profile d));
     rec_key := None |}.

Definition sample_profile : Profile :=
  {| settings := {| wallet_id := Some "wallet-1"; events_config := None |};
     producer_bound := true |}.

Definition sample_fixed_event : KafkaQueue.Event :=
  {| KafkaQueue.topic := "acapy::record::present_proof::presentation_received";
     KafkaQueue.payload := 0 |}.

Definition sample_world : World :=
  {| heap := fun ref =>
       match ref with
       | 0 => JObj [("state", JStr "presentation_received")]
       | _ => JNull
       end;
     send_calls := []; delivered := []; log := []; bus := [] |}.

(** The topic and the payload of the notification [consume] gives to the
    bus for a record whose value reads as [v]. *)
Definition reinjected (msg : ConsumerRecord) (v : json) : string * json :=
  (str_replace "-" "::" (msg_topic msg), v).

(** [event.payload.get("state")] for a mapping [d] *)
Definition state_of (d : dict) : json :=
  match dict_get "state" d with
  | Some x => x
  | None => JNull
  end.

(** The configuration the configurable handler works with. *)
Definition events_config_of (profile : Profile) : EventsConfig :=
  match Events.get_config_events (settings profile) with
  | Some c => c
  | None => Events.EventsConfig_default
  end.

(** The payload object the configurable handler builds for an event whose
    payload is the mapping [d]. *)
Definition events_payload (profile : Profile) (event : Events.EventWithMetadata)
  (d : dict) : dict :=
  Events.build_payload (wallet_id (settings profile)) (Events.topic event)
                       (state_of d) (JObj d).

(** The record it asks the producer to send once the template has been
    rendered to [kafka_topic]. *)
Definition events_record (profile : Profile) (event : Events.EventWithMetadata)
  (d : dict) (kafka_topic : string) : KafkaRecord :=
  {| rec_topic := kafka_topic;
     rec_value := encode_utf8 (json_dumps (JObj (events_payload profile event d)));
     rec_key := Events.wallet_key (wallet_id (settings profile)) |}.

(** The last line of the log is an error line that carries [e]. *)
Definition logged_error (e : pyexc) (w : World) : Prop :=
  exists pre text,
    log w = (pre ++ [{| log_level := ERROR; log_text := text;
                        log_args := [LExc e] |}])%list.

Definition sample_records : list ConsumerRecord :=
  [{| msg_topic := "acapy-inbound-message";
      msg_value := encode_utf8 (q "{'@type': 'ping', 'n': 1}") |};
   {| msg_topic := "other-topic"; msg_value := encode_utf8 "ignored" |};
   {| msg_topic := "acapy-inbound-message";
      msg_value := encode_utf8 (q "[2]") |}].

Definition sample_maps : list (string * string) :=
  [("acapy::record::connections::active", "${category}-${state}")].

Definition sample_events_profile (w : option string) : Profile :=
  {| settings :=
       {| wallet_id := w;
          events_config :=
            Some {| topic_maps := sample_maps;
                    producer_conf := [("bootstrap_servers", JStr "kafka")] |} |};
     producer_bound := false |}.

Definition sample_events_event : Events.EventWithMetadata :=
  {| Events.topic := "acapy::record::connections::active";
     Events.payload := 0;
     Events.pattern := "acapy::record::connections::active" |}.

Definition unmapped_event : Events.EventWithMetadata :=
  {| Events.topic := "acapy::record::connections::active";
     Events.payload := 0;
     Events.pattern := "acapy::record::credentials::.*" |}.

Definition world_with (obj : json) : World :=
  {| heap := fun ref => match ref with 0 => obj | _ => JNull end;
     send_calls := []; delivered := []; log := []; bus := [] |}.

(** [body] is a packed message whose envelope gives [recipients]: the
    body is JSON with a [protected] field, the field decodes, after the
    padding has been restored, to ASCII text, and the text is JSON with a
    [recipients] field. *)
Definition packed (body : bytes) (recipients : json) : Prop :=
  exists wrapper protected raw text outer,
    json_loads_bytes body = Some wrapper /\
    py_getitem wrapper "protected" = Ok protected /\
    Relay.b64_to_bytes protected true = Ok raw /\
    decode_ascii raw = Ok text /\
    json_loads text = Some outer /\
    py_getitem outer "recipients" = Ok recipients.

(** The record the relay publishes for a body and a list of key
    identifiers. *)
Definition relay_record (env : option string) (body : bytes)
  (kids : list string) : KafkaRecord :=
  {| rec_topic := Relay.INBOUND_TOPIC env;
     rec_value := body;
     rec_key := Some (encode_utf8 (str_join "," kids)) |}.

(** Sample bodies.  The [protected] field of each is the unpadded
    URL-safe base64 text of the JSON given in its comment. *)

(** [{"recipients":[{"header":{"kid":"A"}},{"header":{"kid":"B"}}]}] *)
Definition body_two_recipients : bytes :=
  encode_utf8 (q "{'protected': 'eyJyZWNpcGllbnRzIjpbeyJoZWFkZXIiOnsia2lkIjoiQSJ9fSx7ImhlYWRlciI6eyJraWQiOiJCIn19XX0', 'iv': 'x'}").

(** [{"recipients":[{"header":{"kid":"did:key:abc"}}]}] *)
Definition body_one_recipient : bytes :=
  encode_utf8 (q "{'protected': 'eyJyZWNpcGllbnRzIjpbeyJoZWFkZXIiOnsia2lkIjoiZGlkOmtleTphYmMifX1dfQ'}").

(** One recipient whose [kid] is the empty string. *)
Definition body_empty_kid : bytes :=
  encode_utf8 (q "{'protected': 'eyJyZWNpcGllbnRzIjpbeyJoZWFkZXIiOnsia2lkIjoiIn19XX0'}").

(** [{"recipients":[{"header":{"kid":"?"}}]}] where [?] is the letter e
    with an acute accent, written as the two bytes of its UTF-8 form. *)
Definition body_accented_kid : bytes :=
  encode_utf8 (q "{'protected': 'eyJyZWNpcGllbnRzIjpbeyJoZWFkZXIiOnsia2lkIjoiw6kifX1dfQ'}").

(** [{"recipients":[]}] *)
Definition body_no_recipients : bytes :=
  encode_utf8 (q "{'protected': 'eyJyZWNpcGllbnRzIjpbXX0'}").

(** An envelope without [protected], and a body that is not JSON. *)
Definition body_no_protected : bytes :=
  encode_utf8 (q "{'ciphertext': 'abc'}").

Definition body_not_json : bytes := encode_utf8 "not json".

(** * The subscriptions of the fixed-pattern bridge *)

Module KafkaQueuePatterns.

(** What [.*$] can match: characters of one line up to the end of the
    text, or up to a line feed that ends the text. *)
Fixpoint line_end (s : string) : bool :=
  match s with
  | EmptyString => true
  | String c r =>
      if Ascii.eqb c LF
      then match r with EmptyString => true | _ => false end
      else line_end r
  end.

(** What is left after the longest prefix without a colon. *)
Fixpoint after_no_colon (s : string) : string :=
  match s with
  | EmptyString => EmptyString
  | String c r => if Ascii.eqb c ":" then s else after_no_colon r
  end.

(** The four expressions of the module, as the event bus applies them:
    each is matched at the start of the topic.

    [EVENT_PATTERN_WEBHOOK]: the prefix [acapy::webhook::], then the rest
    of the line, then the end. *)
Definition EVENT_PATTERN_WEBHOOK (t : string) : bool :=
  startswith "acapy::webhook::" t && line_end (drop 16 t).

(** [EVENT_PATTERN_RECORD]: the prefix [acapy::record::], a run of
    characters other than a colon, optionally [::] and the rest of the
    line, then the end. *)
Definition EVENT_PATTERN_RECORD (t : string) : bool :=
  startswith "acapy::record::" t &&
  match after_no_colon (drop 15 t) with
  | EmptyString => true
  | r => startswith "::" r && line_end (drop 2 r)
  end.

(** [OUTBOUND_PATTERN]: the text [acapy::outbound::message], then the
    end. *)
Definition OUTBOUND_PATTERN (t : string) : bool :=
  startswith "acapy::outbound::message" t &&
  match drop 24 t with
  | EmptyString => true
  | String c EmptyString => Ascii.eqb c LF
  | _ => false
  end.

(** [BASIC_MESSAGE_PATTERN]: the prefix [acapy::basicmessage::] and
    anything after it. *)
Definition BASIC_MESSAGE_PATTERN (t : string) : bool :=
  startswith "acapy::basicmessage::" t.

(** The subscriptions [setup] makes, all to [handle_event], in the order
    of the calls of [bus.subscribe]. *)
Definition subscriptions : list (string -> bool) :=
  [EVENT_PATTERN_WEBHOOK; BASIC_MESSAGE_PATTERN; OUTBOUND_PATTERN;
   EVENT_PATTERN_RECORD].

(** Whether the bus calls [handle_event] for an event of topic [t]. *)
Definition handled (t : string) : bool :=
  existsb (fun pattern => pattern t) subscriptions.

End KafkaQueuePatterns.

(** A record a producer sent, as a consumer of its topic receives it. *)
Definition as_consumed (r : KafkaRecord) : ConsumerRecord :=
  {| msg_topic := rec_topic r; msg_value := rec_value r |}.

(** The URL-safe base64 text of [b] without its padding, as packed
    messages carry it. *)
Definition unpadded_b64 (b : bytes) : bytes :=
  filter (fun x => negb (Byte.eqb x PAD)) (urlsafe_b64encode b).

(** What [b64_to_bytes] appends before it decodes. *)
Definition repair_padding (b : bytes) : bytes :=
  let missing_padding := Nat.modulo (List.length b) 4 in
  if Nat.eqb missing_padding 0 then b
  else (b ++ repeat PAD (4 - missing_padding))%list.

Definition sample_fixed_profile_unbound : Profile :=
  {| settings := {| wallet_id := None; events_config := None |};
     producer_bound := false |}.

(** A payload on the wire, without [retries]. *)
Definition wire_without_retries : bytes :=
  encode_utf8 (q "{'service': {'url': 'didcomm:transport/queue'}, 'payload': 'aGk='}").


(** * The start of the configurable bridge *)

Module EventsSetup.

Section Setup.

(** [re.compile(source)] raises for a text that is not a regular
    expression; which texts these are is a parameter of the model. *)
Variable compile_error : string -> option pyexc.

(** The loop of [setup], with the bus as explicit state: a bus is the
    list of the expressions subscribed to [handle_event], each kept as
    its source text, in the order of the calls of [bus.subscribe].
[[
    for event in config.topic_maps.keys():
        LOGGER.info(f"subscribing to event: {event}")
        bus.subscribe(re.compile(event), handle_event)
]] *)
Fixpoint subscribe_all (keys : list string) (subscribed : list string)
  (w : World) : result unit * World * list string :=
  match keys with
  | [] => (Ok tt, w, subscribed)
  | event :: rest =>
      let w1 := snd (logger INFO "subscribing to event: {}" [LStr event] w) in
      match compile_error event with
      | Some e => (Raise e, w1, subscribed)
      | None => subscribe_all rest (subscribed ++ [event])%list w1
      end
  end.

(** [setup(context)] of [kafka_queue.events], on the settings of the
    context and on what [context.inject(EventBus)] gives: a bus, or
    nothing.
[[
    config = get_config(context.settings).events
    if not config: config = EventsConfig.default()
    bus = context.inject(EventBus)
    if not bus: raise ValueError("EventBus missing in context")
]] *)
Definition setup (s : Settings) (event_bus : option (list string))
  (w : World) : result unit * World * list string :=
  let config :=
    match Events.get_config_events s with
    | Some c => c
    | None => Events.EventsConfig_default
    end in
  match event_bus with
  | None => (Raise (ValueError "EventBus missing in context"), w, [])
  | Some subscribed => subscribe_all (map fst (topic_maps config)) subscribed w
  end.

End Setup.

End EventsSetup.

(** * Properties

    ** The JSON codec on samples *)

Example json_loads_sample :
  json_loads (q " {'a': [1, -20, true, null], 'b': {'c': 'xA\n'}, 'a': 7 } ")
  = Some (JObj [("a", JNum 7);
                ("b", JObj [("c", JStr (String "x" (String "A" (str1 LF))))])]).
Proof. vm_compute. reflexivity. Qed.

Example json_loads_rejects :
  map json_loads [q "[1,]"; q "{'a' 1}"; "01"; q "'abc"; "nul"; EmptyString; "[1 2]"; "-"]
  = [None; None; None; None; None; None; None; None].
Proof. vm_compute. reflexivity. Qed.

Example json_dumps_sample :
  json_dumps (JObj [("k", JArr [JNum (-3); JBool false; JNull]);
                    ("s", JStr (String dquote (String TAB (str1 (chr 233)))))])
  = q "{'k': [-3, false, null], 's': '\'\t\u00e9'}".
Proof. vm_compute. reflexivity. Qed.

(** ** Text and byte codecs *)

Lemma byte_of_N_to_N (b : byte) : byte_of_N (Byte.to_N b) = b.
Proof. unfold byte_of_N. now rewrite Byte.of_to_N. Qed.

Lemma to_N_byte_of_N (n : N) : (n < 256)%N -> Byte.to_N (byte_of_N n) = n.
Proof.
  intros Hn. unfold byte_of_N.
  destruct (Byte.of_N n) as [b|] eqn:E.
  - now apply Byte.to_of_N.
  - pose proof (Byte.to_of_N_option_map n) as H. rewrite E in H.
    destruct (N.leb_spec n 255); [discriminate | lia].
Qed.

Lemma ord_lt_256 (c : ascii) : (ord c < 256)%N.
Proof. apply N_ascii_bounded. Qed.

Lemma chr_ord (c : ascii) : chr (ord c) = c.
Proof. apply ascii_N_embedding. Qed.

Lemma ord_chr (n : N) : (n < 256)%N -> ord (chr n) = n.
Proof. apply N_ascii_embedding. Qed.

Ltac divmod := zify; Z.to_euclidean_division_equations; lia.

(** A property that holds for the 64 sextets, checked by enumeration. *)
Lemma forall_sextet (P : N -> bool) :
  forallb P (map N.of_nat (seq 0 64)) = true ->
  forall n, (n < 64)%N -> P n = true.
Proof.
  intros H n Hn. rewrite forallb_forall in H. apply H.
  apply in_map_iff. exists (N.to_nat n). split.
  - apply N2Nat.id.
  - apply in_seq. lia.
Qed.

Lemma b64_char_not_pad n :
  (n < 64)%N ->
  Byte.eqb (urlsafe_decode_translation
              (urlsafe_encode_translation (b64_char n))) PAD = false.
Proof.
  intros Hn.
  apply (forall_sextet
           (fun n => negb (Byte.eqb (urlsafe_decode_translation
                     (urlsafe_encode_translation (b64_char n))) PAD))) in Hn.
  - now apply negb_true_iff in Hn.
  - vm_compute. reflexivity.
Qed.

Lemma b64_value_char n :
  (n < 64)%N ->
  b64_value (urlsafe_decode_translation
               (urlsafe_encode_translation (b64_char n))) = Some n.
Proof.
  intros Hn.
  apply (forall_sextet
           (fun n => match b64_value (urlsafe_decode_translation
                            (urlsafe_encode_translation (b64_char n))) with
                     | Some m => N.eqb m n
                     | None => false
                     end)) in Hn.
  - destruct (b64_value _) as [m|]; [|discriminate].
    apply N.eqb_eq in Hn. now subst.
  - vm_compute. reflexivity.
Qed.

(** One data character of an encoding, seen by the decoder. *)
Lemma a2b_base64_data n rest qp lc pads :
  (n < 64)%N ->
  a2b_base64 (urlsafe_decode_translation
                (urlsafe_encode_translation (b64_char n)) :: rest) qp lc pads
  = if (qp =? 0)%N then a2b_base64 rest 1 n 0
    else if (qp =? 1)%N then
      rcons (byte_of_N (lc * 4 + n / 16)) (a2b_base64 rest 2 (n mod 16) 0)
    else if (qp =? 2)%N then
      rcons (byte_of_N (lc * 16 + n / 4)) (a2b_base64 rest 3 (n mod 4) 0)
    else rcons (byte_of_N (lc * 64 + n)) (a2b_base64 rest 0 0 0).
Proof.
  intros Hn. cbn [a2b_base64].
  rewrite (b64_char_not_pad n Hn), (b64_value_char n Hn). reflexivity.
Qed.

Lemma translate_pad :
  urlsafe_decode_translation (urlsafe_encode_translation PAD) = PAD.
Proof. reflexivity. Qed.

Lemma bytes_ind3 (P : bytes -> Prop) :
  P [] -> (forall x, P [x]) -> (forall x y, P [x; y]) ->
  (forall x y z rest, P rest -> P (x :: y :: z :: rest)) ->
  forall b, P b.
Proof.
  intros H0 H1 H2 H3.
  fix IH 1. intros [|x [|y [|z rest]]].
  - exact H0.
  - apply H1.
  - apply H2.
  - apply H3, IH.
Qed.

Lemma to_N_lt (b : byte) : (Byte.to_N b < 256)%N.
Proof. pose proof (Byte.to_N_bounded b). lia. Qed.

(** Decoding undoes encoding, for every byte string. *)
Lemma urlsafe_b64decode_encode (b : bytes) :
  urlsafe_b64decode (urlsafe_b64encode b) = Ok b.
Proof.
  unfold urlsafe_b64decode, urlsafe_b64encode, b64decode.
  rewrite map_map.
  induction b as [|x|x y|x y z rest IH] using bytes_ind3.
  - reflexivity.
  - pose proof (to_N_lt x) as Hx.
    cbn [b64encode map].
    rewrite !a2b_base64_data by divmod.
    rewrite translate_pad. cbn.
    replace (Byte.to_N x / 4 * 4 + Byte.to_N x mod 4 * 16 / 16)%N
      with (Byte.to_N x) by divmod.
    now rewrite byte_of_N_to_N.
  - pose proof (to_N_lt x) as Hx. pose proof (to_N_lt y) as Hy.
    cbn [b64encode map].
    rewrite !a2b_base64_data by divmod.
    rewrite translate_pad. cbn.
    replace (Byte.to_N x / 4 * 4
             + (Byte.to_N x mod 4 * 16 + Byte.to_N y / 16) / 16)%N
      with (Byte.to_N x) by divmod.
    replace ((Byte.to_N x mod 4 * 16 + Byte.to_N y / 16) mod 16 * 16
             + Byte.to_N y mod 16 * 4 / 4)%N
      with (Byte.to_N y) by divmod.
    now rewrite !byte_of_N_to_N.
  - pose proof (to_N_lt x) as Hx. pose proof (to_N_lt y) as Hy.
    pose proof (to_N_lt z) as Hz.
    cbn [b64encode map].
    rewrite !a2b_base64_data by divmod.
    cbn [N.eqb Pos.eqb rcons].
    rewrite IH. cbn [rcons].
    replace (Byte.to_N x / 4 * 4
             + (Byte.to_N x mod 4 * 16 + Byte.to_N y / 16) / 16)%N
      with (Byte.to_N x) by divmod.
    replace ((Byte.to_N x mod 4 * 16 + Byte.to_N y / 16) mod 16 * 16
             + (Byte.to_N y mod 16 * 4 + Byte.to_N z / 64) / 4)%N
      with (Byte.to_N y) by divmod.
    replace ((Byte.to_N y mod 16 * 4 + Byte.to_N z / 64) mod 4 * 64
             + Byte.to_N z mod 64)%N
      with (Byte.to_N z) by divmod.
    now rewrite !byte_of_N_to_N.
Qed.

(** ** [json_loads] undoes [json_dumps] *)

Lemma append_assoc (a b c : string) : (a ++ b) ++ c = a ++ (b ++ c).
Proof. induction a as [|x a IH]; cbn; [reflexivity | now rewrite IH]. Qed.

Lemma append_nil_r (a : string) : a ++ EmptyString = a.
Proof. induction a as [|x a IH]; cbn; [reflexivity | now rewrite IH]. Qed.

Lemma length_append (a b : string) :
  String.length (a ++ b) = String.length a + String.length b.
Proof. induction a as [|x a IH]; cbn; [reflexivity | now rewrite IH]. Qed.

Lemma json_ind' (P : json -> Prop) :
  P JNull -> (forall b, P (JBool b)) -> (forall n, P (JNum n)) ->
  (forall s, P (JStr s)) ->
  (forall l, Forall P l -> P (JArr l)) ->
  (forall d, Forall (fun kv => P (snd kv)) d -> P (JObj d)) ->
  forall v, P v.
Proof.
  intros Hnull Hbool Hnum Hstr Harr Hobj.
  fix IH 1. intros [|b|n|s|l|d].
  - exact Hnull.
  - apply Hbool.
  - apply Hnum.
  - apply Hstr.
  - apply Harr.
    revert l. fix IHl 1. intros [|x l].
    + constructor.
    + constructor; [apply IH | apply IHl].
  - apply Hobj.
    revert d. fix IHd 1. intros [|[k x] d].
    + constructor.
    + constructor; [apply IH | apply IHd].
Qed.

Lemma json_dumps_arr l : json_dumps (JArr l) = "[" ++ dumps_items l ++ "]".
Proof. reflexivity. Qed.

Lemma json_dumps_obj d : json_dumps (JObj d) = "{" ++ dumps_members d ++ "}".
Proof. reflexivity. Qed.

(** *** String literals *)

Lemma scan_string_escape_char c r :
  scan_string (escape_char c ++ r) = cons_char c (scan_string r).
Proof.
  destruct c as [[] [] [] [] [] [] [] []]; reflexivity.
Qed.

Lemma scan_string_escape s rest :
  scan_string (escape_str s ++ String dquote rest) = Some (s, rest).
Proof.
  induction s as [|c s IH]; [reflexivity|].
  cbn [escape_str]. rewrite append_assoc, scan_string_escape_char, IH.
  reflexivity.
Qed.

Lemma dumps_str_append s rest :
  dumps_str s ++ rest = String dquote (escape_str s ++ String dquote rest).
Proof.
  unfold dumps_str. cbn [append]. now rewrite append_assoc.
Qed.

(** *** Numbers *)

Lemma read_digits_uint d rest :
  number_end rest = true ->
  read_digits (DecimalString.NilEmpty.string_of_uint d ++ rest) = (d, rest).
Proof.
  intros Hr.
  induction d as [|d IH|d IH|d IH|d IH|d IH|d IH|d IH|d IH|d IH|d IH];
    cbn [DecimalString.NilEmpty.string_of_uint append];
    try (cbn [read_digits]; rewrite IH; reflexivity).
  destruct rest as [|c r]; [reflexivity|].
  cbn [read_digits]. cbn in Hr.
  destruct (is_digit c); [discriminate | reflexivity].
Qed.

Lemma to_uint_normal n : Decimal.unorm (N.to_uint n) = N.to_uint n.
Proof.
  rewrite <- DecimalN.Unsigned.to_of. now rewrite DecimalN.Unsigned.of_to.
Qed.

Lemma to_uint_pos_head p :
  match N.to_uint (Npos p) with
  | Decimal.Nil | Decimal.D0 _ => False
  | _ => True
  end.
Proof.
  pose proof (to_uint_normal (Npos p)) as Hn.
  pose proof (DecimalFacts.unorm_nonnil (N.to_uint (Npos p))) as Hnn.
  rewrite Hn in Hnn.
  destruct (N.to_uint (Npos p)) as [|d|d|d|d|d|d|d|d|d|d] eqn:E; auto.
  (* a leading zero: the numeral would be 0 *)
  assert (Hz : N.of_uint (Decimal.D0 d) = Npos p)
    by (rewrite <- E; apply DecimalN.Unsigned.of_to).
  unfold Decimal.unorm in Hn. rewrite DecimalFacts.nzhead_D0 in Hn.
  destruct (Decimal.nzhead d) eqn:Ed; try discriminate Hn.
  - injection Hn as <-. discriminate Hz.
  - exact (DecimalFacts.nzhead_nonzero _ _ Ed).
Qed.

Lemma scan_nat_pos p rest :
  number_end rest = true ->
  scan_nat (str_of_N (Npos p) ++ rest) = Some (Npos p, rest).
Proof.
  intros Hr. unfold str_of_N.
  pose proof (to_uint_pos_head p) as Hh.
  pose proof (read_digits_uint (N.to_uint (Npos p)) rest Hr) as Hd.
  pose proof (DecimalN.Unsigned.of_to (Npos p)) as Hof.
  destruct (N.to_uint (Npos p)) as [|d|d|d|d|d|d|d|d|d|d]; try contradiction;
    cbn [DecimalString.NilEmpty.string_of_uint append] in *;
    unfold scan_nat; rewrite Hd; cbn [Ascii.eqb Bool.eqb];
    rewrite Hof; reflexivity.
Qed.

Lemma str_of_N_pos_head p :
  exists c r, str_of_N (Npos p) = String c r /\ is_digit c = true.
Proof.
  unfold str_of_N. pose proof (to_uint_pos_head p) as Hh.
  destruct (N.to_uint (Npos p)) as [|d|d|d|d|d|d|d|d|d|d]; try contradiction;
    cbn; eexists; eexists; split; reflexivity.
Qed.

Lemma starts_with_minus_digit c r :
  is_digit c = true -> starts_with "-" (String c r) = None.
Proof.
  destruct c as [[] [] [] [] [] [] [] []]; cbn; intros H;
    try discriminate; reflexivity.
Qed.

Lemma scan_number_str_of_Z n rest :
  number_end rest = true ->
  scan_number (str_of_Z n ++ rest) = Some (JNum n, rest).
Proof.
  intros Hr.
  assert (Hf : starts_float rest = false).
  { destruct rest as [|c r]; [reflexivity|]. cbn in Hr.
    apply andb_true_iff in Hr as [_ Hr]. now apply negb_true_iff in Hr. }
  destruct n as [|p|p].
  - cbn. now rewrite Hf.
  - unfold str_of_Z, scan_number.
    destruct (str_of_N_pos_head p) as (c & r & E & Hc).
    pose proof (scan_nat_pos p rest Hr) as Hs. rewrite E in *.
    cbn [append] in *. rewrite (starts_with_minus_digit c _ Hc).
    rewrite Hs, Hf. reflexivity.
  - unfold str_of_Z, scan_number. cbn [append starts_with].
    rewrite Ascii.eqb_refl, (scan_nat_pos p rest Hr), Hf. reflexivity.
Qed.

Lemma scan_once_number_head f c r :
  (is_digit c || Ascii.eqb c "-") = true ->
  scan_once (S f) (String c r) = scan_number (String c r).
Proof.
  destruct c as [[] [] [] [] [] [] [] []]; cbn; intros H;
    try discriminate; reflexivity.
Qed.

Lemma str_of_Z_head n :
  exists c r, str_of_Z n = String c r /\ (is_digit c || Ascii.eqb c "-") = true.
Proof.
  destruct n as [|p|p].
  - exists "0"%char, EmptyString. split; reflexivity.
  - destruct (str_of_N_pos_head p) as (c & r & E & Hc).
    exists c, r. split; [exact E | now rewrite Hc].
  - eexists; eexists; split; reflexivity.
Qed.

(** *** The first character of a text *)

Lemma json_dumps_head v :
  exists c r, json_dumps v = String c r /\ value_start c = true.
Proof.
  destruct v as [|[]|n|s|l|d]; try (eexists; eexists; split; reflexivity).
  destruct (str_of_Z_head n) as (c & r & E & Hc).
  exists c, r. split; [exact E|].
  unfold value_start. apply orb_true_iff in Hc as [Hc|Hc]; rewrite Hc;
    repeat rewrite orb_true_r; reflexivity.
Qed.

Lemma value_start_facts c :
  value_start c = true ->
  is_ws c = false /\ Ascii.eqb "]" c = false /\ Ascii.eqb "}" c = false.
Proof.
  destruct c as [[] [] [] [] [] [] [] []]; cbn; intros H;
    try discriminate; repeat split.
Qed.

Lemma skip_ws_dumps v t : skip_ws (json_dumps v ++ t) = json_dumps v ++ t.
Proof.
  destruct (json_dumps_head v) as (c & r & E & Hc). rewrite E.
  apply value_start_facts in Hc as (Hw & _).
  cbn [append skip_ws]. now rewrite Hw.
Qed.

Lemma starts_with_close_dumps v t :
  starts_with "]" (json_dumps v ++ t) = None /\
  starts_with "}" (json_dumps v ++ t) = None.
Proof.
  destruct (json_dumps_head v) as (c & r & E & Hc). rewrite E.
  apply value_start_facts in Hc as (_ & H1 & H2).
  cbn [append starts_with]. now rewrite H1, H2.
Qed.

(** *** Dictionaries *)

Lemma has_key_app k d1 d2 :
  has_key k (d1 ++ d2)%list = has_key k d1 || has_key k d2.
Proof.
  induction d1 as [|[k' x] d1 IH]; [reflexivity|].
  cbn. rewrite IH. now rewrite orb_assoc.
Qed.

Lemma dict_set_fresh k x d :
  has_key k d = false -> dict_set k x d = (d ++ [(k, x)])%list.
Proof.
  induction d as [|[k' x'] d IH]; [reflexivity|].
  cbn. intros H. apply orb_false_iff in H as [H1 H2].
  rewrite H1. now rewrite IH.
Qed.

Lemma fold_dict_set d : forall acc,
  unique_keys d = true ->
  (forall k, has_key k acc = true -> has_key k d = false) ->
  fold_left (fun d kv => dict_set (fst kv) (snd kv) d) d acc = (acc ++ d)%list.
Proof.
  induction d as [|[k x] d IH]; intros acc Hu Hd.
  - cbn. now rewrite app_nil_r.
  - cbn in Hu. apply andb_true_iff in Hu as [Hk Hu].
    apply negb_true_iff in Hk.
    cbn [fold_left fst snd].
    assert (Hacc : has_key k acc = false).
    { destruct (has_key k acc) eqn:E; [|reflexivity].
      specialize (Hd k E). cbn in Hd. now rewrite String.eqb_refl in Hd. }
    rewrite dict_set_fresh by exact Hacc.
    rewrite IH; [now rewrite <- app_assoc | exact Hu |].
    intros k' Hk'. rewrite has_key_app in Hk'. cbn in Hk'.
    rewrite orb_false_r in Hk'.
    apply orb_true_iff in Hk' as [Hk'|Hk'].
    + specialize (Hd k' Hk'). cbn in Hd. now apply orb_false_iff in Hd.
    + apply String.eqb_eq in Hk'. now subst.
Qed.

Lemma dict_of_pairs_unique d : unique_keys d = true -> dict_of_pairs d = d.
Proof.
  intros Hu. unfold dict_of_pairs. rewrite fold_dict_set; auto.
  intros k H. discriminate H.
Qed.

(** *** Values *)

Lemma skip_ws_space t : skip_ws (String " " t) = skip_ws t.
Proof. reflexivity. Qed.

Lemma skip_ws_comma t : skip_ws (String "," t) = String "," t.
Proof. reflexivity. Qed.

Lemma skip_ws_colon t : skip_ws (String ":" t) = String ":" t.
Proof. reflexivity. Qed.

Lemma skip_ws_dquote t : skip_ws (String dquote t) = String dquote t.
Proof. reflexivity. Qed.

Lemma skip_ws_bracket t : skip_ws (String "]" t) = String "]" t.
Proof. reflexivity. Qed.

Lemma skip_ws_brace t : skip_ws (String "}" t) = String "}" t.
Proof. reflexivity. Qed.

Ltac step_ws :=
  repeat (progress
    (rewrite ?skip_ws_space, ?skip_ws_comma, ?skip_ws_colon, ?skip_ws_dquote,
       ?skip_ws_bracket, ?skip_ws_brace;
     cbn [starts_with Ascii.eqb Bool.eqb])).

Lemma items_head x r t :
  skip_ws (dumps_items (x :: r) ++ t) = dumps_items (x :: r) ++ t /\
  starts_with "]" (dumps_items (x :: r) ++ t) = None.
Proof.
  cbn [dumps_items]. rewrite append_assoc. split.
  - apply skip_ws_dumps.
  - apply starts_with_close_dumps.
Qed.

Lemma members_head k x r t :
  skip_ws (dumps_members ((k, x) :: r) ++ t) = dumps_members ((k, x) :: r) ++ t
  /\ starts_with "}" (dumps_members ((k, x) :: r) ++ t) = None.
Proof.
  cbn [dumps_members]. rewrite append_assoc, dumps_str_append.
  split; reflexivity.
Qed.

Lemma scan_items_dumps l :
  Forall scans_back l -> forallb wf_json l = true -> l <> [] ->
  forall fuel acc rest,
    fold_right (fun x n => S (jsize x + n)) 0 l <= fuel ->
    scan_items fuel (dumps_items l ++ String "]" rest) acc
    = Some (JArr (List.rev acc ++ l)%list, rest).
Proof.
  induction 1 as [|x r Hx Hr IH]; intros Hwf Hne fuel acc rest Hfuel;
    [contradiction|].
  cbn [forallb] in Hwf. apply andb_true_iff in Hwf as [Hwx Hwr].
  cbn [fold_right] in Hfuel.
  destruct fuel as [|f]; [lia|].
  cbn [scan_items dumps_items]. rewrite append_assoc.
  destruct r as [|y r'].
  - cbn [append].
    rewrite (Hx Hwx f (String "]" rest)) by (reflexivity || lia).
    step_ws. reflexivity.
  - rewrite ?append_assoc. cbn [append].
    rewrite (Hx Hwx f) by (reflexivity || lia).
    step_ws. rewrite (proj1 (items_head y r' _)).
    rewrite IH; [| exact Hwr | discriminate | cbn [fold_right] in *; lia].
    cbn [List.rev]. now rewrite <- app_assoc.
Qed.

Lemma scan_members_dumps d :
  Forall (fun kv => scans_back (snd kv)) d ->
  forallb (fun kv => wf_json (snd kv)) d = true -> d <> [] ->
  forall fuel acc rest,
    fold_right (fun kv n => S (jsize (snd kv) + n)) 0 d <= fuel ->
    scan_members fuel (dumps_members d ++ String "}" rest) acc
    = Some (JObj (dict_of_pairs (List.rev acc ++ d)%list), rest).
Proof.
  induction 1 as [|[k x] r Hx Hr IH]; intros Hwf Hne fuel acc rest Hfuel;
    [contradiction|].
  cbn [forallb snd] in Hwf. apply andb_true_iff in Hwf as [Hwx Hwr].
  cbn [fold_right snd] in Hfuel. cbn [snd] in Hx.
  destruct fuel as [|f]; [lia|].
  cbn [scan_members dumps_members].
  rewrite append_assoc, dumps_str_append.
  cbn [starts_with]. rewrite Ascii.eqb_refl, scan_string_escape.
  cbn [append]. step_ws.
  rewrite append_assoc, skip_ws_dumps.
  destruct r as [|[k' y] r'].
  - cbn [append].
    rewrite (Hx Hwx f (String "}" rest)) by (reflexivity || lia).
    step_ws. reflexivity.
  - rewrite ?append_assoc. cbn [append].
    rewrite (Hx Hwx f) by (reflexivity || lia).
    step_ws. rewrite (proj1 (members_head k' y r' _)).
    rewrite IH; [| exact Hwr | discriminate | cbn [fold_right] in *; lia].
    cbn [List.rev]. now rewrite <- app_assoc.
Qed.

(** The scanner reads the text of a well-formed value back, whatever
    follows it, as long as a number is not followed by more of a number. *)
Lemma scan_once_dumps v : scans_back v.
Proof.
  induction v as [|b|n|s|l IH|d IH] using json_ind';
    intros Hwf fuel rest Hfuel Hrest;
    (destruct fuel as [|f]; [cbn in Hfuel; lia|]).
  - reflexivity.
  - destruct b; reflexivity.
  - cbn [json_dumps].
    destruct (str_of_Z_head n) as (c & r & E & Hc).
    pose proof (scan_number_str_of_Z n rest Hrest) as Hs.
    rewrite E in *. cbn [append] in *.
    now rewrite scan_once_number_head.
  - cbn [json_dumps]. rewrite dumps_str_append.
    cbn [scan_once]. rewrite Ascii.eqb_refl, scan_string_escape. reflexivity.
  - rewrite json_dumps_arr, append_assoc. cbn [append scan_once].
    cbn [Ascii.eqb Bool.eqb dquote].
    destruct l as [|x r]; [reflexivity|].
    rewrite append_assoc. cbn [append].
    destruct (items_head x r (String "]" rest)) as [-> ->].
    cbn [wf_json] in Hwf. cbn [jsize] in Hfuel.
    rewrite scan_items_dumps; [reflexivity | exact IH | exact Hwf
                              | discriminate | lia].
  - rewrite json_dumps_obj, append_assoc. cbn [append scan_once].
    cbn [Ascii.eqb Bool.eqb dquote].
    destruct d as [|[k x] r]; [reflexivity|].
    cbn [wf_json] in Hwf. apply andb_true_iff in Hwf as [Hu Hwf].
    cbn [jsize] in Hfuel.
    rewrite append_assoc. cbn [append].
    destruct (members_head k x r (String "}" rest)) as [-> ->].
    rewrite scan_members_dumps; [| exact IH | exact Hwf | discriminate | lia].
    cbn [List.rev app]. now rewrite dict_of_pairs_unique.
Qed.

Lemma jsize_le_length v : jsize v <= String.length (json_dumps v).
Proof.
  induction v as [|b|n|s|l IH|d IH] using json_ind'.
  - cbn. lia.
  - destruct b; cbn; lia.
  - destruct (str_of_Z_head n) as (c & r & E & _).
    cbn [json_dumps jsize]. rewrite E. cbn. lia.
  - cbn. lia.
  - rewrite json_dumps_arr. cbn [jsize].
    rewrite !length_append. cbn [String.length].
    enough (fold_right (fun x n => S (jsize x + n)) 0 l
            <= S (String.length (dumps_items l))) by lia.
    induction IH as [|x r Hx Hr IHr]; [cbn; lia|].
    cbn [fold_right dumps_items]. rewrite length_append.
    destruct r as [|y r']; [cbn in *; lia|].
    rewrite length_append. cbn [String.length]. lia.
  - rewrite json_dumps_obj. cbn [jsize].
    rewrite !length_append. cbn [String.length].
    enough (fold_right (fun kv n => S (jsize (snd kv) + n)) 0 d
            <= S (String.length (dumps_members d))) by lia.
    induction IH as [|[k x] r Hx Hr IHr]; [cbn; lia|].
    cbn [fold_right dumps_members snd] in *. rewrite !length_append.
    destruct r as [|y r']; [cbn in *; lia|].
    rewrite length_append. cbn [String.length]. lia.
Qed.

(** [json.loads(json.dumps(v)) == v] for every well-formed value. *)
Lemma json_loads_dumps v :
  wf_json v = true -> json_loads (json_dumps v) = Some v.
Proof.
  intros Hwf. unfold json_loads.
  pose proof (skip_ws_dumps v EmptyString) as Hs.
  rewrite append_nil_r in Hs. rewrite Hs.
  pose proof (scan_once_dumps v Hwf
                (2 * String.length (json_dumps v) + 1) EmptyString) as H.
  rewrite append_nil_r in H. rewrite H; [reflexivity | | reflexivity].
  pose proof (jsize_le_length v). lia.
Qed.

(** ** The fuel of the scanner

    More fuel never changes an answer, and the fuel [json_loads] gives
    the scanner is enough: whatever the scanner reads with any amount of
    fuel, it reads with that amount. *)

Lemma scan_mono f :
  (forall s r, scan_once f s = Some r ->
     forall f', f <= f' -> scan_once f' s = Some r) /\
  (forall s acc r, scan_items f s acc = Some r ->
     forall f', f <= f' -> scan_items f' s acc = Some r) /\
  (forall s acc r, scan_members f s acc = Some r ->
     forall f', f <= f' -> scan_members f' s acc = Some r).
Proof.
  induction f as [|f (IHo & IHi & IHm)].
  - repeat split; intros; discriminate.
  - split; [|split].
    + intros s r H f' Hf'. destruct f' as [|f']; [lia|].
      cbn [scan_once] in *. destruct s as [|c s]; [discriminate|].
      destruct (Ascii.eqb c dquote); [exact H|].
      destruct (Ascii.eqb c "[").
      { destruct (starts_with "]" (skip_ws s)); [exact H|].
        apply (IHi _ _ _ H). lia. }
      destruct (Ascii.eqb c "{").
      { destruct (starts_with "}" (skip_ws s)); [exact H|].
        apply (IHm _ _ _ H). lia. }
      exact H.
    + intros s acc r H f' Hf'. destruct f' as [|f']; [lia|].
      cbn [scan_items] in *.
      destruct (scan_once f s) as [[v rest]|] eqn:E; [|discriminate].
      rewrite (IHo _ _ E f') by lia.
      destruct (starts_with "]" (skip_ws rest)); [exact H|].
      destruct (starts_with "," (skip_ws rest)); [|discriminate].
      apply (IHi _ _ _ H). lia.
    + intros s acc r H f' Hf'. destruct f' as [|f']; [lia|].
      cbn [scan_members] in *.
      destruct (starts_with dquote s) as [s1|]; [|discriminate].
      destruct (scan_string s1) as [[k rest]|]; [|discriminate].
      destruct (starts_with ":" (skip_ws rest)) as [rest1|]; [|discriminate].
      destruct (scan_once f (skip_ws rest1)) as [[v rest2]|] eqn:E;
        [|discriminate].
      rewrite (IHo _ _ E f') by lia.
      destruct (starts_with "}" (skip_ws rest2)); [exact H|].
      destruct (starts_with "," (skip_ws rest2)); [|discriminate].
      apply (IHm _ _ _ H). lia.
Qed.

Lemma skip_ws_length s : String.length (skip_ws s) <= String.length s.
Proof.
  induction s as [|c s IH]; [cbn; lia|].
  cbn [skip_ws]. destruct (is_ws c); cbn [String.length]; lia.
Qed.

Lemma starts_with_length c s r :
  starts_with c s = Some r -> String.length s = S (String.length r).
Proof.
  destruct s as [|c' s]; [discriminate|]. cbn.
  destruct (Ascii.eqb c c'); [|discriminate]. now intros [= ->].
Qed.

Lemma scan_string_length s : forall x r,
  scan_string s = Some (x, r) -> String.length r < String.length s.
Proof.
  assert (Hc : forall c o x r n,
    cons_char c o = Some (x, r) ->
    (forall x' r', o = Some (x', r') -> String.length r' < n) ->
    String.length r < n).
  { intros c [[x' r']|] x r n H Hn; [|discriminate].
    cbn in H. injection H as <- <-. now apply (Hn x'). }
  enough (Hn : forall n s, String.length s <= n -> forall x r,
                 scan_string s = Some (x, r) ->
                 String.length r < String.length s)
    by (intros x r; now apply (Hn (String.length s))).
  clear s.
  induction n as [|n IHn]; intros s Hle x r H;
    (destruct s as [|c s]; [discriminate|]); [cbn in Hle; lia|].
  assert (IH : forall t x' r', String.length t <= n ->
                               scan_string t = Some (x', r') ->
                               String.length r' < String.length t)
    by (intros t x' r' Ht; now apply IHn).
  cbn [String.length] in Hle.
  cbn [scan_string] in H. cbn [String.length].
  destruct (Ascii.eqb c dquote).
  { injection H as <- <-. lia. }
  destruct (Ascii.eqb c backslash).
  { destruct s as [|e s]; [discriminate|].
    destruct (Ascii.eqb e "u").
    - destruct s as [|h1 [|h2 [|h3 [|h4 s]]]]; try discriminate.
      destruct (hex4 h1 h2 h3 h4) as [cp|]; [|discriminate].
      destruct (cp <? 256)%N; [|discriminate].
      cbn [String.length].
      apply (Hc _ _ _ _ _ H). intros x' r' H'.
      apply IH in H'; cbn [String.length] in *; lia.
    - destruct (unescape e); [|discriminate].
      cbn [String.length].
      apply (Hc _ _ _ _ _ H). intros x' r' H'.
      apply IH in H'; cbn [String.length] in *; lia. }
  destruct (ord c <? 32)%N; [discriminate|].
  apply (Hc _ _ _ _ _ H). intros x' r' H'.
  apply IH in H'; lia.
Qed.

Lemma read_digits_length s :
  String.length (snd (read_digits s)) <= String.length s.
Proof.
  induction s as [|c s IH]; [cbn; lia|].
  cbn [read_digits]. destruct (is_digit c); [|cbn; lia].
  destruct (read_digits s) as [d r]. cbn [snd String.length] in *. lia.
Qed.

Lemma scan_number_length s v r :
  scan_number s = Some (v, r) -> String.length r < String.length s.
Proof.
  unfold scan_number.
  assert (Hn : forall t n r', scan_nat t = Some (n, r') ->
                              String.length r' < String.length t).
  { intros t n r' H. unfold scan_nat in H. destruct t as [|c t]; [discriminate|].
    destruct (Ascii.eqb c "0").
    - injection H as <- <-. cbn. lia.
    - destruct (is_digit c) eqn:Ed; [|discriminate].
      cbn [read_digits] in H. rewrite Ed in H.
      pose proof (read_digits_length t) as Hl.
      destruct (read_digits t) as [d r0]. injection H as <- <-.
      cbn [snd String.length] in *. lia. }
  destruct (starts_with "-" s) as [s'|] eqn:Es.
  - apply starts_with_length in Es.
    destruct (scan_nat s') as [[n rest]|] eqn:E; [|discriminate].
    destruct (starts_float rest); [discriminate|].
    intros [= <- <-]. apply Hn in E. lia.
  - destruct (scan_nat s) as [[n rest]|] eqn:E; [|discriminate].
    destruct (starts_float rest); [discriminate|].
    intros [= <- <-]. now apply Hn in E.
Qed.

(** What is enough for a text: twice its length and one for a value, one
    more for the loops. *)
Lemma scan_enough f :
  (forall s v rest, scan_once f s = Some (v, rest) ->
     String.length rest < String.length s /\
     scan_once (2 * String.length s + 1) s = Some (v, rest)) /\
  (forall s acc v rest, scan_items f s acc = Some (v, rest) ->
     String.length rest < String.length s /\
     scan_items (2 * String.length s + 2) s acc = Some (v, rest)) /\
  (forall s acc v rest, scan_members f s acc = Some (v, rest) ->
     String.length rest < String.length s /\
     scan_members (2 * String.length s + 2) s acc = Some (v, rest)).
Proof.
  induction f as [|f (IHo & IHi & IHm)].
  - repeat split; intros; discriminate.
  - split; [|split].
    + intros s v rest H.
      replace (2 * String.length s + 1) with (S (2 * String.length s)) by lia.
      cbn [scan_once] in *. destruct s as [|c s]; [discriminate|].
      cbn [String.length].
      destruct (Ascii.eqb c dquote).
      { destruct (scan_string s) as [[x r]|] eqn:E; [|discriminate].
        injection H as <- <-. apply scan_string_length in E.
        split; [lia | reflexivity]. }
      pose proof (skip_ws_length s) as Hws.
      destruct (Ascii.eqb c "[").
      { destruct (starts_with "]" (skip_ws s)) as [r|] eqn:E.
        - injection H as <- <-. apply starts_with_length in E.
          split; [lia | reflexivity].
        - destruct (IHi _ _ _ _ H) as (Hl & Hf). split; [lia|].
          apply (proj1 (proj2 (scan_mono _)) _ _ _ Hf). lia. }
      destruct (Ascii.eqb c "{").
      { destruct (starts_with "}" (skip_ws s)) as [r|] eqn:E.
        - injection H as <- <-. apply starts_with_length in E.
          split; [lia | reflexivity].
        - destruct (IHm _ _ _ _ H) as (Hl & Hf). split; [lia|].
          apply (proj2 (proj2 (scan_mono _)) _ _ _ Hf). lia. }
      split; [|exact H].
      change (S (String.length s)) with (String.length (String c s)).
      destruct (startswith "null" (String c s)) eqn:E1.
      { injection H as <- <-.
        destruct s as [|c1 [|c2 [|c3 s]]]; cbn in E1 |- *;
          rewrite ?andb_false_r in E1; try discriminate; lia. }
      destruct (startswith "true" (String c s)) eqn:E2.
      { injection H as <- <-.
        destruct s as [|c1 [|c2 [|c3 s]]]; cbn in E2 |- *;
          rewrite ?andb_false_r in E2; try discriminate; lia. }
      destruct (startswith "false" (String c s)) eqn:E3.
      { injection H as <- <-.
        destruct s as [|c1 [|c2 [|c3 [|c4 s]]]]; cbn in E3 |- *;
          rewrite ?andb_false_r in E3; try discriminate; lia. }
      now apply scan_number_length in H.
    + intros s acc v rest H.
      replace (2 * String.length s + 2) with (S (2 * String.length s + 1))
        by lia.
      cbn [scan_items] in *.
      destruct (scan_once f s) as [[x rest1]|] eqn:E; [|discriminate].
      destruct (IHo _ _ _ E) as (Hl & Hf). rewrite Hf.
      pose proof (skip_ws_length rest1) as Hws.
      destruct (starts_with "]" (skip_ws rest1)) as [r|] eqn:E1.
      { injection H as <- <-. apply starts_with_length in E1.
        split; [lia | reflexivity]. }
      destruct (starts_with "," (skip_ws rest1)) as [r|] eqn:E2;
        [|discriminate].
      apply starts_with_length in E2.
      pose proof (skip_ws_length r) as Hws'.
      destruct (IHi _ _ _ _ H) as (Hl' & Hf'). split; [lia|].
      apply (proj1 (proj2 (scan_mono _)) _ _ _ Hf'). lia.
    + intros s acc v rest H.
      replace (2 * String.length s + 2) with (S (2 * String.length s + 1))
        by lia.
      cbn [scan_members] in *.
      destruct (starts_with dquote s) as [s1|] eqn:E0; [|discriminate].
      apply starts_with_length in E0.
      destruct (scan_string s1) as [[k rest0]|] eqn:Es; [|discriminate].
      apply scan_string_length in Es.
      pose proof (skip_ws_length rest0) as Hws0.
      destruct (starts_with ":" (skip_ws rest0)) as [rest1|] eqn:E1;
        [|discriminate].
      apply starts_with_length in E1.
      pose proof (skip_ws_length rest1) as Hws1.
      destruct (scan_once f (skip_ws rest1)) as [[x rest2]|] eqn:E;
        [|discriminate].
      destruct (IHo _ _ _ E) as (Hl & Hf).
      rewrite (proj1 (scan_mono _) _ _ Hf) by lia.
      pose proof (skip_ws_length rest2) as Hws2.
      destruct (starts_with "}" (skip_ws rest2)) as [r|] eqn:E2.
      { injection H as <- <-. apply starts_with_length in E2.
        split; [lia | reflexivity]. }
      destruct (starts_with "," (skip_ws rest2)) as [r|] eqn:E3;
        [|discriminate].
      apply starts_with_length in E3.
      pose proof (skip_ws_length r) as Hws3.
      destruct (IHm _ _ _ _ H) as (Hl' & Hf'). split; [lia|].
      apply (proj2 (proj2 (scan_mono _)) _ _ _ Hf'). lia.
Qed.

(** [json_loads] does not depend on its fuel: a text that the scanner
    reads to its end with some fuel is read by [json_loads]. *)
Lemma json_loads_fuel f s v rest :
  scan_once f (skip_ws s) = Some (v, rest) ->
  skip_ws rest = EmptyString ->
  json_loads s = Some v.
Proof.
  intros H Hrest. unfold json_loads.
  destruct (proj1 (scan_enough f) _ _ _ H) as (_ & Hf).
  pose proof (skip_ws_length s).
  rewrite (proj1 (scan_mono _) _ _ Hf) by lia.
  now rewrite Hrest.
Qed.

(** ** The values [json_loads] returns are well formed *)

Lemma has_key_dict_set k k' v d :
  has_key k (dict_set k' v d) = String.eqb k k' || has_key k d.
Proof.
  induction d as [|[k0 v0] d IH]; cbn.
  - reflexivity.
  - destruct (String.eqb k' k0) eqn:E; cbn.
    + apply String.eqb_eq in E. subst k0.
      now destruct (String.eqb k k').
    + rewrite IH. now destruct (String.eqb k k'), (String.eqb k k0).
Qed.

Lemma dict_set_wf k v d :
  unique_keys d = true -> wf_json v = true ->
  forallb (fun kv => wf_json (snd kv)) d = true ->
  unique_keys (dict_set k v d) = true /\
  forallb (fun kv => wf_json (snd kv)) (dict_set k v d) = true.
Proof.
  intros Hu Hv Hd. induction d as [|[k0 v0] d IH]; cbn.
  - now rewrite Hv.
  - cbn in Hu, Hd. apply andb_true_iff in Hu as [Hk Hu].
    apply andb_true_iff in Hd as [H0 Hd].
    destruct (String.eqb k k0) eqn:E; cbn.
    + now rewrite Hk, Hu, Hv, Hd.
    + destruct (IH Hu Hd) as (IH1 & IH2).
      rewrite has_key_dict_set, IH1, IH2, H0.
      rewrite String.eqb_sym, E. cbn.
      apply negb_true_iff in Hk. now rewrite Hk.
Qed.

Lemma dict_of_pairs_wf pairs :
  forallb (fun kv => wf_json (snd kv)) pairs = true ->
  wf_json (JObj (dict_of_pairs pairs)) = true.
Proof.
  unfold dict_of_pairs. cbn [wf_json].
  enough (H : forall acc,
    unique_keys acc = true ->
    forallb (fun kv => wf_json (snd kv)) acc = true ->
    forallb (fun kv => wf_json (snd kv)) pairs = true ->
    let d := fold_left (fun d kv => dict_set (fst kv) (snd kv) d) pairs acc in
    unique_keys d && forallb (fun kv => wf_json (snd kv)) d = true)
    by (intros Hp; now apply (H [])).
  induction pairs as [|[k v] pairs IH]; intros acc Hu Ha Hp.
  - cbn. now rewrite Hu, Ha.
  - cbn in Hp. apply andb_true_iff in Hp as [Hv Hp].
    cbn [fold_left fst snd].
    destruct (dict_set_wf k v acc Hu Hv Ha) as (H1 & H2).
    now apply IH.
Qed.

Lemma forallb_rev {A} (p : A -> bool) l :
  forallb p (List.rev l) = forallb p l.
Proof.
  induction l as [|a l IH]; [reflexivity|].
  cbn. rewrite forallb_app, IH. cbn. rewrite andb_true_r. apply andb_comm.
Qed.

Lemma scan_wf f :
  (forall s v rest, scan_once f s = Some (v, rest) -> wf_json v = true) /\
  (forall s acc v rest, scan_items f s acc = Some (v, rest) ->
     forallb wf_json acc = true -> wf_json v = true) /\
  (forall s acc v rest, scan_members f s acc = Some (v, rest) ->
     forallb (fun kv => wf_json (snd kv)) acc = true -> wf_json v = true).
Proof.
  induction f as [|f (IHo & IHi & IHm)].
  - repeat split; intros; discriminate.
  - split; [|split].
    + intros s v rest H. cbn [scan_once] in H.
      destruct s as [|c s]; [discriminate|].
      destruct (Ascii.eqb c dquote).
      { destruct (scan_string s) as [[x r]|]; [|discriminate].
        now injection H as <- <-. }
      destruct (Ascii.eqb c "[").
      { destruct (starts_with "]" (skip_ws s)).
        - now injection H as <- <-.
        - now apply (IHi _ _ _ _ H). }
      destruct (Ascii.eqb c "{").
      { destruct (starts_with "}" (skip_ws s)).
        - now injection H as <- <-.
        - now apply (IHm _ _ _ _ H). }
      destruct (startswith "null" _); [now injection H as <- <-|].
      destruct (startswith "true" _); [now injection H as <- <-|].
      destruct (startswith "false" _); [now injection H as <- <-|].
      unfold scan_number in H.
      destruct (starts_with "-" _);
        destruct (scan_nat _) as [[n r]|]; try discriminate;
        destruct (starts_float r); try discriminate;
        now injection H as <- <-.
    + intros s acc v rest H Hacc. cbn [scan_items] in H.
      destruct (scan_once f s) as [[x rest1]|] eqn:E; [|discriminate].
      apply IHo in E.
      destruct (starts_with "]" (skip_ws rest1)).
      { injection H as <- <-.
        change (forallb wf_json (List.rev (x :: acc)) = true).
        rewrite forallb_rev. cbn. now rewrite E, Hacc. }
      destruct (starts_with "," (skip_ws rest1)); [|discriminate].
      apply (IHi _ _ _ _ H). cbn. now rewrite E, Hacc.
    + intros s acc v rest H Hacc. cbn [scan_members] in H.
      destruct (starts_with dquote s) as [s1|]; [|discriminate].
      destruct (scan_string s1) as [[k rest0]|]; [|discriminate].
      destruct (starts_with ":" (skip_ws rest0)) as [rest1|]; [|discriminate].
      destruct (scan_once f (skip_ws rest1)) as [[x rest2]|] eqn:E;
        [|discriminate].
      apply IHo in E.
      destruct (starts_with "}" (skip_ws rest2)).
      { injection H as <- <-. apply dict_of_pairs_wf.
        change (forallb (fun kv => wf_json (snd kv))
                        (List.rev ((k, x) :: acc)) = true).
        rewrite forallb_rev. cbn. now rewrite E, Hacc. }
      destruct (starts_with "," (skip_ws rest2)); [|discriminate].
      apply (IHm _ _ _ _ H). cbn. now rewrite E, Hacc.
Qed.

Lemma json_loads_wf s v : json_loads s = Some v -> wf_json v = true.
Proof.
  unfold json_loads.
  destruct (scan_once _ _) as [[x rest]|] eqn:E; [|discriminate].
  destruct (skip_ws rest); [|discriminate].
  intros [= <-]. exact (proj1 (scan_wf _) _ _ _ E).
Qed.

(** ** UTF-8 and ASCII *)

Lemma decode_utf8_char c rest :
  decode_utf8 (utf8_char c ++ rest)%list
  = option_map (String c) (decode_utf8 rest).
Proof.
  destruct c as [[] [] [] [] [] [] [] []]; reflexivity.
Qed.

(** [s.encode("utf8").decode("utf8") == s] *)
Lemma decode_encode_utf8 s : decode_utf8 (encode_utf8 s) = Some s.
Proof.
  induction s as [|c s IH]; [reflexivity|].
  cbn [encode_utf8]. now rewrite decode_utf8_char, IH.
Qed.

Lemma bytes_decode_encode s : bytes_decode (encode_utf8 s) = Ok s.
Proof. unfold bytes_decode. now rewrite decode_encode_utf8. Qed.

Lemma decode_utf8_ascii b :
  is_ascii_bytes b = true -> decode_utf8 b = Some (ascii_text b).
Proof.
  induction b as [|x b IH]; [reflexivity|].
  cbn [is_ascii_bytes forallb]. intros H.
  apply andb_true_iff in H as [Hx Hb].
  cbn [decode_utf8 ascii_text]. rewrite Hx.
  now rewrite (IH Hb).
Qed.

Lemma encode_ascii_text b :
  is_ascii_bytes b = true -> encode_ascii (ascii_text b) = Ok b.
Proof.
  induction b as [|x b IH]; [reflexivity|].
  cbn [is_ascii_bytes forallb]. intros H.
  apply andb_true_iff in H as [Hx Hb].
  cbn [encode_ascii ascii_text]. unfold ord, chr in *.
  apply N.ltb_lt in Hx.
  rewrite N_ascii_embedding by lia.
  apply N.ltb_lt in Hx. rewrite Hx.
  fold (is_ascii_bytes b) in Hb. rewrite (IH Hb).
  now rewrite byte_of_N_to_N.
Qed.

Lemma b64_char_ascii n :
  (n < 64)%N ->
  (Byte.to_N (urlsafe_encode_translation (b64_char n)) <? 128)%N = true.
Proof.
  intros Hn.
  apply (forall_sextet
    (fun n => (Byte.to_N (urlsafe_encode_translation (b64_char n)) <? 128)%N));
    [vm_compute; reflexivity | exact Hn].
Qed.

(** The output of the encoder is ASCII. *)
Lemma urlsafe_b64encode_ascii b : is_ascii_bytes (urlsafe_b64encode b) = true.
Proof.
  unfold urlsafe_b64encode, is_ascii_bytes.
  induction b as [|x|x y|x y z rest IH] using bytes_ind3.
  - reflexivity.
  - pose proof (to_N_lt x).
    cbn [b64encode map forallb].
    rewrite !b64_char_ascii by divmod. reflexivity.
  - pose proof (to_N_lt x). pose proof (to_N_lt y).
    cbn [b64encode map forallb].
    rewrite !b64_char_ascii by divmod. reflexivity.
  - pose proof (to_N_lt x). pose proof (to_N_lt y). pose proof (to_N_lt z).
    cbn [b64encode map forallb].
    rewrite !b64_char_ascii by divmod. exact IH.
Qed.

(** ** The queue payload model *)

Section DelivererFacts.

Variable urlparse_scheme : string -> result string.


(** The encoder of the [bytes] field never fails. *)
Lemma encode_bytes_field_ok v :
  Deliverer.encode_bytes_field v = Ok (ascii_text (urlsafe_b64encode v)).
Proof.
  unfold Deliverer.encode_bytes_field, bytes_decode.
  now rewrite decode_utf8_ascii by apply urlsafe_b64encode_ascii.
Qed.

(** The validator of [payload] undoes the encoder. *)
Lemma decode_payload_encoded v :
  Deliverer.decode_payload_to_bytes (JStr (ascii_text (urlsafe_b64encode v)))
  = Ok v.
Proof.
  unfold Deliverer.decode_payload_to_bytes, urlsafe_b64decode_str.
  rewrite encode_ascii_text by apply urlsafe_b64encode_ascii.
  apply urlsafe_b64decode_encode.
Qed.

(** A constructed instance carries the scheme of its own [service.url]. *)
Lemma init_scheme data p :
  Deliverer.OutboundPayload_init urlparse_scheme data = Ok p ->
  urlparse_scheme (Deliverer.url (Deliverer.service p))
  = Ok (Deliverer.endpoint_scheme p).
Proof.
  unfold Deliverer.OutboundPayload_init. intros H.
  destruct (Deliverer.required "service" _ data) as [s|e]; [|discriminate].
  destruct (Deliverer.required "payload" _ data) as [b|e]; [|discriminate].
  destruct (Deliverer.optional "retries" _ _ data) as [r|e]; [|discriminate].
  destruct (urlparse_scheme (Deliverer.url s)) as [sc|e] eqn:E; [|discriminate].
  injection H as <-. exact E.
Qed.

(** What [to_bytes] writes. *)
Lemma to_bytes_text p :
  Deliverer.to_bytes p
  = Ok (encode_utf8 (json_dumps
      (JObj [("service", JObj [("url", JStr (Deliverer.url (Deliverer.service p)))]);
             ("payload", JStr (ascii_text (urlsafe_b64encode (Deliverer.payload p))));
             ("retries", JNum (Deliverer.retries p))]))).
Proof.
  unfold Deliverer.to_bytes, Deliverer.to_json.
  now rewrite encode_bytes_field_ok.
Qed.

(** Reading back what [to_bytes] wrote gives the instance again, when its
    scheme is the scheme of its URL. *)
Lemma from_bytes_to_bytes p b :
  urlparse_scheme (Deliverer.url (Deliverer.service p))
  = Ok (Deliverer.endpoint_scheme p) ->
  Deliverer.to_bytes p = Ok b ->
  Deliverer.from_bytes urlparse_scheme b = Ok p.
Proof.
  intros Hs Hb. rewrite to_bytes_text in Hb.
  remember (JObj _) as v eqn:Ev in Hb. injection Hb as <-.
  unfold Deliverer.from_bytes.
  rewrite bytes_decode_encode, json_loads_dumps by (subst v; reflexivity).
  subst v.
  unfold Deliverer.OutboundPayload_init.
  unfold Deliverer.required at 2.
  cbn [dict_get String.eqb Ascii.eqb Bool.eqb].
  rewrite decode_payload_encoded.
  cbn. rewrite Hs.
  destruct p as [[u] pl r sc]. reflexivity.
Qed.

(** C1.  For every instance [p] the constructor accepts, whatever its URL,
    payload bytes and retry count, [to_bytes] returns a byte string and
    [from_bytes] of it returns an instance with the same [service.url],
    the same [payload] bytes, the same [retries] and the same, re-derived,
    [endpoint_scheme]. *)
Theorem from_bytes_to_bytes_roundtrip data p :
  Deliverer.OutboundPayload_init urlparse_scheme data = Ok p ->
  exists b p',
    Deliverer.to_bytes p = Ok b /\
    Deliverer.from_bytes urlparse_scheme b = Ok p' /\
    Deliverer.url (Deliverer.service p') = Deliverer.url (Deliverer.service p) /\
    Deliverer.payload p' = Deliverer.payload p /\
    Deliverer.retries p' = Deliverer.retries p /\
    Deliverer.endpoint_scheme p' = Deliverer.endpoint_scheme p.
Proof.
  intros Hp. apply init_scheme in Hp.
  eexists. exists p. split; [apply to_bytes_text|].
  split; [|repeat split].
  apply from_bytes_to_bytes; [exact Hp | apply to_bytes_text].
Qed.

End DelivererFacts.

Example sample_outbound_init :
  Deliverer.OutboundPayload_init Deliverer.urlsplit_scheme sample_outbound
  = Ok {| Deliverer.service := {| Deliverer.url := "https://example.org/ep" |};
          Deliverer.payload :=
            [x68; x65; x6c; x6c; x6f; x3f; x3f; x3e; x3e];
          Deliverer.retries := 2;
          Deliverer._endpoint_scheme := "https" |}.
Proof. vm_compute. reflexivity. Qed.

Example sample_schemes :
  map Deliverer.urlsplit_scheme
      ["https://example.org/ep"; "didcomm:transport/queue"; "/no/scheme"]
  = [Ok "https"; Ok "didcomm"; Ok EmptyString].
Proof. vm_compute. reflexivity. Qed.

Lemma from_bytes_to_bytes_roundtrip_witness :
  exists p,
    Deliverer.OutboundPayload_init Deliverer.urlsplit_scheme sample_outbound
    = Ok p /\
    exists b p',
      Deliverer.to_bytes p = Ok b /\
      Deliverer.from_bytes Deliverer.urlsplit_scheme b = Ok p' /\
      Deliverer.url (Deliverer.service p') = Deliverer.url (Deliverer.service p) /\
      Deliverer.payload p' = Deliverer.payload p /\
      Deliverer.retries p' = Deliverer.retries p /\
      Deliverer.endpoint_scheme p' = Deliverer.endpoint_scheme p.
Proof.
  eexists. split.
  - exact sample_outbound_init.
  - apply (from_bytes_to_bytes_roundtrip Deliverer.urlsplit_scheme
             sample_outbound).
    exact sample_outbound_init.
Defined.

(** ** Dictionaries and [str.replace] *)

Lemma dict_get_set_same k v d : dict_get k (dict_set k v d) = Some v.
Proof.
  induction d as [|[k' v'] d IH]; cbn.
  - now rewrite String.eqb_refl.
  - destruct (String.eqb k k') eqn:E; cbn; rewrite E; [reflexivity | exact IH].
Qed.

Lemma dict_get_set_other k k' v d :
  String.eqb k' k = false -> dict_get k' (dict_set k v d) = dict_get k' d.
Proof.
  intros Hk. induction d as [|[k0 v0] d IH]; cbn.
  - now rewrite Hk.
  - destruct (String.eqb k k0) eqn:E; cbn.
    + apply String.eqb_eq in E. subst k0. now rewrite Hk.
    + now rewrite IH.
Qed.

Example replace_event_topic :
  str_replace "::" "-" "acapy::record::present_proof::presentation_received"
  = "acapy-record-present_proof-presentation_received".
Proof. reflexivity. Qed.

Example replace_broker_topic :
  str_replace "-" "::" "acapy-inbound-message" = "acapy::inbound::message".
Proof. reflexivity. Qed.

(** Only whole occurrences are replaced, from the left: three colons are
    one separator and one colon. *)
Example replace_three_colons :
  str_replace "::" "-" "a:::b" = "a-:b".
Proof. reflexivity. Qed.

Lemma replace_colons_head r :
  startswith ":" r = false ->
  startswith ":" (replace_from "::" "-" 0 r) = false.
Proof.
  destruct r as [|c r]; [reflexivity|].
  cbn [startswith replace_from]. rewrite andb_true_r. intros Hc.
  rewrite Hc. cbn [andb startswith]. now rewrite Hc.
Qed.

(** After the replacement no [::] is left. *)
Lemma replace_colons_none_left s :
  str_contains "::" (str_replace "::" "-" s) = false.
Proof.
  unfold str_replace.
  enough (H : str_contains "::" (replace_from "::" "-" 0 s) = false /\
              str_contains "::" (replace_from "::" "-" 0 (drop 1 s)) = false)
    by apply H.
  induction s as [|c s [IH0 IH1]]; [split; reflexivity|].
  split; [|exact IH0].
  cbn [replace_from].
  destruct (startswith "::" (String c s)) eqn:Em.
  - cbn [String.length Nat.sub append].
    assert (Hskip : replace_from "::" "-" 1 s
                    = replace_from "::" "-" 0 (drop 1 s))
      by (destruct s; reflexivity).
    rewrite Hskip. cbn [str_contains startswith Ascii.eqb Bool.eqb andb orb].
    exact IH1.
  - cbn [str_contains]. rewrite IH0, orb_false_r.
    cbn [startswith] in *.
    destruct (Ascii.eqb ":" c); [|reflexivity].
    cbn [andb] in *. destruct s as [|c' s']; [reflexivity|].
    apply replace_colons_head. cbn [startswith] in *.
    now rewrite andb_true_r in *.
Qed.

(** ** The fixed-pattern bridge *)

(** A run of the handler on an event whose payload is a mapping: one call
    of [send_and_wait], a normal return whatever the broker answers, the
    failure logged, and the mapping in the store extended. *)
Lemma fixed_handle_event_run br profile event d w :
  producer_bound profile = true ->
  heap w (KafkaQueue.payload event) = JObj d ->
  let out := KafkaQueue.handle_event br profile event w in
  let record := fixed_record profile event d in
  fst out = Ok tt /\
  send_calls (snd out) = (send_calls w ++ [record])%list /\
  delivered (snd out)
  = match send_fault br (send_calls w) record with
    | None => (delivered w ++ [record])%list
    | Some _ => delivered w
    end /\
  (forall e, send_fault br (send_calls w) record = Some e ->
     exists pre text,
       log (snd out)
       = (pre ++ [{| log_level := ERROR; log_text := text;
                     log_args := [LExc e] |}])%list) /\
  (forall ref,
     heap (snd out) ref
     = if Nat.eqb ref (KafkaQueue.payload event)
       then fixed_payload profile d else heap w ref) /\
  bus (snd out) = bus w.
Proof.
  intros Hb Hd out record. subst out record.
  unfold KafkaQueue.handle_event, bind, inject_producer, try_except, load,
    lift, store, logger, ret, send_and_wait.
  rewrite Hb. cbn [heap send_calls delivered log bus]. rewrite Hd.
  cbn [py_setitem heap send_calls delivered log bus].
  fold (fixed_payload profile d). fold (fixed_record profile event d).
  destruct (send_fault br (send_calls w) (fixed_record profile event d))
    as [e|] eqn:Ef; cbn [fst snd heap send_calls delivered log bus].
  - repeat split; try reflexivity.
    intros e' He'. injection He' as <-. eexists. eexists. reflexivity.
  - repeat split; try reflexivity. intros e' He'. discriminate He'.
Qed.

Example sample_fixed_publish :
  send_calls (snd (KafkaQueue.handle_event healthy_broker sample_profile
                     sample_fixed_event sample_world))
  = [{| rec_topic := "acapy-record-present_proof-presentation_received";
        rec_value :=
          encode_utf8
            (q "{'state': 'presentation_received', 'wallet_id': 'wallet-1'}");
        rec_key := None |}].
Proof. vm_compute. reflexivity. Qed.

(** C4.  The fixed-pattern handler, run on an event whose payload is a
    mapping [d], asks the producer to send exactly one record: its topic
    is the topic of the event with every [::] replaced by [-], its value
    is the JSON text of [d] extended with the field [wallet_id], which
    holds the [wallet.id] setting of the profile ([None] when the setting
    is absent), and it has no key. *)
Theorem fixed_handle_event_publish br profile event d w :
  producer_bound profile = true ->
  heap w (KafkaQueue.payload event) = JObj d ->
  exists payload,
    send_calls (snd (KafkaQueue.handle_event br profile event w))
    = (send_calls w ++
       [{| rec_topic := str_replace "::" "-" (KafkaQueue.topic event);
           rec_value := encode_utf8 (json_dumps (JObj payload));
           rec_key := None |}])%list /\
    dict_get "wallet_id" payload
    = Some (match wallet_id (settings profile) with
            | Some w => JStr w
            | None => JNull
            end) /\
    (forall k, String.eqb k "wallet_id" = false ->
               dict_get k payload = dict_get k d) /\
    str_contains "::" (str_replace "::" "-" (KafkaQueue.topic event)) = false.
Proof.
  intros Hb Hd.
  destruct (fixed_handle_event_run br profile event d w Hb Hd)
    as (_ & Hs & _).
  exists (dict_set "wallet_id" (wallet_setting profile) d).
  split; [exact Hs|]. split; [apply dict_get_set_same|].
  split; [|apply replace_colons_none_left].
  intros k Hk. now apply dict_get_set_other.
Qed.

Lemma fixed_handle_event_publish_witness :
  exists payload,
    send_calls (snd (KafkaQueue.handle_event healthy_broker sample_profile
                       sample_fixed_event sample_world))
    = ([] ++
       [{| rec_topic := "acapy-record-present_proof-presentation_received";
           rec_value := encode_utf8 (json_dumps (JObj payload));
           rec_key := None |}])%list /\
    dict_get "wallet_id" payload = Some (JStr "wallet-1") /\
    (forall k, String.eqb k "wallet_id" = false ->
               dict_get k payload
               = dict_get k [("state", JStr "presentation_received")]) /\
    str_contains "::" "acapy-record-present_proof-presentation_received" = false.
Proof.
  exact (fixed_handle_event_publish healthy_broker sample_profile
           sample_fixed_event [("state", JStr "presentation_received")]
           sample_world eq_refl eq_refl).
Defined.

(** *** The inbound loop *)

Lemma consume_cons msg msgs v w :
  json_loads_bytes (msg_value msg) = Some v ->
  KafkaQueue.consume (msg :: msgs) w
  = KafkaQueue.consume msgs
      {| heap := heap w; send_calls := send_calls w; delivered := delivered w;
         log := log w; bus := (bus w ++ [reinjected msg v])%list |}.
Proof.
  intros H. cbn [KafkaQueue.consume].
  unfold bind, lift, KafkaQueue.loads_value, notify. now rewrite H.
Qed.

Lemma consume_good msgs : forall values w,
  Forall2 (fun msg v => json_loads_bytes (msg_value msg) = Some v) msgs values ->
  let out := KafkaQueue.consume msgs w in
  fst out = Ok tt /\
  bus (snd out) = (bus w ++ map (fun mv => reinjected (fst mv) (snd mv))
                                (combine msgs values))%list /\
  send_calls (snd out) = send_calls w /\
  heap (snd out) = heap w.
Proof.
  induction msgs as [|msg msgs IH]; intros values w H; inversion H; subst.
  - cbn. rewrite app_nil_r. repeat split.
  - match goal with Hv : json_loads_bytes _ = Some ?y |- _ =>
      rename Hv into Hmsg end.
    match goal with Hr : Forall2 _ msgs ?l |- _ => rename Hr into Hrest end.
    rewrite (consume_cons _ _ _ _ Hmsg).
    match goal with |- context [KafkaQueue.consume msgs ?w1] =>
      destruct (IH _ w1 Hrest) as (Hr & Hbus & Hs & Hh) end.
    cbn zeta in *. cbn [bus send_calls heap] in *.
    split; [exact Hr|]. split; [|split; assumption].
    rewrite Hbus. cbn [combine map fst snd]. now rewrite <- app_assoc.
Qed.


Lemma subscribed_match incoming :
  Forall (fun msg => KafkaQueue.INBOUND_PATTERN (msg_topic msg) = true)
         (KafkaQueue.subscribed incoming).
Proof.
  apply Forall_forall. intros msg Hin.
  apply filter_In in Hin. apply Hin.
Qed.

Example sample_consume :
  bus (snd (KafkaQueue.consume (KafkaQueue.subscribed sample_records)
              empty_world))
  = [("acapy::inbound::message",
      JObj [("@type", JStr "ping"); ("n", JNum 1)]);
     ("acapy::inbound::message", JArr [JNum 2])].
Proof. vm_compute. reflexivity. Qed.

(** C5.  The inbound loop of the fixed-pattern bridge, run on the records
    a consumer subscribed to [acapy-inbound-.*] delivers, each with a
    value that is JSON: the loop ends normally and has given the bus one
    notification for each record, in the order of delivery, under the
    topic of the record with every [-] replaced by [::] and with the
    parsed value as payload; every record it handled is of a topic that
    matches the pattern. *)
Theorem consume_reinjects incoming values w :
  Forall2 (fun msg v => json_loads_bytes (msg_value msg) = Some v)
          (KafkaQueue.subscribed incoming) values ->
  let out := KafkaQueue.consume (KafkaQueue.subscribed incoming) w in
  fst out = Ok tt /\
  bus (snd out)
  = (bus w ++
     map (fun mv => (str_replace "-" "::" (msg_topic (fst mv)), snd mv))
         (combine (KafkaQueue.subscribed incoming) values))%list /\
  Forall (fun msg => KafkaQueue.INBOUND_PATTERN (msg_topic msg) = true)
         (KafkaQueue.subscribed incoming) /\
  str_replace "-" "::" "acapy-inbound-message" = "acapy::inbound::message".
Proof.
  intros H out.
  destruct (consume_good _ values w H) as (Hr & Hbus & _).
  split; [exact Hr|]. split; [exact Hbus|].
  split; [apply subscribed_match | reflexivity].
Qed.

Lemma consume_reinjects_witness :
  let out := KafkaQueue.consume (KafkaQueue.subscribed sample_records)
                                empty_world in
  fst out = Ok tt /\
  bus (snd out)
  = ([] ++
     map (fun mv => (str_replace "-" "::" (msg_topic (fst mv)), snd mv))
         (combine (KafkaQueue.subscribed sample_records)
                  [JObj [("@type", JStr "ping"); ("n", JNum 1)];
                   JArr [JNum 2]]))%list /\
  Forall (fun msg => KafkaQueue.INBOUND_PATTERN (msg_topic msg) = true)
         (KafkaQueue.subscribed sample_records) /\
  str_replace "-" "::" "acapy-inbound-message" = "acapy::inbound::message".
Proof.
  apply (consume_reinjects sample_records
           [JObj [("@type", JStr "ping"); ("n", JNum 1)]; JArr [JNum 2]]
           empty_world).
  repeat constructor.
Defined.

(** ** The configurable bridge *)

Example derive_category_samples :
  map Events._derive_category
      ["acapy::record::connections::active"; "acapy::record::connections";
       "acapy::record::"; "acapy::webhook::{topic}"; "acapy::webhook::topic";
       "acapy::outbound::message"]
  = [JStr "connections"; JStr "connections"; JStr EmptyString; JStr "webhook";
     JNull; JNull].
Proof. reflexivity. Qed.

(** The category of a record topic is the name that follows the prefix. *)
Lemma derive_category_record name rest :
  str_contains ":" name = false ->
  Events._derive_category ("acapy::record::" ++ name ++ "::" ++ rest)
  = JStr name.
Proof.
  intros Hn. unfold Events._derive_category, Events.RECORD_RE.
  cbn [append startswith Ascii.eqb Bool.eqb andb drop]. f_equal.
  induction name as [|c name IH]; [reflexivity|].
  cbn [str_contains startswith] in Hn. rewrite andb_true_r in Hn.
  apply orb_false_iff in Hn as [Hc Hn].
  cbn [append Events.no_colon_prefix].
  rewrite Ascii.eqb_sym, Hc. now rewrite IH.
Qed.

Lemma py_get_state d : py_get (JObj d) "state" = Ok (state_of d).
Proof. unfold py_get, state_of. now destruct (dict_get "state" d). Qed.

(** The handler never writes to the object store. *)
Lemma events_heap_unchanged br profile event w :
  heap (snd (Events.handle_event br profile event w)) = heap w.
Proof.
  unfold Events.handle_event, bind, try_except, load, lift, logger,
    Events.with_producer, send_and_wait.
  cbn [heap send_calls delivered log bus].
  destruct (py_get _ "state") as [state|e]; [|reflexivity].
  destruct (Events.topic_maps_get _ _) as [template|e]; [|reflexivity].
  destruct (Template_substitute _ _) as [kafka_topic|e]; [|reflexivity].
  cbn [heap send_calls delivered log bus].
  destruct (new_fault br _); [reflexivity|].
  destruct (start_fault br _); [reflexivity|].
  destruct (send_fault br _ _); cbn [heap send_calls delivered log bus];
    destruct (stop_fault br _); reflexivity.
Qed.

(** A run on an event whose payload is a mapping returns normally and
    makes at most one call of [send_and_wait]. *)
Lemma events_handle_event_returns br profile event d w :
  heap w (Events.payload event) = JObj d ->
  let out := Events.handle_event br profile event w in
  fst out = Ok tt /\
  (send_calls (snd out) = send_calls w \/
   exists kafka_topic,
     send_calls (snd out)
     = (send_calls w ++ [events_record profile event d kafka_topic])%list).
Proof.
  intros Hd out. subst out.
  unfold Events.handle_event, bind, try_except, load, lift, logger,
    Events.with_producer, send_and_wait.
  cbn [heap send_calls delivered log bus]. rewrite Hd.
  rewrite py_get_state. fold (events_config_of profile).
  fold (events_payload profile event d).
  destruct (Events.topic_maps_get _ _) as [template|e]; [|split; auto].
  destruct (Template_substitute _ _) as [kafka_topic|e]; [|split; auto].
  cbn [heap send_calls delivered log bus].
  fold (events_record profile event d kafka_topic).
  destruct (new_fault br _); [split; auto|].
  destruct (start_fault br _); [split; auto|].
  destruct (send_fault br _ _); cbn [heap send_calls delivered log bus];
    destruct (stop_fault br _); cbn [fst snd send_calls];
    (split; [reflexivity | right; exists kafka_topic; reflexivity]).
Qed.

(** Without an entry for the pattern nothing is sent, and the lookup
    error is logged. *)
Lemma events_handle_event_unmapped br profile event d w e :
  heap w (Events.payload event) = JObj d ->
  Events.topic_maps_get (Events.pattern event)
                        (topic_maps (events_config_of profile)) = Raise e ->
  let out := Events.handle_event br profile event w in
  send_calls (snd out) = send_calls w /\
  delivered (snd out) = delivered w /\
  logged_error e (snd out).
Proof.
  intros Hd Hm out. subst out.
  unfold Events.handle_event, bind, try_except, load, lift, logger.
  cbn [heap send_calls delivered log bus]. rewrite Hd.
  rewrite py_get_state. fold (events_config_of profile). rewrite Hm.
  cbn [snd send_calls delivered]. repeat split.
  eexists. eexists. reflexivity.
Qed.

(** A template that cannot be rendered has the same effect. *)
Lemma events_handle_event_unrendered br profile event d w template e :
  heap w (Events.payload event) = JObj d ->
  Events.topic_maps_get (Events.pattern event)
                        (topic_maps (events_config_of profile)) = Ok template ->
  Template_substitute template (events_payload profile event d) = Raise e ->
  let out := Events.handle_event br profile event w in
  send_calls (snd out) = send_calls w /\
  delivered (snd out) = delivered w /\
  logged_error e (snd out).
Proof.
  intros Hd Hm Ht out. subst out.
  unfold Events.handle_event, bind, try_except, load, lift, logger.
  cbn [heap send_calls delivered log bus]. rewrite Hd.
  rewrite py_get_state. fold (events_config_of profile).
  fold (events_payload profile event d). rewrite Hm, Ht.
  cbn [snd send_calls delivered]. repeat split.
  eexists. eexists. reflexivity.
Qed.

(** With an entry that renders and a producer that starts, the record is
    handed to the producer; a failure of the send is logged. *)
Lemma events_handle_event_sends br profile event d w template kafka_topic :
  heap w (Events.payload event) = JObj d ->
  Events.topic_maps_get (Events.pattern event)
                        (topic_maps (events_config_of profile)) = Ok template ->
  Template_substitute template (events_payload profile event d)
  = Ok kafka_topic ->
  new_fault br (producer_conf (events_config_of profile)) = None ->
  start_fault br (send_calls w) = None ->
  let out := Events.handle_event br profile event w in
  let record := events_record profile event d kafka_topic in
  send_calls (snd out) = (send_calls w ++ [record])%list /\
  delivered (snd out)
  = match send_fault br (send_calls w) record with
    | None => (delivered w ++ [record])%list
    | Some _ => delivered w
    end /\
  (forall e, send_fault br (send_calls w) record = Some e ->
             stop_fault br (send_calls w ++ [record])%list = None ->
             logged_error e (snd out)).
Proof.
  intros Hd Hm Ht Hn Hs out record. subst out record.
  unfold Events.handle_event, bind, try_except, load, lift, logger,
    Events.with_producer, send_and_wait.
  cbn [heap send_calls delivered log bus]. rewrite Hd.
  rewrite py_get_state. fold (events_config_of profile).
  fold (events_payload profile event d). rewrite Hm, Ht.
  cbn [heap send_calls delivered log bus].
  fold (events_record profile event d kafka_topic).
  rewrite Hn, Hs.
  destruct (send_fault br _ _) as [e|]; cbn [heap send_calls delivered log bus];
    destruct (stop_fault br _) as [e'|] eqn:Est;
    cbn [fst snd send_calls delivered log]; repeat split;
    intros e0 He0 Hst; try discriminate.
  injection He0 as <-. eexists. eexists. reflexivity.
Qed.

Example sample_events_publish :
  send_calls (snd (Events.handle_event healthy_broker
                     (sample_events_profile (Some "wallet-1"))
                     sample_events_event
                     (world_with (JObj [("state", JStr "active")]))))
  = [{| rec_topic := "connections-active";
        rec_value :=
          encode_utf8
            (q "{'wallet_id': 'wallet-1', 'state': 'active', 'topic': 'acapy::record::connections::active', 'category': 'connections', 'payload': {'state': 'active'}}");
        rec_key := Some (encode_utf8 "wallet-1") |}].
Proof. vm_compute. reflexivity. Qed.

(** C6.  In the configurable handler, run on an event for which a
    record is published (the payload is a mapping, the topic map has a
    template for the pattern, the template renders and the producer
    starts): when the [wallet.id] setting is absent the payload object
    holds [wallet_id] with the string [base] and the record has no key;
    when the setting is a non-empty string the payload holds that string
    and the key of the record is its encoding. *)
Theorem events_wallet_id_and_key br profile event d w template kafka_topic :
  heap w (Events.payload event) = JObj d ->
  Events.topic_maps_get (Events.pattern event)
                        (topic_maps (events_config_of profile)) = Ok template ->
  Template_substitute template (events_payload profile event d)
  = Ok kafka_topic ->
  new_fault br (producer_conf (events_config_of profile)) = None ->
  start_fault br (send_calls w) = None ->
  exists payload key,
    send_calls (snd (Events.handle_event br profile event w))
    = (send_calls w ++
       [{| rec_topic := kafka_topic;
           rec_value := encode_utf8 (json_dumps (JObj payload));
           rec_key := key |}])%list /\
    (wallet_id (settings profile) = None ->
     dict_get "wallet_id" payload = Some (JStr "base") /\ key = None) /\
    (forall wid,
       wallet_id (settings profile) = Some wid -> wid <> EmptyString ->
       dict_get "wallet_id" payload = Some (JStr wid) /\
       key = Some (encode_utf8 wid)).
Proof.
  intros Hd Hm Ht Hn Hs.
  destruct (events_handle_event_sends br profile event d w template
              kafka_topic Hd Hm Ht Hn Hs) as (Hsend & _).
  exists (events_payload profile event d),
         (Events.wallet_key (wallet_id (settings profile))).
  split; [exact Hsend|].
  unfold events_payload, Events.build_payload.
  change (dict_get "wallet_id" (("wallet_id", ?v) :: _)) with (Some v).
  split.
  - intros ->. split; reflexivity.
  - intros wid -> Hne. destruct wid; [contradiction|]. split; reflexivity.
Qed.

Lemma events_wallet_id_and_key_witness :
  exists payload key,
    send_calls (snd (Events.handle_event healthy_broker
                       (sample_events_profile None) sample_events_event
                       (world_with (JObj [("state", JStr "active")]))))
    = ([] ++
       [{| rec_topic := "connections-active";
           rec_value := encode_utf8 (json_dumps (JObj payload));
           rec_key := key |}])%list /\
    (@None string = None ->
     dict_get "wallet_id" payload = Some (JStr "base") /\ key = None) /\
    (forall wid,
       None = Some wid -> wid <> EmptyString ->
       dict_get "wallet_id" payload = Some (JStr wid) /\
       key = Some (encode_utf8 wid)).
Proof.
  exact (events_wallet_id_and_key healthy_broker (sample_events_profile None)
           sample_events_event [("state", JStr "active")]
           (world_with (JObj [("state", JStr "active")]))
           "${category}-${state}" "connections-active"
           eq_refl eq_refl eq_refl eq_refl eq_refl).
Defined.

(** The same handler with the setting present. *)
Example sample_events_key_present :
  map rec_key
      (send_calls (snd (Events.handle_event healthy_broker
                          (sample_events_profile (Some "wallet-1"))
                          sample_events_event
                          (world_with (JObj [("state", JStr "active")])))))
  = [Some (encode_utf8 "wallet-1")].
Proof. vm_compute. reflexivity. Qed.

(** Counterexample to C7 as it is stated.  The state of the rendered
    topic is the [state] of the payload, not the last part of the event
    topic: for an event of topic [acapy::record::connections::active]
    and the template [${category}-${state}], a payload without [state]
    renders [connections-None], a payload with another state renders
    that state. *)
Lemma events_state_comes_from_payload :
  map rec_topic
      (send_calls (snd (Events.handle_event healthy_broker
                          (sample_events_profile None) sample_events_event
                          (world_with (JObj [])))))
  = ["connections-None"] /\
  map rec_topic
      (send_calls (snd (Events.handle_event healthy_broker
                          (sample_events_profile None) sample_events_event
                          (world_with (JObj [("state", JStr "completed")])))))
  = ["connections-completed"] /\
  "connections-None" <> "connections-active" /\
  "connections-completed" <> "connections-active".
Proof. repeat split; try (vm_compute; reflexivity); discriminate. Qed.

(** C7, amended.  In the configurable handler, for an event of topic
    [acapy::record::connections::active] whose payload is a mapping with
    [state] equal to the string [active], and whose pattern the topic
    map sends to the template [${category}-${state}]: the category is
    [connections] and, the producer having started, the record is sent
    to the topic [connections-active]. *)
Theorem events_connections_active_topic br profile event d w :
  Events.topic event = "acapy::record::connections::active" ->
  heap w (Events.payload event) = JObj d ->
  dict_get "state" d = Some (JStr "active") ->
  Events.topic_maps_get (Events.pattern event)
                        (topic_maps (events_config_of profile))
  = Ok "${category}-${state}" ->
  new_fault br (producer_conf (events_config_of profile)) = None ->
  start_fault br (send_calls w) = None ->
  Events._derive_category (Events.topic event) = JStr "connections" /\
  map rec_topic (send_calls (snd (Events.handle_event br profile event w)))
  = (map rec_topic (send_calls w) ++ ["connections-active"])%list.
Proof.
  intros Htopic Hd Hstate Hm Hn Hs.
  assert (Ht : Template_substitute "${category}-${state}"
                 (events_payload profile event d) = Ok "connections-active").
  { unfold events_payload, state_of. rewrite Htopic, Hstate. reflexivity. }
  destruct (events_handle_event_sends br profile event d w _ _ Hd Hm Ht Hn Hs)
    as (Hsend & _).
  split; [now rewrite Htopic|].
  rewrite Hsend, map_app. reflexivity.
Qed.

Lemma events_connections_active_topic_witness :
  Events._derive_category (Events.topic sample_events_event)
  = JStr "connections" /\
  map rec_topic
      (send_calls (snd (Events.handle_event healthy_broker
                          (sample_events_profile None) sample_events_event
                          (world_with (JObj [("state", JStr "active")])))))
  = (map rec_topic [] ++ ["connections-active"])%list.
Proof.
  exact (events_connections_active_topic healthy_broker
           (sample_events_profile None) sample_events_event
           [("state", JStr "active")]
           (world_with (JObj [("state", JStr "active")]))
           eq_refl eq_refl eq_refl eq_refl eq_refl eq_refl).
Defined.

(** ** Both bridges *)

Example sample_fixed_failure :
  let out := KafkaQueue.handle_event failing_broker sample_profile
               sample_fixed_event sample_world in
  fst out = Ok tt /\ List.length (send_calls (snd out)) = 1 /\
  delivered (snd out) = [] /\
  map log_level (log (snd out)) = [INFO; INFO; ERROR].
Proof. vm_compute. repeat split. Qed.

Example sample_events_unmapped :
  let out := Events.handle_event healthy_broker (sample_events_profile None)
               unmapped_event (world_with (JObj [])) in
  fst out = Ok tt /\ send_calls (snd out) = [] /\
  map log_args (log (snd out))
  = [[LStr "acapy::record::connections::active"];
     [LExc (KeyError "acapy::record::credentials::.*")]].
Proof. vm_compute. repeat split. Qed.

(** C8.  Both handlers, run on an event whose payload is a mapping (and,
    for the fixed-pattern one, with the producer bound): whatever the
    broker does, the handler returns normally; it calls [send_and_wait]
    once at most, so nothing is tried again; an exception of the send is
    logged; in the configurable handler a pattern without an entry in
    the topic map, and a template that does not render, are logged as
    well and no record is sent. *)
Theorem handlers_swallow_failures br profile fixed_event events_event d1 d2 w :
  producer_bound profile = true ->
  heap w (KafkaQueue.payload fixed_event) = JObj d1 ->
  heap w (Events.payload events_event) = JObj d2 ->
  let out1 := KafkaQueue.handle_event br profile fixed_event w in
  let out2 := Events.handle_event br profile events_event w in
  let maps := topic_maps (events_config_of profile) in
  (fst out1 = Ok tt /\
   List.length (send_calls (snd out1)) = S (List.length (send_calls w)) /\
   (forall e,
      send_fault br (send_calls w) (fixed_record profile fixed_event d1)
      = Some e ->
      logged_error e (snd out1) /\ delivered (snd out1) = delivered w)) /\
  (fst out2 = Ok tt /\
   List.length (send_calls (snd out2)) <= S (List.length (send_calls w)) /\
   (forall e,
      Events.topic_maps_get (Events.pattern events_event) maps = Raise e ->
      send_calls (snd out2) = send_calls w /\ logged_error e (snd out2)) /\
   (forall template e,
      Events.topic_maps_get (Events.pattern events_event) maps = Ok template ->
      Template_substitute template (events_payload profile events_event d2)
      = Raise e ->
      send_calls (snd out2) = send_calls w /\ logged_error e (snd out2)) /\
   (forall template kafka_topic e,
      Events.topic_maps_get (Events.pattern events_event) maps = Ok template ->
      Template_substitute template (events_payload profile events_event d2)
      = Ok kafka_topic ->
      new_fault br (producer_conf (events_config_of profile)) = None ->
      start_fault br (send_calls w) = None ->
      let record := events_record profile events_event d2 kafka_topic in
      send_fault br (send_calls w) record = Some e ->
      stop_fault br (send_calls w ++ [record])%list = None ->
      logged_error e (snd out2) /\ delivered (snd out2) = delivered w)).
Proof.
  intros Hb Hd1 Hd2 out1 out2 maps. subst out1 out2 maps. split.
  - destruct (fixed_handle_event_run br profile fixed_event d1 w Hb Hd1)
      as (Hr & Hs & Hdel & Hlog & _).
    split; [exact Hr|]. split.
    + rewrite Hs, length_app. cbn. lia.
    + intros e He. split; [exact (Hlog e He)|]. now rewrite Hdel, He.
  - destruct (events_handle_event_returns br profile events_event d2 w Hd2)
      as (Hr & Hs).
    split; [exact Hr|]. split; [|split; [|split]].
    + destruct Hs as [-> | (kt & ->)]; [lia|].
      rewrite length_app. cbn. lia.
    + intros e He.
      destruct (events_handle_event_unmapped br profile events_event d2 w e
                  Hd2 He) as (H1 & _ & H3). now split.
    + intros template e Hm Ht.
      destruct (events_handle_event_unrendered br profile events_event d2 w
                  template e Hd2 Hm Ht) as (H1 & _ & H3). now split.
    + intros template kafka_topic e Hm Ht Hn Hst record He Hstop.
      destruct (events_handle_event_sends br profile events_event d2 w
                  template kafka_topic Hd2 Hm Ht Hn Hst) as (_ & Hdel & Hlog).
      split; [exact (Hlog e He Hstop)|].
      fold record in Hdel. now rewrite Hdel, He.
Qed.

Lemma handlers_swallow_failures_witness :
  let br := failing_broker in
  let profile :=
    {| settings := settings (sample_events_profile None);
       producer_bound := true |} in
  let w := world_with (JObj [("state", JStr "active")]) in
  let out1 := KafkaQueue.handle_event br profile sample_fixed_event w in
  let out2 := Events.handle_event br profile unmapped_event w in
  fst out1 = Ok tt /\ fst out2 = Ok tt /\
  List.length (send_calls (snd out1)) = 1 /\
  List.length (send_calls (snd out2)) <= 1.
Proof.
  intros br profile w out1 out2.
  destruct (handlers_swallow_failures br profile sample_fixed_event
              unmapped_event [("state", JStr "active")]
              [("state", JStr "active")] w eq_refl eq_refl eq_refl)
    as ((H1 & H2 & _) & (H3 & H4 & _)).
  repeat split; assumption.
Defined.

(** C10.  The fixed-pattern handler writes the field [wallet_id] into the
    mapping the event refers to, in the store: after the run, whatever
    the broker answered, whoever reads the payload of the same event
    finds the extended mapping, and no other object has changed.  The
    configurable handler builds its payload apart and leaves every
    object of the store, the payload of the event among them, as it
    was. *)
Theorem payload_mutation_frame br profile fixed_event events_event d w :
  producer_bound profile = true ->
  heap w (KafkaQueue.payload fixed_event) = JObj d ->
  let out1 := KafkaQueue.handle_event br profile fixed_event w in
  let out2 := Events.handle_event br profile events_event w in
  (heap (snd out1) (KafkaQueue.payload fixed_event)
   = JObj (dict_set "wallet_id" (wallet_setting profile) d) /\
   fst (load (KafkaQueue.payload fixed_event) (snd out1))
   = Ok (JObj (dict_set "wallet_id" (wallet_setting profile) d)) /\
   (forall ref, ref <> KafkaQueue.payload fixed_event ->
                heap (snd out1) ref = heap w ref)) /\
  (forall ref, heap (snd out2) ref = heap w ref) /\
  heap (snd out2) (Events.payload events_event)
  = heap w (Events.payload events_event).
Proof.
  intros Hb Hd out1 out2. subst out1 out2.
  destruct (fixed_handle_event_run br profile fixed_event d w Hb Hd)
    as (_ & _ & _ & _ & Hheap & _).
  split; [|split].
  - split; [|split].
    + rewrite Hheap, Nat.eqb_refl. reflexivity.
    + unfold load. cbn [fst]. rewrite Hheap, Nat.eqb_refl. reflexivity.
    + intros ref Hne. rewrite Hheap.
      apply Nat.eqb_neq in Hne. now rewrite Hne.
  - intros ref. now rewrite events_heap_unchanged.
  - now rewrite events_heap_unchanged.
Qed.

Lemma payload_mutation_frame_witness :
  let w := world_with (JObj [("state", JStr "active")]) in
  let out1 := KafkaQueue.handle_event failing_broker sample_profile
                sample_fixed_event w in
  let out2 := Events.handle_event failing_broker sample_profile
                sample_events_event w in
  heap (snd out1) 0
  = JObj [("state", JStr "active"); ("wallet_id", JStr "wallet-1")] /\
  heap (snd out2) 0 = JObj [("state", JStr "active")].
Proof.
  intros w out1 out2.
  destruct (payload_mutation_frame failing_broker sample_profile
              sample_fixed_event sample_events_event
              [("state", JStr "active")] w eq_refl eq_refl)
    as ((H1 & _) & _ & H2).
  split; [exact H1 | exact H2].
Defined.

(** A later subscriber of the same event: the configurable handler, run
    after the fixed-pattern one on the same payload reference, publishes
    a payload that already holds the field the first handler added. *)
Example second_subscriber_sees_wallet_id :
  let w := world_with (JObj [("state", JStr "active")]) in
  let w1 := snd (KafkaQueue.handle_event healthy_broker sample_profile
                   sample_fixed_event w) in
  let profile2 := sample_events_profile (Some "wallet-1") in
  map rec_value
      (send_calls (snd (Events.handle_event healthy_broker profile2
                          sample_events_event
                          {| heap := heap w1; send_calls := [];
                             delivered := []; log := []; bus := [] |})))
  = [encode_utf8
       (q "{'wallet_id': 'wallet-1', 'state': 'active', 'topic': 'acapy::record::connections::active', 'category': 'connections', 'payload': {'state': 'active', 'wallet_id': 'wallet-1'}}")].
Proof. vm_compute. reflexivity. Qed.

(** ** The relay *)

Example relay_sample_tokens :
  map (fun b => fst (Relay.receive_message None healthy_broker b empty_world))
      [body_two_recipients; body_one_recipient; body_empty_kid;
       body_accented_kid; body_no_recipients; body_no_protected;
       body_not_json]
  = [Ok {| Relay.status_code := 200; Relay.body := [] |};
     Ok {| Relay.status_code := 200; Relay.body := [] |};
     Raise IndexError;
     Raise UnicodeDecodeError;
     Raise IndexError;
     Raise (KeyError "protected");
     Raise (ValueError "Invalid packed message")].
Proof. vm_compute. reflexivity. Qed.

Example relay_sample_keys :
  map (fun b => map rec_key
     (send_calls (snd (Relay.receive_message None healthy_broker b empty_world))))
      [body_two_recipients; body_one_recipient]
  = [[Some (encode_utf8 "A,B")]; [Some (encode_utf8 "did:key:abc")]].
Proof. vm_compute. reflexivity. Qed.

Lemma recipients_of_packed body items :
  packed body (JArr items) ->
  Relay._recipients_from_packed_message body
  = rmap Relay.recipient_kid items.
Proof.
  intros (wrapper & protected & raw & text & outer
          & H1 & H2 & H3 & H4 & H5 & H6).
  unfold Relay._recipients_from_packed_message.
  rewrite H1, H2, H3, H4, H5, H6. reflexivity.
Qed.

Lemma rmap_kids items : forall kids,
  Forall2 (fun item kid => Relay.recipient_kid item = Ok (JStr kid))
          items kids ->
  rmap Relay.recipient_kid items = Ok (map JStr kids).
Proof.
  induction items as [|item items IH]; intros kids H; inversion H; subst.
  - reflexivity.
  - cbn [rmap map].
    match goal with Hk : Relay.recipient_kid item = _ |- _ => rewrite Hk end.
    now rewrite (IH _ ltac:(eassumption)).
Qed.

Lemma rmap_as_str kids : rmap as_str (map JStr kids) = Ok kids.
Proof.
  induction kids as [|k kids IH]; [reflexivity|].
  cbn [map rmap as_str]. now rewrite IH.
Qed.

Lemma join_recipients_kids kids :
  Relay.join_recipients (map JStr kids)
  = Ok (encode_utf8 (str_join "," kids)).
Proof. unfold Relay.join_recipients. now rewrite rmap_as_str. Qed.

Lemma bytes_first_encode s :
  s <> EmptyString -> exists n, bytes_first (encode_utf8 s) = Ok n.
Proof.
  destruct s as [|c s]; [contradiction|]. intros _.
  cbn [encode_utf8]. unfold utf8_char.
  destruct (ord c <? 128)%N; cbn; eexists; reflexivity.
Qed.

(** A run of the relay once the recipients are known. *)
Lemma receive_message_run env br body kids w :
  Relay._recipients_from_packed_message body = Ok (map JStr kids) ->
  forall out record,
  out = Relay.receive_message env br body w ->
  record = relay_record env body kids ->
  match bytes_first (encode_utf8 (str_join "," kids)) with
  | Raise e =>
      fst out = Raise e /\ send_calls (snd out) = send_calls w /\
      delivered (snd out) = delivered w /\
      List.length (log (snd out)) = S (List.length (log w))
  | Ok _ =>
      send_calls (snd out) = (send_calls w ++ [record])%list /\
      match send_fault br (send_calls w) record with
      | None =>
          fst out = Ok {| Relay.status_code := 200; Relay.body := [] |} /\
          delivered (snd out) = (delivered w ++ [record])%list
      | Some e => fst out = Raise e /\ delivered (snd out) = delivered w
      end
  end.
Proof.
  intros Hk out record -> ->.
  unfold Relay.receive_message, bind, lift, logger, send_and_wait, ret.
  cbn [heap send_calls delivered log bus].
  rewrite Hk, join_recipients_kids.
  destruct (bytes_first _) as [n|e];
    cbn [fst snd heap send_calls delivered log bus].
  - fold (relay_record env body kids).
    destruct (send_fault br _ _);
      cbn [fst snd heap send_calls delivered log bus]; repeat split.
  - repeat split. rewrite length_app. cbn. lia.
Qed.

(** Counterexample to C2 as it is stated.  A packed message with one
    recipient whose [kid] is the empty string: the joined key is empty
    and the request fails on [recips[0]].  A packed message whose
    [protected] field decodes to JSON (as UTF-8) with a [kid] that is not
    ASCII: the request fails on [.decode("ascii")].  Neither is
    published. *)
Lemma relay_rejects_empty_and_accented_kid :
  packed body_empty_kid (JArr [JObj [("header", JObj [("kid", JStr EmptyString)])]]) /\
  (let out := Relay.receive_message None healthy_broker body_empty_kid
                empty_world in
   fst out = Raise IndexError /\ send_calls (snd out) = [] /\
   Relay.http_status (fst out) = 500%Z) /\
  (exists raw,
     Relay.b64_to_bytes
       (JStr "eyJyZWNpcGllbnRzIjpbeyJoZWFkZXIiOnsia2lkIjoiw6kifX1dfQ") true
     = Ok raw /\
     json_loads_bytes raw
     = Some (JObj [("recipients",
                    JArr [JObj [("header",
                                 JObj [("kid", JStr (str1 (chr 233)))])]])])) /\
  (let out := Relay.receive_message None healthy_broker body_accented_kid
                empty_world in
   fst out = Raise UnicodeDecodeError /\ send_calls (snd out) = [] /\
   Relay.http_status (fst out) = 500%Z).
Proof.
  split; [|split; [|split]].
  - unfold packed. do 5 eexists. repeat split; vm_compute; reflexivity.
  - vm_compute. repeat split.
  - eexists. split; vm_compute; reflexivity.
  - vm_compute. repeat split.
Qed.

(** C2, amended.  For a body that is a packed message whose [protected]
    field decodes to ASCII JSON with a list of recipients, each with a
    string [header.kid], when the identifiers joined by commas are not
    the empty string: the relay hands the producer one record, with the
    configured inbound topic, the raw body as value and the encoded
    joined identifiers as key; when the broker acknowledges it the
    answer is 200 with an empty body, and when the send raises the
    request fails.  Two recipients [A] and [B] give the key [A,B]. *)
Theorem relay_publishes_keyed_body env br body items kids w :
  packed body (JArr items) ->
  Forall2 (fun item kid => Relay.recipient_kid item = Ok (JStr kid))
          items kids ->
  str_join "," kids <> EmptyString ->
  let out := Relay.receive_message env br body w in
  let record :=
    {| rec_topic := Relay.INBOUND_TOPIC env;
       rec_value := body;
       rec_key := Some (encode_utf8 (str_join "," kids)) |} in
  send_calls (snd out) = (send_calls w ++ [record])%list /\
  (send_fault br (send_calls w) record = None ->
   fst out = Ok {| Relay.status_code := 200; Relay.body := [] |} /\
   Relay.http_status (fst out) = 200%Z /\
   delivered (snd out) = (delivered w ++ [record])%list) /\
  (forall e, send_fault br (send_calls w) record = Some e ->
             fst out = Raise e /\ delivered (snd out) = delivered w) /\
  encode_utf8 (str_join "," ["A"; "B"]) = encode_utf8 "A,B".
Proof.
  intros Hp Hk Hne out record.
  pose proof (recipients_of_packed body items Hp) as Hr.
  rewrite (rmap_kids items kids Hk) in Hr.
  pose proof (receive_message_run env br body kids w Hr out record
                eq_refl eq_refl) as Hrun.
  destruct (bytes_first_encode _ Hne) as (n & Hn).
  rewrite Hn in Hrun.
  destruct Hrun as (Hs & Hf).
  split; [exact Hs|].
  destruct (send_fault br (send_calls w) record) as [e|].
  - destruct Hf as (H1 & H2). repeat split.
    + discriminate.
    + discriminate.
    + discriminate.
    + injection H as <-. exact H1.
    + exact H2.
  - destruct Hf as (H1 & H2). repeat split.
    + exact H1.
    + now rewrite H1.
    + exact H2.
    + discriminate.
    + discriminate.
Qed.

Lemma relay_publishes_keyed_body_witness :
  let out := Relay.receive_message None healthy_broker body_two_recipients
               empty_world in
  let record :=
    {| rec_topic := "acapy-inbound-message";
       rec_value := body_two_recipients;
       rec_key := Some (encode_utf8 "A,B") |} in
  send_calls (snd out) = [record] /\
  fst out = Ok {| Relay.status_code := 200; Relay.body := [] |}.
Proof.
  intros out record.
  assert (Hp : packed body_two_recipients
                 (JArr [JObj [("header", JObj [("kid", JStr "A")])];
                        JObj [("header", JObj [("kid", JStr "B")])]])).
  { unfold packed. do 5 eexists. repeat split; vm_compute; reflexivity. }
  destruct (relay_publishes_keyed_body None healthy_broker
              body_two_recipients _ ["A"; "B"] empty_world Hp
              ltac:(repeat constructor) ltac:(discriminate))
    as (Hs & Hok & _).
  split; [exact Hs|]. apply (Hok eq_refl).
Defined.

(** Counterexample to C3 as it is stated.  The error for an envelope
    without [protected] is a lookup error; the error for a body that is
    not JSON is a [ValueError]: they are not of the same class. *)
Lemma relay_missing_protected_is_not_value_error :
  json_loads_bytes body_no_protected
  = Some (JObj [("ciphertext", JStr "abc")]) /\
  fst (Relay.receive_message None healthy_broker body_no_protected empty_world)
  = Raise (KeyError "protected") /\
  is_ValueError (KeyError "protected") = false /\
  fst (Relay.receive_message None healthy_broker body_not_json empty_world)
  = Raise (ValueError "Invalid packed message") /\
  is_ValueError (ValueError "Invalid packed message") = true.
Proof. repeat split; vm_compute; reflexivity. Qed.

(** C3, amended.  For a body that is valid JSON without a [protected]
    field, the relay fails with the error of the failed subscript, a
    [KeyError] for an object and a [TypeError] for any other value,
    neither of them a [ValueError]; the client gets a server error, and
    [send_and_wait] is not called. *)
Theorem relay_missing_protected env br body wrapper w :
  json_loads_bytes body = Some wrapper ->
  (forall x, py_getitem wrapper "protected" <> Ok x) ->
  let out := Relay.receive_message env br body w in
  exists e,
    fst out = Raise e /\
    (e = KeyError "protected" \/ e = TypeError) /\
    ((exists d, wrapper = JObj d) -> e = KeyError "protected") /\
    is_ValueError e = false /\
    Relay.http_status (fst out) = 500%Z /\
    send_calls (snd out) = send_calls w /\
    delivered (snd out) = delivered w.
Proof.
  intros Hj Hp out. subst out.
  unfold Relay.receive_message, bind, lift, logger,
    Relay._recipients_from_packed_message.
  cbn [heap send_calls delivered log bus]. rewrite Hj.
  destruct (py_getitem wrapper "protected") as [x|e] eqn:E;
    [exfalso; exact (Hp x eq_refl)|].
  exists e. cbn [fst snd send_calls delivered].
  assert (He : (e = KeyError "protected" \/ e = TypeError) /\
               ((exists d, wrapper = JObj d) -> e = KeyError "protected")).
  { unfold py_getitem in E.
    destruct wrapper as [|b|n|s|l|d];
      try (injection E as <-; split; [now right | intros (d' & Hd'); discriminate]).
    destruct (dict_get "protected" d); [discriminate|].
    injection E as <-. split; [now left | reflexivity]. }
  destruct He as (He1 & He2).
  repeat split; try assumption.
  destruct He1 as [-> | ->]; reflexivity.
Qed.

Lemma relay_missing_protected_witness :
  let out := Relay.receive_message None healthy_broker body_no_protected
               empty_world in
  exists e,
    fst out = Raise e /\ is_ValueError e = false /\
    send_calls (snd out) = [].
Proof.
  intros out.
  destruct (relay_missing_protected None healthy_broker body_no_protected
              (JObj [("ciphertext", JStr "abc")]) empty_world)
    as (e & H1 & _ & _ & H2 & _ & H3 & _).
  - vm_compute. reflexivity.
  - intros x H. vm_compute in H. discriminate H.
  - exists e. repeat split; assumption.
Defined.

(** Every record the relay publishes has a key with at least one byte. *)
Lemma relay_never_empty_key env br body w :
  let out := Relay.receive_message env br body w in
  send_calls (snd out) = send_calls w \/
  exists key b rest,
    send_calls (snd out)
    = (send_calls w ++ [{| rec_topic := Relay.INBOUND_TOPIC env;
                           rec_value := body;
                           rec_key := Some key |}])%list /\
    key = b :: rest.
Proof.
  intros out. subst out.
  unfold Relay.receive_message, bind, lift, logger, send_and_wait, ret.
  cbn [heap send_calls delivered log bus].
  destruct (Relay._recipients_from_packed_message body) as [kids|e];
    [|left; reflexivity].
  destruct (Relay.join_recipients kids) as [[|b rest]|e];
    try (left; reflexivity).
  cbn [bytes_first heap send_calls delivered log bus]. right.
  exists (b :: rest), b, rest.
  destruct (send_fault br _ _); cbn [snd send_calls]; split; reflexivity.
Qed.

(** C9.  For a body that is a packed message with an empty list of
    recipients, the joined key is the empty byte string, its first byte
    is asked for when the info line is built, and the relay fails with
    [IndexError]: the client gets a server error, only the debug line
    has been logged, and [send_and_wait] has not been called. *)
Theorem relay_empty_recipients env br body w :
  packed body (JArr []) ->
  let out := Relay.receive_message env br body w in
  Relay.join_recipients [] = Ok [] /\
  bytes_first [] = Raise IndexError /\
  fst out = Raise IndexError /\
  Relay.http_status (fst out) = 500%Z /\
  send_calls (snd out) = send_calls w /\
  delivered (snd out) = delivered w /\
  List.length (log (snd out)) = S (List.length (log w)).
Proof.
  intros Hp out.
  pose proof (recipients_of_packed body [] Hp) as Hr.
  pose proof (receive_message_run env br body [] w Hr out _
                eq_refl eq_refl) as Hrun.
  cbn [str_join String.concat encode_utf8 bytes_first] in Hrun.
  destruct Hrun as (H1 & H2 & H3 & H4).
  repeat split; try assumption. now rewrite H1.
Qed.

Lemma relay_empty_recipients_witness :
  let out := Relay.receive_message None healthy_broker body_no_recipients
               empty_world in
  fst out = Raise IndexError /\ send_calls (snd out) = [].
Proof.
  intros out.
  assert (Hp : packed body_no_recipients (JArr [])).
  { unfold packed. do 5 eexists. repeat split; vm_compute; reflexivity. }
  destruct (relay_empty_recipients None healthy_broker body_no_recipients
              empty_world Hp) as (_ & _ & H1 & _ & H2 & _).
  split; [exact H1 | exact H2].
Defined.

(** * Further properties

    ** The relay: padding repair *)

Lemma encode_char_not_pad n :
  (n < 64)%N ->
  negb (Byte.eqb (urlsafe_encode_translation (b64_char n)) PAD) = true.
Proof.
  intros Hn.
  apply (forall_sextet
    (fun n => negb (Byte.eqb (urlsafe_encode_translation (b64_char n)) PAD)));
    [vm_compute; reflexivity | exact Hn].
Qed.

(** Restoring the padding of the unpadded text gives the padded text. *)
Lemma repair_unpadded b : repair_padding (unpadded_b64 b) = urlsafe_b64encode b.
Proof.
  unfold unpadded_b64, urlsafe_b64encode, repair_padding.
  induction b as [|x|x y|x y z rest IH] using bytes_ind3.
  - reflexivity.
  - pose proof (to_N_lt x).
    cbn [b64encode map filter].
    rewrite !encode_char_not_pad by divmod. reflexivity.
  - pose proof (to_N_lt x). pose proof (to_N_lt y).
    cbn [b64encode map filter].
    rewrite !encode_char_not_pad by divmod. reflexivity.
  - pose proof (to_N_lt x). pose proof (to_N_lt y). pose proof (to_N_lt z).
    cbn [b64encode map filter].
    rewrite !encode_char_not_pad by divmod.
    cbn [List.length].
    match goal with |- context [filter ?p ?l] => set (u := filter p l) in * end.
    replace (S (S (S (S (List.length u)))) mod 4)
      with (List.length u mod 4)
      by (replace (S (S (S (S (List.length u)))))
            with (List.length u + 1 * 4) by lia;
          now rewrite Nat.Div0.mod_add).
    destruct (Nat.eqb (List.length u mod 4) 0).
    + now rewrite IH.
    + cbn [app]. now rewrite IH.
Qed.

Lemma padded_length b : List.length (urlsafe_b64encode b) mod 4 = 0.
Proof.
  unfold urlsafe_b64encode.
  induction b as [|x|x y|x y z rest IH] using bytes_ind3; try reflexivity.
  cbn [b64encode map List.length].
  match goal with |- context [List.length ?l] => set (n := List.length l) in * end.
  replace (S (S (S (S n)))) with (n + 1 * 4) by lia.
  now rewrite Nat.Div0.mod_add.
Qed.

Lemma is_ascii_filter p b :
  is_ascii_bytes b = true -> is_ascii_bytes (filter p b) = true.
Proof.
  unfold is_ascii_bytes. induction b as [|x b IH]; [reflexivity|].
  cbn [forallb filter]. intros H. apply andb_true_iff in H as [Hx Hb].
  destruct (p x); cbn [forallb]; rewrite ?Hx; auto.
Qed.

(** X1.  [b64_to_bytes(val, urlsafe=True)] undoes the URL-safe encoding
    of every byte string, whether the text comes with its padding or
    without it. *)
Theorem b64_to_bytes_restores_padding b :
  Relay.b64_to_bytes (JStr (ascii_text (unpadded_b64 b))) true = Ok b /\
  Relay.b64_to_bytes (JStr (ascii_text (urlsafe_b64encode b))) true = Ok b.
Proof.
  unfold Relay.b64_to_bytes. split.
  - rewrite encode_ascii_text
      by (apply is_ascii_filter, urlsafe_b64encode_ascii).
    fold (repair_padding (unpadded_b64 b)).
    rewrite repair_unpadded. apply urlsafe_b64decode_encode.
  - rewrite encode_ascii_text by apply urlsafe_b64encode_ascii.
    rewrite padded_length. cbn [Nat.eqb]. apply urlsafe_b64decode_encode.
Qed.

Example b64_to_bytes_samples :
  map (fun s => Relay.b64_to_bytes (JStr s) true)
      ["aGk"; "aGk="; "aGV5"; "a"; "a b"; "aGk" ++ str1 (chr 233)]
  = [Ok [x68; x69]; Ok [x68; x69]; Ok [x68; x65; x79];
     Raise BinasciiError; Raise BinasciiError; Raise UnicodeEncodeError]
  /\ Relay.b64_to_bytes (JNum 3) true = Raise TypeError.
Proof. split; vm_compute; reflexivity. Qed.

(** ** The relay: what an answer says about the broker *)

Lemma app_one_neq {A} (l : list A) (x : A) : (l ++ [x])%list <> l.
Proof.
  intros H. apply (f_equal (@List.length A)) in H.
  rewrite length_app in H. cbn in H. lia.
Qed.

(** X2.  Whatever the body and whatever the broker does: when the relay
    answers, the answer is 200 with an empty body and exactly one record
    has been sent and acknowledged, with the configured topic, the body
    as it was received as value and a key of at least one byte; when the
    relay fails, no record has been acknowledged and one call of
    [send_and_wait] has been made at most. *)
Theorem relay_answer_means_delivered env br body w :
  let out := Relay.receive_message env br body w in
  (forall resp, fst out = Ok resp ->
     resp = {| Relay.status_code := 200; Relay.body := [] |} /\
     exists b rest,
       let record := {| rec_topic := Relay.INBOUND_TOPIC env;
                        rec_value := body;
                        rec_key := Some (b :: rest) |} in
       send_calls (snd out) = (send_calls w ++ [record])%list /\
       delivered (snd out) = (delivered w ++ [record])%list) /\
  (forall e, fst out = Raise e ->
     delivered (snd out) = delivered w /\
     List.length (send_calls (snd out)) <= S (List.length (send_calls w))).
Proof.
  intros out. subst out.
  unfold Relay.receive_message, bind, lift, logger, send_and_wait, ret.
  cbn [heap send_calls delivered log bus].
  destruct (Relay._recipients_from_packed_message body) as [kids|e0].
  2:{ split; [intros resp H; discriminate H|].
      intros e _. cbn. split; [reflexivity | lia]. }
  destruct (Relay.join_recipients kids) as [[|b rest]|e0];
    cbn [bytes_first heap send_calls delivered log bus].
  - split; [intros resp H; discriminate H|].
    intros e _. cbn. split; [reflexivity | lia].
  - destruct (send_fault br _ _) as [e0|];
      cbn [fst snd heap send_calls delivered log bus].
    + split; [intros resp H; discriminate H|].
      intros e _. split; [reflexivity|]. rewrite length_app. cbn. lia.
    + split; [|intros e H; discriminate H].
      intros resp [= <-]. split; [reflexivity|].
      exists b, rest. split; reflexivity.
  - split; [intros resp H; discriminate H|].
    intros e _. cbn. split; [reflexivity | lia].
Qed.

(** ** The relay and the inbound loop *)

Lemma recipients_need_json body kids :
  Relay._recipients_from_packed_message body = Ok kids ->
  exists wrapper, json_loads_bytes body = Some wrapper.
Proof.
  unfold Relay._recipients_from_packed_message.
  destruct (json_loads_bytes body) as [wrapper|]; [|discriminate].
  intros _. now exists wrapper.
Qed.

(** X3.  With the default inbound topic, a record the relay has had
    acknowledged is one the inbound loop of the fixed-pattern bridge
    takes and can read: its topic matches [INBOUND_PATTERN], its value is
    JSON, and the loop, given the record, ends normally after it has
    notified the bus under [acapy::inbound::message] with the parsed
    envelope. *)
Theorem relay_record_is_consumable br body w record w2 :
  delivered (snd (Relay.receive_message None br body w))
  = (delivered w ++ [record])%list ->
  exists wrapper,
    json_loads_bytes body = Some wrapper /\
    KafkaQueue.subscribed [as_consumed record] = [as_consumed record] /\
    let out := KafkaQueue.consume
                 (KafkaQueue.subscribed [as_consumed record]) w2 in
    fst out = Ok tt /\
    bus (snd out) = (bus w2 ++ [("acapy::inbound::message", wrapper)])%list.
Proof.
  intros Hd.
  assert (Hrec : exists kids key,
    Relay._recipients_from_packed_message body = Ok kids /\
    record = {| rec_topic := "acapy-inbound-message"; rec_value := body;
                rec_key := Some key |}).
  { revert Hd.
    unfold Relay.receive_message, bind, lift, logger, send_and_wait, ret.
    cbn [heap send_calls delivered log bus].
    destruct (Relay._recipients_from_packed_message body) as [kids|e0];
      [|cbn; intros H; symmetry in H; now apply app_one_neq in H].
    destruct (Relay.join_recipients kids) as [[|b rest]|e0];
      cbn [bytes_first heap send_calls delivered log bus];
      try (cbn; intros H; symmetry in H; now apply app_one_neq in H).
    destruct (send_fault br _ _) as [e0|];
      cbn [fst snd heap send_calls delivered log bus];
      [intros H; symmetry in H; now apply app_one_neq in H|].
    intros H. apply app_inj_tail in H as [_ H].
    exists kids, (b :: rest). split; [reflexivity | now symmetry]. }
  destruct Hrec as (kids & key & Hk & ->).
  destruct (recipients_need_json body kids Hk) as (wrapper & Hw).
  exists wrapper. split; [exact Hw|]. split; [reflexivity|].
  cbn [KafkaQueue.subscribed filter as_consumed rec_topic rec_value msg_topic].
  change (KafkaQueue.INBOUND_PATTERN "acapy-inbound-message") with true.
  cbn iota.
  destruct (consume_good [{| msg_topic := "acapy-inbound-message";
                             msg_value := body |}] [wrapper] w2)
    as (H1 & H2 & _).
  { constructor; [exact Hw | constructor]. }
  split; [exact H1 | exact H2].
Qed.

Lemma relay_record_is_consumable_witness :
  exists wrapper,
    json_loads_bytes body_one_recipient = Some wrapper /\
    bus (snd (KafkaQueue.consume
                (KafkaQueue.subscribed
                   [as_consumed (relay_record None body_one_recipient
                                              ["did:key:abc"])])
                empty_world))
    = [("acapy::inbound::message", wrapper)].
Proof.
  destruct (relay_record_is_consumable healthy_broker body_one_recipient
              empty_world
              (relay_record None body_one_recipient ["did:key:abc"])
              empty_world)
    as (wrapper & H1 & _ & _ & H2).
  - vm_compute. reflexivity.
  - exists wrapper. split; [exact H1 | exact H2].
Defined.

(** ** The relay: what it refuses *)



(** ** The fixed-pattern bridge: what is not caught *)

(** X4.  In the fixed-pattern handler the producer is looked up and the
    payload is written before the [try] block: with no producer bound
    the handler raises [InjectionError], and with a payload that is not
    a mapping it raises [TypeError]; the exception leaves the handler,
    nothing is sent and the store is as it was. *)
Theorem fixed_handle_event_propagates br profile event w :
  producer_bound profile = false \/
  (forall d, heap w (KafkaQueue.payload event) <> JObj d) ->
  let out := KafkaQueue.handle_event br profile event w in
  (producer_bound profile = false -> fst out = Raise InjectionError) /\
  (producer_bound profile = true -> fst out = Raise TypeError) /\
  send_calls (snd out) = send_calls w /\
  (forall ref, heap (snd out) ref = heap w ref).
Proof.
  intros H out. subst out.
  unfold KafkaQueue.handle_event, bind, inject_producer, try_except, load,
    lift, store, logger, ret, raise.
  destruct (producer_bound profile) eqn:Hb.
  - destruct H as [H|H]; [discriminate|].
    cbn [heap send_calls delivered log bus].
    destruct (heap w (KafkaQueue.payload event)) as [|b|n|s|l|d] eqn:E;
      try (cbn; repeat split; intros; discriminate || reflexivity).
    exfalso. exact (H d eq_refl).
  - cbn. repeat split; intros; discriminate || reflexivity.
Qed.

Lemma fixed_handle_event_propagates_witness :
  fst (KafkaQueue.handle_event healthy_broker sample_profile
         sample_fixed_event (world_with (JArr [])))
  = Raise TypeError /\
  fst (KafkaQueue.handle_event healthy_broker sample_fixed_profile_unbound
         sample_fixed_event sample_world)
  = Raise InjectionError.
Proof.
  split.
  - apply (fixed_handle_event_propagates healthy_broker sample_profile
             sample_fixed_event (world_with (JArr []))).
    + right. intros d H. discriminate H.
    + reflexivity.
  - apply (fixed_handle_event_propagates healthy_broker
             sample_fixed_profile_unbound sample_fixed_event sample_world).
    + left. reflexivity.
    + reflexivity.
Defined.

(** ** The fixed-pattern bridge: out and back in *)

(** Replacing [::] by [-] and then [-] by [::] gives back a text that
    had no [-]. *)
Lemma replace_there_and_back s :
  str_contains "-" s = false ->
  str_replace "-" "::" (str_replace "::" "-" s) = s.
Proof.
  unfold str_replace.
  enough (H : (str_contains "-" s = false ->
               replace_from "-" "::" 0 (replace_from "::" "-" 0 s) = s) /\
              (str_contains "-" s = false ->
               replace_from "-" "::" 0 (replace_from "::" "-" 0 (drop 1 s))
               = drop 1 s))
    by apply H.
  induction s as [|c s [IH0 IH1]]; [split; reflexivity|].
  split.
  2:{ intros H. apply IH0. cbn [str_contains] in H.
      now apply orb_false_iff in H. }
  intros H. cbn [str_contains startswith] in H.
  rewrite andb_true_r in H. apply orb_false_iff in H as [Hc Hs].
  cbn [replace_from].
  destruct (startswith "::" (String c s)) eqn:Em.
  - cbn [String.length Nat.sub append].
    assert (Hskip : replace_from "::" "-" 1 s
                    = replace_from "::" "-" 0 (drop 1 s))
      by (destruct s; reflexivity).
    rewrite Hskip.
    cbn [replace_from startswith Ascii.eqb Bool.eqb andb String.length
         Nat.sub append].
    rewrite (IH1 Hs).
    cbn [startswith] in Em. apply andb_true_iff in Em as [E1 E2].
    apply Ascii.eqb_eq in E1. subst c.
    destruct s as [|c' s']; [discriminate|].
    apply andb_true_iff in E2 as [E2 _]. apply Ascii.eqb_eq in E2. subst c'.
    reflexivity.
  - cbn [replace_from startswith]. rewrite Hc. cbn [andb].
    now rewrite (IH0 Hs).
Qed.

Lemma dict_get_wf k d v :
  wf_json (JObj d) = true -> dict_get k d = Some v -> wf_json v = true.
Proof.
  cbn [wf_json]. intros H. apply andb_true_iff in H as [_ H].
  induction d as [|[k' v'] d IH]; [discriminate|].
  cbn in H |- *. apply andb_true_iff in H as [Hv Hd].
  destruct (String.eqb k k').
  - now intros [= <-].
  - now apply IH.
Qed.

Lemma json_loads_bytes_dumps v :
  wf_json v = true -> json_loads_bytes (encode_utf8 (json_dumps v)) = Some v.
Proof.
  intros H. unfold json_loads_bytes.
  now rewrite decode_encode_utf8, json_loads_dumps.
Qed.

Lemma fixed_payload_wf profile d :
  wf_json (JObj d) = true -> wf_json (fixed_payload profile d) = true.
Proof.
  unfold fixed_payload. cbn [wf_json]. intros H.
  apply andb_true_iff in H as [Hu Hd].
  destruct (dict_set_wf "wallet_id" (wallet_setting profile) d Hu) as (H1 & H2).
  - unfold wallet_setting. now destruct (wallet_id (settings profile)).
  - exact Hd.
  - now rewrite H1, H2.
Qed.

(** X5.  An event handled by the fixed-pattern handler and the record it
    sent, read by the inbound loop: when the topic of the event has no
    [-] and the payload is a well-formed mapping, the loop notifies the
    bus under the topic of the event, with the payload of the event
    extended by [wallet_id]. *)
Theorem fixed_publish_then_consume br profile event d w w2 :
  producer_bound profile = true ->
  heap w (KafkaQueue.payload event) = JObj d ->
  wf_json (JObj d) = true ->
  str_contains "-" (KafkaQueue.topic event) = false ->
  exists record,
    send_calls (snd (KafkaQueue.handle_event br profile event w))
    = (send_calls w ++ [record])%list /\
    let out := KafkaQueue.consume [as_consumed record] w2 in
    fst out = Ok tt /\
    bus (snd out)
    = (bus w2 ++
       [(KafkaQueue.topic event,
         JObj (dict_set "wallet_id" (wallet_setting profile) d))])%list.
Proof.
  intros Hb Hd Hwf Hdash.
  destruct (fixed_handle_event_run br profile event d w Hb Hd)
    as (_ & Hs & _).
  exists (fixed_record profile event d). split; [exact Hs|].
  destruct (consume_good [as_consumed (fixed_record profile event d)]
              [fixed_payload profile d] w2) as (H1 & H2 & _).
  { constructor; [|constructor].
    cbn [as_consumed fixed_record rec_value msg_value].
    apply json_loads_bytes_dumps, fixed_payload_wf, Hwf. }
  split; [exact H1|].
  cbn zeta in H2. rewrite H2.
  cbn [combine map fst snd].
  unfold reinjected, as_consumed, fixed_record.
  cbn [rec_topic msg_topic].
  now rewrite (replace_there_and_back _ Hdash).
Qed.

Lemma fixed_publish_then_consume_witness :
  exists record,
    send_calls (snd (KafkaQueue.handle_event healthy_broker sample_profile
                       sample_fixed_event sample_world))
    = ([] ++ [record])%list /\
    bus (snd (KafkaQueue.consume [as_consumed record] empty_world))
    = [("acapy::record::present_proof::presentation_received",
        JObj [("state", JStr "presentation_received");
              ("wallet_id", JStr "wallet-1")])].
Proof.
  destruct (fixed_publish_then_consume healthy_broker sample_profile
              sample_fixed_event [("state", JStr "presentation_received")]
              sample_world empty_world eq_refl eq_refl eq_refl eq_refl)
    as (record & H1 & _ & H2).
  exists record. split; [exact H1 | exact H2].
Defined.

(** The hypothesis on the topic is needed: a [-] of the event topic comes
    back as [::]. *)
Example dash_in_topic_is_not_restored :
  str_replace "-" "::" (str_replace "::" "-" "acapy::record::present-proof")
  = "acapy::record::present::proof".
Proof. reflexivity. Qed.



(** ** The fixed-pattern bridge: no way back out *)

Lemma startswith_split p : forall t,
  startswith p t = true -> exists r, t = p ++ r.
Proof.
  induction p as [|a p IH]; intros t H.
  - now exists t.
  - destruct t as [|c t]; [discriminate|].
    cbn [startswith] in H. apply andb_true_iff in H as [Ha Hp].
    apply Ascii.eqb_eq in Ha. subst c.
    destruct (IH t Hp) as (r & ->). now exists r.
Qed.

Lemma inbound_topic_translated t :
  KafkaQueue.INBOUND_PATTERN t = true ->
  startswith "acapy::inbound::" (str_replace "-" "::" t) = true.
Proof.
  unfold KafkaQueue.INBOUND_PATTERN. intros H.
  apply startswith_split in H as (r & ->). reflexivity.
Qed.

Lemma inbound_prefix_not_handled t :
  startswith "acapy::inbound::" t = true ->
  KafkaQueuePatterns.handled t = false.
Proof.
  intros H. apply startswith_split in H as (r & ->). reflexivity.
Qed.

(** X7.  What the inbound loop gives to the bus does not come back to the
    handler: for every record of a topic that matches [INBOUND_PATTERN],
    the topic of the notification starts with [acapy::inbound::] and
    none of the four expressions [setup] subscribes [handle_event] with
    matches it. *)
Theorem reinjected_is_not_handled incoming msg :
  In msg (KafkaQueue.subscribed incoming) ->
  let topic := str_replace "-" "::" (msg_topic msg) in
  startswith "acapy::inbound::" topic = true /\
  KafkaQueuePatterns.handled topic = false /\
  Forall (fun pattern => pattern topic = false)
         KafkaQueuePatterns.subscriptions.
Proof.
  intros Hin topic.
  apply filter_In in Hin as [_ Hm].
  pose proof (inbound_topic_translated _ Hm) as Hp.
  pose proof (inbound_prefix_not_handled _ Hp) as Hh.
  split; [exact Hp|]. split; [exact Hh|].
  unfold KafkaQueuePatterns.handled in Hh.
  apply Forall_forall. intros pattern Hpat.
  destruct (pattern topic) eqn:E; [|reflexivity].
  assert (Ht : existsb (fun p => p topic) KafkaQueuePatterns.subscriptions
               = true)
    by (apply existsb_exists; exists pattern; now split).
  fold topic in Hh. rewrite Hh in Ht. discriminate Ht.
Qed.

Lemma reinjected_is_not_handled_witness :
  KafkaQueuePatterns.handled "acapy::inbound::message" = false.
Proof.
  apply (reinjected_is_not_handled sample_records
           {| msg_topic := "acapy-inbound-message";
              msg_value := encode_utf8 (q "[2]") |}).
  vm_compute. right. left. reflexivity.
Defined.

Example pattern_samples :
  map KafkaQueuePatterns.handled
      ["acapy::webhook::ping"; "acapy::basicmessage::received";
       "acapy::outbound::message"; "acapy::outbound::message::x";
       "acapy::record::connections"; "acapy::record::connections::active";
       "acapy::record::connections:active"; "acapy::inbound::message";
       "prefix::acapy::webhook::ping"]
  = [true; true; true; false; true; true; false; false; false].
Proof. reflexivity. Qed.

(** ** The configurable bridge *)

(** X8.  For a record topic, with or without a state, the category is
    the name of the record: [acapy::record::NAME] and
    [acapy::record::NAME::STATE] both give [NAME], for a name without a
    colon, whatever the state. *)
Theorem category_of_record_topic name state :
  str_contains ":" name = false ->
  Events._derive_category ("acapy::record::" ++ name) = JStr name /\
  Events._derive_category ("acapy::record::" ++ name ++ "::" ++ state)
  = JStr name.
Proof.
  intros Hn. split; [|now apply derive_category_record].
  unfold Events._derive_category, Events.RECORD_RE.
  cbn [append startswith Ascii.eqb Bool.eqb andb drop]. f_equal.
  induction name as [|c name IH]; [reflexivity|].
  cbn [str_contains startswith] in Hn. rewrite andb_true_r in Hn.
  apply orb_false_iff in Hn as [Hc Hn].
  cbn [Events.no_colon_prefix].
  rewrite Ascii.eqb_sym, Hc. now rewrite IH.
Qed.

Lemma category_of_record_topic_witness :
  Events._derive_category "acapy::record::connections" = JStr "connections" /\
  Events._derive_category "acapy::record::connections::active"
  = JStr "connections".
Proof.
  exact (category_of_record_topic "connections" "active" eq_refl).
Defined.

Lemma no_colon_prefix_clean s : str_contains ":" (Events.no_colon_prefix s) = false.
Proof.
  induction s as [|c s IH]; [reflexivity|].
  cbn [Events.no_colon_prefix].
  destruct (Ascii.eqb c ":") eqn:E; [reflexivity|].
  cbn [str_contains startswith]. rewrite andb_true_r, IH, orb_false_r.
  now rewrite Ascii.eqb_sym.
Qed.

(** X9.  The category [_derive_category] returns is one segment of a
    topic: it never holds a colon.  It is the text [webhook] only for a
    topic that is not a record topic. *)
Theorem derive_category_is_a_segment t name :
  Events._derive_category t = JStr name ->
  str_contains ":" name = false /\
  (startswith "acapy::record::" t = true ->
   name = Events.no_colon_prefix (drop 15 t)) /\
  (startswith "acapy::record::" t = false ->
   name = "webhook" /\ startswith "acapy::webhook::{" t = true).
Proof.
  unfold Events._derive_category, Events.RECORD_RE, Events.WEBHOOK_RE.
  destruct (startswith "acapy::record::" t).
  - intros [= <-]. split; [apply no_colon_prefix_clean|].
    split; [reflexivity | discriminate].
  - destruct (startswith "acapy::webhook::{" t); cbn [andb].
    + destruct (Events.brace_on_line _); [|discriminate].
      intros [= <-]. split; [reflexivity|].
      split; [discriminate | now split].
    + discriminate.
Qed.

Lemma derive_category_is_a_segment_witness :
  str_contains ":" "connections" = false.
Proof.
  apply (derive_category_is_a_segment
           "acapy::record::connections::active" "connections" eq_refl).
Defined.

(** X10.  In the configurable handler the payload object is built before
    the [try] block: for an event whose payload is not a mapping, the
    call of [get] raises [AttributeError], which leaves the handler;
    nothing is sent and only the first line has been logged. *)
Theorem events_handle_event_propagates br profile event w :
  (forall d, heap w (Events.payload event) <> JObj d) ->
  let out := Events.handle_event br profile event w in
  fst out = Raise AttributeError /\
  send_calls (snd out) = send_calls w /\
  delivered (snd out) = delivered w /\
  List.length (log (snd out)) = S (List.length (log w)).
Proof.
  intros H out. subst out.
  unfold Events.handle_event, bind, try_except, load, lift, logger.
  cbn [heap send_calls delivered log bus].
  destruct (heap w (Events.payload event)) as [|b|n|s|l|d] eqn:E;
    try (cbn; rewrite length_app; cbn; repeat split; lia).
  exfalso. exact (H d eq_refl).
Qed.

Lemma events_handle_event_propagates_witness :
  fst (Events.handle_event healthy_broker (sample_events_profile None)
         sample_events_event (world_with (JStr "text")))
  = Raise AttributeError.
Proof.
  apply (events_handle_event_propagates healthy_broker
           (sample_events_profile None) sample_events_event
           (world_with (JStr "text"))).
  intros d H. discriminate H.
Defined.

Lemma derive_category_wf t : wf_json (Events._derive_category t) = true.
Proof.
  unfold Events._derive_category.
  destruct (Events.RECORD_RE t); [reflexivity|].
  now destruct (Events.WEBHOOK_RE t).
Qed.

Lemma state_of_wf d : wf_json (JObj d) = true -> wf_json (state_of d) = true.
Proof.
  intros H. unfold state_of.
  destruct (dict_get "state" d) as [v|] eqn:E; [|reflexivity].
  exact (dict_get_wf _ _ _ H E).
Qed.

(** X11.  What the configurable handler publishes can be read back: for
    an event with a well-formed mapping as payload, the value of the
    record it sends is JSON text of an object with the five fields
    [wallet_id], [state], [topic], [category] and [payload], in which
    [topic] is the topic of the event, [payload] its payload, unchanged,
    and [state] the [state] of the payload or [None]. *)
Theorem events_published_value_reads_back
  br profile event d w template kafka_topic :
  heap w (Events.payload event) = JObj d ->
  wf_json (JObj d) = true ->
  Events.topic_maps_get (Events.pattern event)
                        (topic_maps (events_config_of profile)) = Ok template ->
  Template_substitute template (events_payload profile event d)
  = Ok kafka_topic ->
  new_fault br (producer_conf (events_config_of profile)) = None ->
  start_fault br (send_calls w) = None ->
  exists record fields,
    send_calls (snd (Events.handle_event br profile event w))
    = (send_calls w ++ [record])%list /\
    json_loads_bytes (rec_value record) = Some (JObj fields) /\
    map fst fields = ["wallet_id"; "state"; "topic"; "category"; "payload"] /\
    dict_get "topic" fields = Some (JStr (Events.topic event)) /\
    dict_get "payload" fields = Some (JObj d) /\
    dict_get "state" fields
    = Some (match dict_get "state" d with Some s => s | None => JNull end).
Proof.
  intros Hd Hwf Hm Ht Hn Hs.
  destruct (events_handle_event_sends br profile event d w template
              kafka_topic Hd Hm Ht Hn Hs) as (Hsend & _).
  exists (events_record profile event d kafka_topic),
         (events_payload profile event d).
  split; [exact Hsend|]. split; [|repeat split].
  cbn [events_record rec_value]. apply json_loads_bytes_dumps.
  unfold events_payload, Events.build_payload.
  cbn [wf_json unique_keys has_key forallb snd String.eqb Ascii.eqb Bool.eqb
       negb orb andb].
  rewrite (state_of_wf d Hwf), derive_category_wf.
  cbn [wf_json] in Hwf. now rewrite Hwf.
Qed.

Lemma events_published_value_reads_back_witness :
  exists record fields,
    send_calls (snd (Events.handle_event healthy_broker
                       (sample_events_profile None) sample_events_event
                       (world_with (JObj [("state", JStr "active")]))))
    = ([] ++ [record])%list /\
    json_loads_bytes (rec_value record) = Some (JObj fields) /\
    dict_get "payload" fields = Some (JObj [("state", JStr "active")]).
Proof.
  destruct (events_published_value_reads_back healthy_broker
              (sample_events_profile None) sample_events_event
              [("state", JStr "active")]
              (world_with (JObj [("state", JStr "active")]))
              "${category}-${state}" "connections-active"
              eq_refl eq_refl eq_refl eq_refl eq_refl eq_refl)
    as (record & fields & H1 & H2 & _ & _ & H3 & _).
  exists record, fields. repeat split; assumption.
Defined.

(** X17.  The configurable handler sends to no topic but the one its
    configuration gives: when a run on an event with a mapping as
    payload has made a call of [send_and_wait], the topic map has a
    template for the pattern of the event, the template renders over the
    payload object, and the topic of the record is the rendered text;
    its value is the JSON text of the payload object. *)
Theorem events_sends_only_to_rendered_topic br profile event d w record :
  heap w (Events.payload event) = JObj d ->
  send_calls (snd (Events.handle_event br profile event w))
  = (send_calls w ++ [record])%list ->
  exists template,
    Events.topic_maps_get (Events.pattern event)
                          (topic_maps (events_config_of profile))
    = Ok template /\
    Template_substitute template (events_payload profile event d)
    = Ok (rec_topic record) /\
    rec_value record
    = encode_utf8 (json_dumps (JObj (events_payload profile event d))) /\
    rec_key record = Events.wallet_key (wallet_id (settings profile)).
Proof.
  intros Hd.
  unfold Events.handle_event, bind, try_except, load, lift, logger,
    Events.with_producer, send_and_wait.
  cbn [heap send_calls delivered log bus]. rewrite Hd.
  rewrite py_get_state. fold (events_config_of profile).
  fold (events_payload profile event d).
  destruct (Events.topic_maps_get _ _) as [template|e] eqn:Em;
    [|cbn; intros H; symmetry in H; now apply app_one_neq in H].
  destruct (Template_substitute _ _) as [kafka_topic|e] eqn:Et;
    [|cbn; intros H; symmetry in H; now apply app_one_neq in H].
  cbn [heap send_calls delivered log bus].
  destruct (new_fault br _);
    [cbn; intros H; symmetry in H; now apply app_one_neq in H|].
  destruct (start_fault br _);
    [cbn; intros H; symmetry in H; now apply app_one_neq in H|].
  destruct (send_fault br _ _); cbn [heap send_calls delivered log bus];
    destruct (stop_fault br _); cbn [fst snd send_calls];
    intros H; apply app_inj_tail in H as [_ <-];
    exists template; repeat split; exact Et.
Qed.

Lemma events_sends_only_to_rendered_topic_witness :
  exists template,
    Events.topic_maps_get "acapy::record::connections::active" sample_maps
    = Ok template /\
    Template_substitute template
      (events_payload (sample_events_profile None) sample_events_event
                      [("state", JStr "active")])
    = Ok "connections-active".
Proof.
  destruct (events_sends_only_to_rendered_topic healthy_broker
              (sample_events_profile None) sample_events_event
              [("state", JStr "active")]
              (world_with (JObj [("state", JStr "active")]))
              (events_record (sample_events_profile None) sample_events_event
                             [("state", JStr "active")] "connections-active")
              eq_refl eq_refl)
    as (template & H1 & H2 & _).
  exists template. split; [exact H1 | exact H2].
Defined.

(** ** The queue payload model: what the constructor refuses and keeps *)

Section DelivererMore.

Variable urlparse_scheme : string -> result string.

(** X12.  The constructor refuses a [payload] that is not a string: the
    validator asserts the type before it decodes, so a number, a list, an
    object, a boolean or [None] given for [payload] ends in a validation
    error, for [payload] itself when [service] is in order. *)
Theorem payload_must_be_a_string data v :
  dict_get "payload" data = Some v ->
  (forall s, v <> JStr s) ->
  Deliverer.decode_payload_to_bytes v = Raise AssertionError /\
  exists field,
    Deliverer.OutboundPayload_init urlparse_scheme data
    = Raise (ValidationError field) /\
    (field = "service" \/ field = "payload") /\
    (forall s, Deliverer.required "service" Deliverer.validate_service data
               = Ok s -> field = "payload").
Proof.
  intros Hv Hs.
  assert (Hdec : Deliverer.decode_payload_to_bytes v = Raise AssertionError).
  { destruct v; try reflexivity. exfalso. exact (Hs _ eq_refl). }
  split; [exact Hdec|].
  unfold Deliverer.OutboundPayload_init.
  assert (Hp : Deliverer.required "payload" Deliverer.decode_payload_to_bytes
                 data = Raise (ValidationError "payload")).
  { unfold Deliverer.required. now rewrite Hv, Hdec. }
  rewrite Hp.
  destruct (Deliverer.required "service" _ data) as [s|e] eqn:Es.
  - exists "payload". split; [reflexivity|]. split; [now right | reflexivity].
  - assert (He : e = ValidationError "service").
    { unfold Deliverer.required in Es.
      destruct (dict_get "service" data) as [x|]; [|now injection Es as <-].
      destruct (Deliverer.validate_service x); [discriminate|].
      now injection Es as <-. }
    subst e. exists "service". split; [reflexivity|].
    split; [now left | discriminate].
Qed.

(** X13.  An instance [from_bytes] returns came from a JSON object: its
    scheme is the scheme of its own URL, its [payload] is what the
    [payload] string of the object decodes to, and its [retries] is 0
    when the object has no [retries]. *)
Theorem from_bytes_reads_an_object value p :
  Deliverer.from_bytes urlparse_scheme value = Ok p ->
  exists text data,
    bytes_decode value = Ok text /\
    json_loads text = Some (JObj data) /\
    urlparse_scheme (Deliverer.url (Deliverer.service p))
    = Ok (Deliverer.endpoint_scheme p) /\
    (exists s, dict_get "payload" data = Some (JStr s) /\
               urlsafe_b64decode_str s = Ok (Deliverer.payload p)) /\
    (dict_get "retries" data = None -> Deliverer.retries p = 0%Z) /\
    (forall n, dict_get "retries" data = Some (JNum n) ->
               Deliverer.retries p = n).
Proof.
  unfold Deliverer.from_bytes. intros H.
  destruct (bytes_decode value) as [text|e]; [|discriminate].
  destruct (json_loads text) as [[|b|n|s|l|data]|] eqn:Ej; try discriminate.
  exists text, data. split; [reflexivity|]. split; [exact Ej|].
  split; [exact (init_scheme urlparse_scheme data p H)|].
  unfold Deliverer.OutboundPayload_init in H.
  destruct (Deliverer.required "service" _ data) as [sv|e]; [|discriminate].
  destruct (Deliverer.required "payload" _ data) as [pl|e] eqn:Ep;
    [|discriminate].
  destruct (Deliverer.optional "retries" _ _ data) as [r|e] eqn:Er;
    [|discriminate].
  destruct (urlparse_scheme (Deliverer.url sv)) as [sc|e]; [|discriminate].
  injection H as <-. cbn [Deliverer.payload Deliverer.retries].
  split; [|split].
  - unfold Deliverer.required in Ep.
    destruct (dict_get "payload" data) as [x|]; [|discriminate].
    destruct x as [| | |s| |]; try discriminate.
    exists s. split; [reflexivity|].
    cbn [Deliverer.decode_payload_to_bytes] in Ep.
    destruct (urlsafe_b64decode_str s); [now injection Ep as <- | discriminate].
  - intros Hn. unfold Deliverer.optional in Er. rewrite Hn in Er.
    now injection Er as <-.
  - intros n Hn. unfold Deliverer.optional in Er. rewrite Hn in Er.
    cbn in Er. now injection Er as <-.
Qed.

End DelivererMore.

Lemma payload_must_be_a_string_witness :
  exists field,
    Deliverer.OutboundPayload_init Deliverer.urlsplit_scheme
      [("service", JObj [("url", JStr "https://example.org/ep")]);
       ("payload", JNum 5)]
    = Raise (ValidationError field).
Proof.
  destruct (payload_must_be_a_string Deliverer.urlsplit_scheme
              [("service", JObj [("url", JStr "https://example.org/ep")]);
               ("payload", JNum 5)] (JNum 5) eq_refl)
    as (_ & field & H & _).
  - intros s H. discriminate H.
  - exists field. exact H.
Defined.

Example wire_without_retries_parsed :
  Deliverer.from_bytes Deliverer.urlsplit_scheme wire_without_retries
  = Ok {| Deliverer.service := {| Deliverer.url := "didcomm:transport/queue" |};
          Deliverer.payload := [x68; x69];
          Deliverer.retries := 0;
          Deliverer._endpoint_scheme := "didcomm" |}.
Proof. vm_compute. reflexivity. Qed.

Lemma from_bytes_reads_an_object_witness :
  exists p,
    Deliverer.from_bytes Deliverer.urlsplit_scheme wire_without_retries = Ok p /\
    Deliverer.urlsplit_scheme (Deliverer.url (Deliverer.service p))
    = Ok (Deliverer.endpoint_scheme p) /\
    Deliverer.retries p = 0%Z.
Proof.
  eexists. split; [exact wire_without_retries_parsed|].
  destruct (from_bytes_reads_an_object Deliverer.urlsplit_scheme
              wire_without_retries _ wire_without_retries_parsed)
    as (text & data & Ht & Hj & Hs & _ & Hr & _).
  split; [exact Hs|]. reflexivity.
Defined.

(** X14.  What [to_bytes] writes is JSON text of an object with the three
    fields [service], [payload] and [retries], in this order and no
    other: the private [_endpoint_scheme] is not on the wire.  [service]
    holds the URL, [retries] the count, and [payload] a string that the
    URL-safe decoder turns back into the payload bytes. *)
Theorem to_bytes_wire_shape p :
  exists b fields s,
    Deliverer.to_bytes p = Ok b /\
    json_loads_bytes b = Some (JObj fields) /\
    map fst fields = ["service"; "payload"; "retries"] /\
    dict_get "_endpoint_scheme" fields = None /\
    dict_get "service" fields
    = Some (JObj [("url", JStr (Deliverer.url (Deliverer.service p)))]) /\
    dict_get "retries" fields = Some (JNum (Deliverer.retries p)) /\
    dict_get "payload" fields = Some (JStr s) /\
    urlsafe_b64decode_str s = Ok (Deliverer.payload p).
Proof.
  eexists. eexists. exists (ascii_text (urlsafe_b64encode (Deliverer.payload p))).
  split; [apply to_bytes_text|].
  split; [apply json_loads_bytes_dumps; reflexivity|].
  repeat split.
  unfold urlsafe_b64decode_str.
  rewrite encode_ascii_text by apply urlsafe_b64encode_ascii.
  apply urlsafe_b64decode_encode.
Qed.

(** ** The queue payload model and the relay: padding *)

Lemma unpadded_decode_fails (b : bytes) :
  List.length b mod 3 <> 0 ->
  urlsafe_b64decode (unpadded_b64 b) = Raise BinasciiError.
Proof.
  unfold urlsafe_b64decode, unpadded_b64, urlsafe_b64encode, b64decode.
  induction b as [|x|x y|x y z rest IH] using bytes_ind3; intros Hlen.
  - cbn in Hlen. contradiction.
  - pose proof (to_N_lt x).
    cbn [b64encode map filter].
    rewrite !encode_char_not_pad by divmod. cbn [map].
    rewrite !a2b_base64_data by divmod. reflexivity.
  - pose proof (to_N_lt x). pose proof (to_N_lt y).
    cbn [b64encode map filter].
    rewrite !encode_char_not_pad by divmod. cbn [map].
    rewrite !a2b_base64_data by divmod. reflexivity.
  - pose proof (to_N_lt x). pose proof (to_N_lt y). pose proof (to_N_lt z).
    cbn [b64encode map filter].
    rewrite !encode_char_not_pad by divmod. cbn [map].
    rewrite !a2b_base64_data by divmod.
    cbn [N.eqb Pos.eqb].
    rewrite IH; [reflexivity|].
    cbn [List.length] in Hlen.
    replace (S (S (S (List.length rest)))) with (List.length rest + 1 * 3)
      in Hlen by lia.
    now rewrite Nat.Div0.mod_add in Hlen.
Qed.

(** X15.  The validator of [payload] decodes the text as it is, where
    [b64_to_bytes] of the relay restores the padding first: for a byte
    string whose length is not a multiple of three, the unpadded
    URL-safe text is decoded by the relay and refused by the validator,
    so that the constructor fails on it. *)
Theorem unpadded_payload_is_refused (b : bytes) :
  List.length b mod 3 <> 0 ->
  let text := ascii_text (unpadded_b64 b) in
  Relay.b64_to_bytes (JStr text) true = Ok b /\
  Deliverer.decode_payload_to_bytes (JStr text) = Raise BinasciiError /\
  forall urlparse_scheme url retries,
    Deliverer.OutboundPayload_init urlparse_scheme
      [("service", JObj [("url", JStr url)]);
       ("payload", JStr text);
       ("retries", JNum retries)]
    = Raise (ValidationError "payload").
Proof.
  intros Hlen text.
  assert (Hdec : Deliverer.decode_payload_to_bytes (JStr text)
                 = Raise BinasciiError).
  { unfold Deliverer.decode_payload_to_bytes, urlsafe_b64decode_str. subst text.
    rewrite encode_ascii_text
      by (apply is_ascii_filter, urlsafe_b64encode_ascii).
    now apply unpadded_decode_fails. }
  split; [apply b64_to_bytes_restores_padding|].
  split; [exact Hdec|].
  intros urlparse_scheme url retries.
  unfold Deliverer.OutboundPayload_init.
  unfold Deliverer.required at 2.
  cbn [dict_get String.eqb Ascii.eqb Bool.eqb]. rewrite Hdec.
  reflexivity.
Qed.

Lemma unpadded_payload_is_refused_witness :
  Relay.b64_to_bytes (JStr "aGk") true = Ok [x68; x69] /\
  Deliverer.decode_payload_to_bytes (JStr "aGk") = Raise BinasciiError.
Proof.
  destruct (unpadded_payload_is_refused [x68; x69]) as (H1 & H2 & _).
  - cbn. discriminate.
  - split; [exact H1 | exact H2].
Defined.

(** ** The start of the configurable bridge *)

Lemma subscribe_all_run compile_error keys : forall subscribed w,
  let '(r, w', bus') :=
    EventsSetup.subscribe_all compile_error keys subscribed w in
  exists done rest,
    keys = (done ++ rest)%list /\
    bus' = (subscribed ++ done)%list /\
    send_calls w' = send_calls w /\
    (r = Ok tt -> rest = []) /\
    ((forall k, In k keys -> compile_error k = None) ->
     r = Ok tt /\ rest = [] /\
     List.length (log w') = List.length (log w) + List.length keys).
Proof.
  induction keys as [|k keys IH]; intros subscribed w.
  - cbn. exists [], [].
    repeat split; intros; cbn; rewrite ?app_nil_r; lia || reflexivity.
  - cbn [EventsSetup.subscribe_all].
    destruct (compile_error k) as [e|] eqn:Ek.
    + exists [], (k :: keys). rewrite app_nil_r. cbn.
      split; [reflexivity|]. split; [reflexivity|]. split; [reflexivity|].
      split; [discriminate|].
      intros Hall. specialize (Hall k (or_introl eq_refl)). congruence.
    + match goal with |- context [EventsSetup.subscribe_all _ keys ?b ?w1] =>
        specialize (IH b w1);
        destruct (EventsSetup.subscribe_all compile_error keys b w1)
          as [[r w'] bus'] end.
      destruct IH as (done & rest & -> & -> & Hs & Hr & Hall).
      exists (k :: done), rest. cbn [app].
      split; [reflexivity|]. split; [now rewrite <- app_assoc|].
      split; [exact Hs|]. split; [exact Hr|].
      intros H.
      destruct Hall as (H1 & H2 & H3).
      { intros k' Hk'. apply H. now right. }
      split; [exact H1|]. split; [exact H2|].
      rewrite H3. cbn [logger snd log List.length].
      rewrite length_app. cbn. lia.
Qed.

Lemma topic_maps_get_key maps :
  forall key, In key (map fst maps) ->
  exists template, Events.topic_maps_get key maps = Ok template.
Proof.
  induction maps as [|[k v] maps IH]; intros key Hin; [contradiction|].
  cbn [map fst In] in Hin. cbn [Events.topic_maps_get].
  destruct (String.eqb key k) eqn:E; [now exists v|].
  destruct Hin as [<- | Hin]; [now rewrite String.eqb_refl in E|].
  now apply IH.
Qed.

(** X18.  [setup] of the configurable bridge, given a bus: it subscribes
    [handle_event] for keys of the topic map, in the order of the map
    and after what the bus already holds, and sends nothing; when every
    key compiles it ends normally, has subscribed every key and has
    logged one line for each.  Whether it ends normally or not, every
    expression it has subscribed is a key [handle_event] finds a
    template for, so that an event that comes through one of these
    subscriptions does not fail on the lookup in the topic map. *)
Theorem setup_subscribes_keys compile_error s subscribed w :
  let maps :=
    topic_maps (events_config_of {| settings := s; producer_bound := false |}) in
  let '(r, w', bus') :=
    EventsSetup.setup compile_error s (Some subscribed) w in
  exists done rest,
    map fst maps = (done ++ rest)%list /\
    bus' = (subscribed ++ done)%list /\
    send_calls w' = send_calls w /\
    (forall pattern, In pattern done ->
       exists template, Events.topic_maps_get pattern maps = Ok template) /\
    ((forall k, In k (map fst maps) -> compile_error k = None) ->
     r = Ok tt /\ done = map fst maps /\
     List.length (log w') = List.length (log w) + List.length maps).
Proof.
  intros maps. subst maps.
  unfold EventsSetup.setup, events_config_of. cbn [settings].
  match goal with |- context [EventsSetup.subscribe_all _ ?k subscribed w] =>
    pose proof (subscribe_all_run compile_error k subscribed w) as H;
    destruct (EventsSetup.subscribe_all compile_error k subscribed w)
      as [[r w'] bus'] end.
  destruct H as (done & rest & Hk & Hb & Hs & _ & Hall).
  exists done, rest.
  split; [exact Hk|]. split; [exact Hb|]. split; [exact Hs|]. split.
  - intros pattern Hin. apply topic_maps_get_key.
    rewrite Hk. apply in_or_app. now left.
  - intros H. destruct (Hall H) as (H1 & H2 & H3).
    split; [exact H1|]. subst rest. rewrite app_nil_r in Hk.
    split; [now symmetry|]. now rewrite length_map in H3.
Qed.

Example setup_samples :
  let none := fun _ : string => @None pyexc in
  let s := settings (sample_events_profile None) in
  EventsSetup.setup none s (Some ["x"]) empty_world
  = (Ok tt,
     {| heap := heap empty_world; send_calls := []; delivered := [];
        log := [{| log_level := INFO; log_text := "subscribing to event: {}";
                   log_args := [LStr "acapy::record::connections::active"] |}];
        bus := [] |},
     ["x"; "acapy::record::connections::active"]) /\
  fst (fst (EventsSetup.setup none s None empty_world))
  = Raise (ValueError "EventBus missing in context") /\
  snd (EventsSetup.setup none (settings sample_profile) (Some []) empty_world)
  = [].
Proof. repeat split. Qed.
